(** * Loan amortization schedule: the engine of [app.py] and [app_par_actual.py]

    A shallow embedding of the two amortization engines of the repository
    ([build_schedule] in [src/app.py] and in [src/app_par_actual.py]) and of
    the calendar resolver [add_months] they share, together with the
    properties of the schedule they produce.

    The engine computes on Python's [decimal.Decimal] under the context the
    modules install ([getcontext().prec = 28], the library defaults
    otherwise) and on [datetime.date]; both are modelled here with the
    failures they have: a date outside the calendar's range and a decimal
    operation that traps raise, and the model returns [Raise] where the
    program raises. *)

From Stdlib Require Import ZArith Ascii String List Bool Lia.
Import ListNotations.

#[local] Open Scope Z_scope.

(** ** Exceptions and the error monad *)

Inductive exn : Type :=
| ValueError          (* datetime.date, calendar: field out of range *)
| InvalidOperation    (* decimal.InvalidOperation (trapped) *)
| Overflow            (* decimal.Overflow (trapped) *)
| DivisionByZero      (* decimal.DivisionByZero (trapped) *)
| OverflowError.      (* the builtin: an int that does not fit a C int *)

Inductive result (A : Type) : Type :=
| Ok (a : A)
| Raise (e : exn).

Arguments Ok {A} a.
Arguments Raise {A} e.

Definition bind {A B : Type} (m : result A) (k : A -> result B) : result B :=
  match m with
  | Ok a => k a
  | Raise e => Raise e
  end.

Notation "x <- m ;; k" := (bind m (fun x => k))
  (at level 61, m at next level, right associativity).

(** ** [decimal.Decimal] under the module's context

    A finite decimal is a coefficient and an exponent, standing for
    [coef * 10 ^ exp].  The sign travels with the coefficient: the engine
    uses no operation that tells a negative zero from a positive one.  The
    special values (NaN, infinities) are not part of the model: the loan
    fields are finite amounts. *)

Module Dec.

Record Decimal : Type := mk { coef : Z; exp : Z }.

(** The context: [getcontext().prec = 28] at the top of both modules, the
    remaining fields at the library's defaults (ROUND_HALF_EVEN,
    Emax = 999999, Emin = -999999, clamp = 0, traps on InvalidOperation,
    DivisionByZero and Overflow). *)
Definition prec : Z := 28.
Definition Emax : Z := 999999.
Definition Emin : Z := -999999.
Definition Etiny : Z := Emin - prec + 1.
Definition Etop : Z := Emax - prec + 1.

(** [len(self._int)]: the number of decimal digits of the coefficient's
    magnitude; the coefficient zero is the one digit [0]. *)
Fixpoint ndigits_fuel (fuel : nat) (n : Z) : Z :=
  match fuel with
  | O => 1
  | S fuel' => if n <? 10 then 1 else 1 + ndigits_fuel fuel' (n / 10)
  end.

Definition ndigits (c : Z) : Z :=
  ndigits_fuel (Z.to_nat (Z.log2 (Z.abs c))) (Z.abs c).

(** [self.adjusted()] *)
Definition adjusted (d : Decimal) : Z := exp d + ndigits (coef d) - 1.

(** Dropping the last [k] digits of the magnitude [m], to nearest with
    ties to even (the context's rounding) and with ties away from zero
    (ROUND_HALF_UP, the rounding [quantize_money] asks for). *)
Definition round_half_even (m k : Z) : Z :=
  let p := 10 ^ k in
  let q := m / p in
  let r := m mod p in
  if (2 * r >? p) || ((2 * r =? p) && Z.odd q) then q + 1 else q.

Definition round_half_up (m k : Z) : Z :=
  let p := 10 ^ k in
  let q := m / p in
  let r := m mod p in
  if 2 * r >=? p then q + 1 else q.

(** [Decimal._fix]: bring a result into the context, rounding the
    coefficient to [prec] digits when it has more. *)
Definition fix_context (d : Decimal) : result Decimal :=
  let c := coef d in
  let e := exp d in
  if c =? 0 then Ok (mk 0 (Z.min (Z.max e Etiny) Emax))
  else
    let exp_min := ndigits c + e - prec in
    if exp_min >? Etop then Raise Overflow
    else
      let exp_min := Z.max exp_min Etiny in
      if e <? exp_min then
        let m := round_half_even (Z.abs c) (exp_min - e) in
        let carry := ndigits m >? prec in
        let m' := if carry then m / 10 else m in
        let exp_min' := if carry then exp_min + 1 else exp_min in
        if exp_min' >? Etop then Raise Overflow
        else Ok (mk (Z.sgn c * m') exp_min')
      else Ok d.

(** [Decimal(n)] for a Python int: exact, whatever the context. *)
Definition of_int (n : Z) : Decimal := mk n 0.

(** [Decimal.__add__], [__sub__], [__mul__]: the exact result at the
    ideal exponent, then [_fix]. *)
Definition add (a b : Decimal) : result Decimal :=
  let e := Z.min (exp a) (exp b) in
  fix_context (mk (coef a * 10 ^ (exp a - e) + coef b * 10 ^ (exp b - e)) e).

Definition neg (a : Decimal) : Decimal := mk (- coef a) (exp a).

Definition sub (a b : Decimal) : result Decimal := add a (neg b).

Definition mul (a b : Decimal) : result Decimal :=
  fix_context (mk (coef a * coef b) (exp a + exp b)).

(** [Decimal.__truediv__]: an exact quotient sheds trailing zeros up to
    the ideal exponent; an inexact one keeps [prec + 1] or more digits
    with a sticky last digit, and [_fix] rounds it. *)
Fixpoint strip_zeros (fuel : nat) (q e ideal : Z) : Z * Z :=
  match fuel with
  | O => (q, e)
  | S fuel' =>
      if (e <? ideal) && (q mod 10 =? 0)
      then strip_zeros fuel' (q / 10) (e + 1) ideal
      else (q, e)
  end.

Definition div (a b : Decimal) : result Decimal :=
  if coef b =? 0 then
    if coef a =? 0 then Raise InvalidOperation else Raise DivisionByZero
  else if coef a =? 0 then fix_context (mk 0 (exp a - exp b))
  else
    let shift := ndigits (coef b) - ndigits (coef a) + prec + 1 in
    let e := exp a - exp b - shift in
    let n := if shift >=? 0 then Z.abs (coef a) * 10 ^ shift else Z.abs (coef a) in
    let d := if shift >=? 0 then Z.abs (coef b) else Z.abs (coef b) * 10 ^ (- shift) in
    let q := n / d in
    let r := n mod d in
    let s := Z.sgn (coef a) * Z.sgn (coef b) in
    if r =? 0 then
      let '(q', e') := strip_zeros (Z.to_nat (exp a - exp b - e)) q e (exp a - exp b) in
      fix_context (mk (s * q') e')
    else
      fix_context (mk (s * (if q mod 5 =? 0 then q + 1 else q)) e).

(** Comparison is exact and uses no context. *)
Definition cmp (a b : Decimal) : comparison :=
  let e := Z.min (exp a) (exp b) in
  (coef a * 10 ^ (exp a - e)) ?= (coef b * 10 ^ (exp b - e)).

Definition ltb (a b : Decimal) : bool :=
  match cmp a b with Lt => true | _ => false end.

Definition gtb (a b : Decimal) : bool :=
  match cmp a b with Gt => true | _ => false end.

Definition eqb (a b : Decimal) : bool :=
  match cmp a b with Eq => true | _ => false end.

(** [Decimal._rescale(exp, ROUND_HALF_UP)] *)
Definition rescale (a : Decimal) (e : Z) : Decimal :=
  if coef a =? 0 then mk 0 e
  else if exp a >=? e then mk (coef a * 10 ^ (exp a - e)) e
  else mk (Z.sgn (coef a) * round_half_up (Z.abs (coef a)) (e - exp a)) e.

(** [Decimal.quantize(q, rounding=ROUND_HALF_UP)]: the result has the
    exponent of [q]; a result that needs more than [prec] digits is an
    InvalidOperation. *)
Definition quantize (a q : Decimal) : result Decimal :=
  let e := exp q in
  if negb ((Etiny <=? e) && (e <=? Emax)) then Raise InvalidOperation
  else if coef a =? 0 then fix_context (mk 0 e)
  else if adjusted a >? Emax then Raise InvalidOperation
  else if adjusted a - e + 1 >? prec then Raise InvalidOperation
  else
    let ans := rescale a e in
    if adjusted ans >? Emax then Raise InvalidOperation
    else if ndigits (coef ans) >? prec then Raise InvalidOperation
    else fix_context ans.

(** The literals of the source. *)
Definition cent : Decimal := mk 1 (-2).        (* Decimal("0.01") *)
Definition zero : Decimal := mk 0 (-2).        (* Decimal("0.00") *)

(** An amount in cents, as [quantize_money] produces them. *)
Definition money (cents : Z) : Decimal := mk cents (-2).

End Dec.

Abbreviation Decimal := Dec.Decimal.

(** [quantize_money] (app.py 55-56, app_par_actual.py 56-57) *)
Definition quantize_money (value : Decimal) : result Decimal :=
  Dec.quantize value Dec.cent.

(** ** [datetime.date] and [calendar.monthrange] *)

Module Cal.

Record date : Type := mk_date { year : Z; month : Z; day : Z }.

Definition MINYEAR : Z := 1.
Definition MAXYEAR : Z := 9999.

(** [calendar.isleap] *)
Definition isleap (y : Z) : bool :=
  (y mod 4 =? 0) && (negb (y mod 100 =? 0) || (y mod 400 =? 0)).

(** [calendar.mdays] *)
Definition mdays (m : Z) : Z :=
  match m with
  | 1 => 31 | 2 => 28 | 3 => 31 | 4 => 30 | 5 => 31 | 6 => 30
  | 7 => 31 | 8 => 31 | 9 => 30 | 10 => 31 | 11 => 30 | 12 => 31
  | _ => 0
  end.

Definition days_in_month (y m : Z) : Z :=
  mdays m + (if (m =? 2) && isleap y then 1 else 0).

(** [calendar.monthrange(year, month)[1]]: the number of days of the
    month; a month outside 1..12 is an IllegalMonthError, a ValueError. *)
Definition monthrange (y m : Z) : result Z :=
  if (1 <=? m) && (m <=? 12) then Ok (days_in_month y m)
  else Raise ValueError.

(** The fields of a date object: what [date(year, month, day)] accepts. *)
Definition valid_date (d : date) : bool :=
  (MINYEAR <=? year d) && (year d <=? MAXYEAR)
  && (1 <=? month d) && (month d <=? 12)
  && (1 <=? day d) && (day d <=? days_in_month (year d) (month d)).

(** The arguments of [date] are read as C ints before anything else. *)
Definition fits_c_int (n : Z) : bool := (- 2 ^ 31 <=? n) && (n <? 2 ^ 31).

(** The constructor [date(year, month, day)]: OverflowError on an
    argument that does not fit a C int, then ValueError on a field out of
    range. *)
Definition date_new (y m d : Z) : result date :=
  if negb (fits_c_int y && fits_c_int m && fits_c_int d) then Raise OverflowError
  else if valid_date (mk_date y m d) then Ok (mk_date y m d)
  else Raise ValueError.

(** [date.toordinal]: days since 0001-01-01, that day being 1. *)
Definition days_before_year (y : Z) : Z :=
  let y1 := y - 1 in
  y1 * 365 + y1 / 4 - y1 / 100 + y1 / 400.

Definition days_before_month (y m : Z) : Z :=
  match m with
  | 1 => 0 | 2 => 31 | 3 => 59 | 4 => 90 | 5 => 120 | 6 => 151
  | 7 => 181 | 8 => 212 | 9 => 243 | 10 => 273 | 11 => 304 | 12 => 334
  | _ => 0
  end + (if (m >? 2) && isleap y then 1 else 0).

Definition toordinal (d : date) : Z :=
  days_before_year (year d) + days_before_month (year d) (month d) + day d.

(** [(a - b).days] *)
Definition days_between (a b : date) : Z := toordinal a - toordinal b.

(** [a > b] on dates: year, month, day in that order. *)
Definition date_gtb (a b : date) : bool :=
  (year a >? year b)
  || ((year a =? year b)
      && ((month a >? month b)
          || ((month a =? month b) && (day a >? day b)))).

End Cal.

Abbreviation date := Cal.date.

(** [add_months] (app.py 59-65, app_par_actual.py 60-66; the same text in
    both).  [//] and [%] are Python's floor division and modulus, which
    are [Z.div] and [Z.modulo]. *)
Definition add_months (base_date : date) (months cycle_day : Z) : result date :=
  let month_index := Cal.month base_date - 1 + months in
  let year := Cal.year base_date + month_index / 12 in
  let month := month_index mod 12 + 1 in
  last_day <- Cal.monthrange year month ;;
  let day := Z.min cycle_day last_day in
  Cal.date_new year month day.

(** ** Rows and loan terms *)

(** [ScheduleRow] (app.py 29-42, app_par_actual.py 30-43) *)
Record ScheduleRow : Type := mkRow {
  loan_number : string;
  period : Z;
  payment_date : option date;
  days : option Z;
  projected_close_date : option date;
  beginning_balance : Decimal;
  daily_interest : option Decimal;
  interest : option Decimal;
  payment : option Decimal;
  principal : option Decimal;
  extra_interest : option Decimal;
  ending_balance : Decimal
}.

(** The parameters of [build_schedule], which [main] passes by keyword
    from one loaded loan.  [loan_number] and [projected_close_date] are
    also fields of the row; as parameters they carry the prefix [t_]. *)
Record LoanTerms : Type := mkTerms {
  t_loan_number : string;
  periods_months : Z;
  t_projected_close_date : option date;
  interest_start_date : date;
  first_payment_date : date;
  cycle_day : Z;
  annual_rate_percent : Decimal;
  loan_amount : Decimal;
  monthly_payment : Decimal
}.

(** [rows[0].extra_interest = extra_interest]: the one assignment to a
    row already in the list. *)
Definition set_extra_interest (r : ScheduleRow) (x : option Decimal) : ScheduleRow :=
  mkRow (loan_number r) (period r) (payment_date r) (days r)
        (projected_close_date r) (beginning_balance r) (daily_interest r)
        (interest r) (payment r) (principal r) x (ending_balance r).

Definition assign_extra_interest (rows : list ScheduleRow) (i : nat)
    (x : option Decimal) : list ScheduleRow :=
  match nth_error rows i with
  | Some r => firstn i rows ++ set_extra_interest r x :: skipn (S i) rows
  | None => rows
  end.

(** [range(1, n + 1)] *)
Definition range1 (n : Z) : list Z :=
  map Z.of_nat (seq 1 (Z.to_nat n)).

(** The loop variables that live across iterations. *)
Record loop_state : Type := mkState {
  st_rows : list ScheduleRow;
  st_balance : Decimal;
  st_previous_date : date
}.

(** [quantize_money((annual_rate_percent / Decimal(100)) * balance / Decimal(365))] *)
Definition daily_rate_amount (rate balance : Decimal) : result Decimal :=
  r <- Dec.div rate (Dec.of_int 100) ;;
  rb <- Dec.mul r balance ;;
  d <- Dec.div rb (Dec.of_int 365) ;;
  quantize_money d.

(** The steps of the body of [for period in range(1, periods_months + 1)]
    (app.py 112-156, app_par_actual.py 123-167; the same text in both),
    in the order the body takes them. *)

(** [payment_date]: the first payment date as given, later ones through
    the resolver. *)
Definition payment_date_of (t : LoanTerms) (p : Z) : result date :=
  if p =? 1 then Ok (first_payment_date t)
  else add_months (first_payment_date t) (p - 1) (cycle_day t).

(** [if period == 1 and extra_interest is not None:
       interest = quantize_money(interest + extra_interest)] *)
Definition fold_interest (extra : option Decimal) (p : Z) (int0 : Decimal)
    : result Decimal :=
  match extra with
  | Some x => if p =? 1 then (s <- Dec.add int0 x ;; quantize_money s) else Ok int0
  | None => Ok int0
  end.

(** [payment = monthly_payment], then
    [if period == 1 and extra_interest is not None:
       payment = payment + extra_interest] *)
Definition nominal_payment (t : LoanTerms) (extra : option Decimal) (p : Z)
    : result Decimal :=
  match extra with
  | Some x => if p =? 1 then Dec.add (monthly_payment t) x else Ok (monthly_payment t)
  | None => Ok (monthly_payment t)
  end.

(** [if period == periods_months: payment = balance + interest
     elif payment > balance + interest: payment = balance + interest] *)
Definition settle_payment (t : LoanTerms) (p : Z) (balance int1 pay0 : Decimal)
    : result Decimal :=
  if p =? periods_months t then Dec.add balance int1
  else
    owed <- Dec.add balance int1 ;;
    if Dec.gtb pay0 owed then Dec.add balance int1 else Ok pay0.

(** [ending_balance = quantize_money(balance - principal)], set to
    [Decimal("0.00")] when negative. *)
Definition close_balance (balance princ : Decimal) : result Decimal :=
  rest <- Dec.sub balance princ ;;
  eb0 <- quantize_money rest ;;
  Ok (if Dec.ltb eb0 Dec.zero then Dec.zero else eb0).

Definition loop_body (t : LoanTerms) (extra : option Decimal)
    (st : loop_state) (p : Z) : result loop_state :=
  let balance := st_balance st in
  pay_date <- payment_date_of t p ;;
  let ndays := Cal.days_between pay_date (st_previous_date st) in
  daily <- daily_rate_amount (annual_rate_percent t) balance ;;
  accrued <- Dec.mul daily (Dec.of_int ndays) ;;
  int0 <- quantize_money accrued ;;
  int1 <- fold_interest extra p int0 ;;
  pay0 <- nominal_payment t extra p ;;
  pay1 <- settle_payment t p balance int1 pay0 ;;
  princ <- Dec.sub pay1 int1 ;;
  eb <- close_balance balance princ ;;
  Ok (mkState
        (st_rows st ++
           [mkRow (t_loan_number t) p (Some pay_date) (Some ndays) None
                  balance (Some daily) (Some int1) (Some pay1) (Some princ)
                  None eb])
        eb pay_date).

Fixpoint run_loop (t : LoanTerms) (extra : option Decimal)
    (st : loop_state) (ps : list Z) : result loop_state :=
  match ps with
  | [] => Ok st
  | p :: ps' => st' <- loop_body t extra st p ;; run_loop t extra st' ps'
  end.

(** The period-0 row both engines append first. *)
Definition row0 (t : LoanTerms) (start : date) (balance : Decimal) : ScheduleRow :=
  mkRow (t_loan_number t) 0 (Some start) None (t_projected_close_date t)
        balance None None None None None balance.

(** The proration block ([if projected_close_date: ...]), on the date
    the engine takes as the start of interest. *)
Definition proration (t : LoanTerms) (start : date) (balance : Decimal)
    : result (option Decimal) :=
  match t_projected_close_date t with
  | Some pcd =>
      let extra_days := Cal.days_between start pcd in
      let extra_days := if extra_days <? 0 then 0 else extra_days in
      extra_daily <- daily_rate_amount (annual_rate_percent t) balance ;;
      prod <- Dec.mul extra_daily (Dec.of_int extra_days) ;;
      x <- quantize_money prod ;;
      Ok (Some x)
  | None => Ok None
  end.

(** What both engines do once the start of interest and the rounded
    balance are known: period-0 row, proration, assignment into row 0,
    the loop over the payment periods. *)
Definition schedule_tail (t : LoanTerms) (start : date) (balance : Decimal)
    : result (list ScheduleRow) :=
  let rows := [row0 t start balance] in
  extra <- proration t start balance ;;
  let rows := match extra with
              | Some x => assign_extra_interest rows 0 (Some x)
              | None => rows
              end in
  st <- run_loop t extra (mkState rows balance start) (range1 (periods_months t)) ;;
  Ok (st_rows st).

(** [build_schedule] of [src/app.py] (68-158): interest starts on the
    given [interest_start_date]. *)
Module App.

Definition build_schedule (t : LoanTerms) : result (list ScheduleRow) :=
  balance <- quantize_money (loan_amount t) ;;
  schedule_tail t (interest_start_date t) balance.

End App.

(** [build_schedule] of [src/app_par_actual.py] (69-169): interest
    starts one month before the first payment, or on the projected close
    date when that is later; [interest_start_date] is not read. *)
Module AppParActual.

Definition actual_interest_start_date (t : LoanTerms) : result date :=
  calculated <- add_months (first_payment_date t) (-1)
                           (Cal.day (first_payment_date t)) ;;
  match t_projected_close_date t with
  | Some pcd => if Cal.date_gtb pcd calculated then Ok pcd else Ok calculated
  | None => Ok calculated
  end.

Definition build_schedule (t : LoanTerms) : result (list ScheduleRow) :=
  balance <- quantize_money (loan_amount t) ;;
  start <- actual_interest_start_date t ;;
  schedule_tail t start balance.

End AppParActual.

(** The two engines under one name, with the date each takes as the
    start of interest. *)
Inductive engine : Type := app_py | app_par_actual_py.

Definition build_schedule_of (e : engine) : LoanTerms -> result (list ScheduleRow) :=
  match e with
  | app_py => App.build_schedule
  | app_par_actual_py => AppParActual.build_schedule
  end.

Definition interest_start_of (e : engine) (t : LoanTerms) : result date :=
  match e with
  | app_py => Ok (interest_start_date t)
  | app_par_actual_py => AppParActual.actual_interest_start_date t
  end.

(** The year and month [add_months] aims at. *)
Definition target_year (base_date : date) (months : Z) : Z :=
  Cal.year base_date + (Cal.month base_date - 1 + months) / 12.

Definition target_month (base_date : date) (months : Z) : Z :=
  (Cal.month base_date - 1 + months) mod 12 + 1.

(** The rows of a returned schedule; none when the engine raised. *)
Definition rows_of (r : result (list ScheduleRow)) : list ScheduleRow :=
  match r with
  | Ok rows => rows
  | Raise _ => []
  end.

(** The terms [t] with another interest-start date. *)
Definition with_interest_start (t : LoanTerms) (d : date) : LoanTerms :=
  mkTerms (t_loan_number t) (periods_months t) (t_projected_close_date t)
          d (first_payment_date t) (cycle_day t) (annual_rate_percent t)
          (loan_amount t) (monthly_payment t).

(** ** Sample loans

    The loan of the specification's extra-interest scenario: 100000.00 at
    6.00%, projected to close on 2024-01-01, interest from 2024-01-11;
    here with three monthly payments of 34000.00 from 2024-02-15. *)
Definition sample_loan : LoanTerms :=
  mkTerms "L1" 3 (Some (Cal.mk_date 2024 1 1)) (Cal.mk_date 2024 1 11)
          (Cal.mk_date 2024 2 15) 15
          (Dec.mk 600 (-2)) (Dec.money 10000000) (Dec.money 3400000).

(** The same loan closing on the day interest starts. *)
Definition sample_loan_closing_late : LoanTerms :=
  mkTerms "L1" 3 (Some (Cal.mk_date 2024 1 11)) (Cal.mk_date 2024 1 11)
          (Cal.mk_date 2024 2 15) 15
          (Dec.mk 600 (-2)) (Dec.money 10000000) (Dec.money 3400000).

(** The same loan paid off in one period. *)
Definition sample_loan_single : LoanTerms :=
  mkTerms "L1" 1 (Some (Cal.mk_date 2024 1 1)) (Cal.mk_date 2024 1 11)
          (Cal.mk_date 2024 2 15) 15
          (Dec.mk 600 (-2)) (Dec.money 10000000) (Dec.money 3400000).

(** A loan whose second payment would fall in year 10000. *)
Definition loan_past_calendar : LoanTerms :=
  mkTerms "L2" 2 None (Cal.mk_date 9999 11 30) (Cal.mk_date 9999 12 31) 31
          (Dec.mk 600 (-2)) (Dec.money 10000000) (Dec.money 3400000).

(** A two-period loan whose cycle day does not fit a C int. *)
Definition loan_beyond_c_int : LoanTerms :=
  mkTerms "L5" 2 None (Cal.mk_date 2024 1 11) (Cal.mk_date 2024 2 15)
          (-3000000000)
          (Dec.mk 600 (-2)) (Dec.money 10000000) (Dec.money 3400000).

(** A loan of no periods whose principal has 30 digits. *)
Definition loan_too_large : LoanTerms :=
  mkTerms "L3" 0 None (Cal.mk_date 2024 1 11) (Cal.mk_date 2024 2 15) 15
          (Dec.mk 600 (-2)) (Dec.money (10 ^ 29)) (Dec.money 3400000).

(** A one-period loan of 99999999999999999999999999.99 at 3.65E-24
    percent, five days of interest. *)
Definition loan_at_precision : LoanTerms :=
  mkTerms "L4" 1 None (Cal.mk_date 2024 1 1) (Cal.mk_date 2024 1 6) 6
          (Dec.mk 365 (-26)) (Dec.money (10 ^ 28 - 1)) (Dec.money 100).

(** ** Exceptions of the engine

    The traps of the decimal context. *)
Definition decimal_trap (e : exn) : Prop := e = InvalidOperation \/ e = Overflow.

(** A payment date can only fail in the resolver, and the resolver only
    on a cycle day below 1 or a month outside the calendar's years. *)
Definition resolver_fails (t : LoanTerms) (p : Z) : Prop :=
  p <> 1
  /\ (cycle_day t < 1
      \/ target_year (first_payment_date t) (p - 1) < Cal.MINYEAR
      \/ Cal.MAXYEAR < target_year (first_payment_date t) (p - 1)).

(** The failure is an OverflowError when the cycle day or the year of
    the month does not fit a C int, and a ValueError when both do. *)
Definition resolver_overflows (t : LoanTerms) (p : Z) : Prop :=
  p <> 1
  /\ (cycle_day t < - 2 ^ 31
      \/ target_year (first_payment_date t) (p - 1) < - 2 ^ 31
      \/ 2 ^ 31 <= target_year (first_payment_date t) (p - 1)).

(** The exception [e] is what the resolver raises at period [p]. *)
Definition resolver_raises (t : LoanTerms) (p : Z) (e : exn) : Prop :=
  resolver_fails t p
  /\ (e = ValueError \/ e = OverflowError)
  /\ (e = OverflowError <-> resolver_overflows t p).

(** ** Loans the context has room for

    [scaled lo d] is the value of [d] in units of [10 ^ lo]. *)
Definition scaled (lo : Z) (d : Decimal) : Z :=
  Dec.coef d * 10 ^ (Dec.exp d - lo).

(** A bound, in cents, on the daily amount of a balance of at most [B]
    cents at the rate [R * 10 ^ er] percent. *)
Definition daily_cap (R er B : Z) : Z :=
  (R * B / 365 + 1) / 10 ^ (2 - er) + 1.

(** One period from a balance of at most [B] cents, over at most [D]
    days, with at most [X] cents of extra interest and a nominal payment
    of [P] cents: every amount of the period has at most 28 digits. *)
Definition step_fits (R er D X P B : Z) : bool :=
  (R * B <? 10 ^ 28) && (B + daily_cap R er B * D + X + P <? 10 ^ 28).

(** The same for [n] periods in a row, the balance growing each period
    by the largest interest it can. *)
Fixpoint caps_fit (n : nat) (R er D X P B : Z) : bool :=
  match n with
  | O => true
  | S n' =>
      step_fits R er D X P B
      && caps_fit n' R er D X P (B + daily_cap R er B * D)
  end.

(** The payment date of period [p], and the date the day count of
    period [p] starts from. *)
Definition pay_date (t : LoanTerms) (p : Z) : date :=
  match payment_date_of t p with
  | Ok d => d
  | Raise _ => first_payment_date t
  end.

Definition date_before (t : LoanTerms) (start : date) (p : Z) : date :=
  if p =? 1 then start else pay_date t (p - 1).

(** A loan within the context: amounts in cents, a rate with at most
    100 decimals, payment dates the calendar can hold, interest starting
    no later than the first payment, and room in the 28 digits for the
    balance even if every period added the largest interest it can. *)
Definition within_context (t : LoanTerms) : bool :=
  let L := Dec.coef (loan_amount t) in
  let R := Dec.coef (annual_rate_percent t) in
  let er := Dec.exp (annual_rate_percent t) in
  let P := Dec.coef (monthly_payment t) in
  let first := Cal.days_between (first_payment_date t) (interest_start_date t) in
  let D := Z.max 61 first in
  let E := match t_projected_close_date t with
           | Some c => Z.max 0 (Cal.days_between (interest_start_date t) c)
           | None => 0
           end in
  let X := daily_cap R er L * E in
  (Dec.exp (loan_amount t) =? -2) && (0 <=? L) && (L <? 10 ^ 28)
  && (Dec.exp (monthly_payment t) =? -2) && (0 <=? P)
  && (0 <=? R) && (R <? 10 ^ 28) && (-100 <=? er) && (er <=? 0)
  && Cal.valid_date (first_payment_date t)
  && (1 <=? cycle_day t)
  && (target_year (first_payment_date t) (periods_months t - 1) <=? Cal.MAXYEAR)
  && (0 <=? first)
  && (R * L <? 10 ^ 28) && (X <? 10 ^ 28)
  && caps_fit (Z.to_nat (periods_months t)) R er D X P L.

(** A thirty-year loan: 350000.00 at 6.75%, 360 payments of 2270.09 on
    the last day of the month. *)
Definition sample_mortgage : LoanTerms :=
  mkTerms "M1" 360 (Some (Cal.mk_date 2024 1 1)) (Cal.mk_date 2024 1 11)
          (Cal.mk_date 2024 2 15) 31
          (Dec.mk 675 (-2)) (Dec.money 35000000) (Dec.money 227009).

(** ** The loop as a relation

    [period_row t extra balance prev p r d]: from the balance [balance]
    and the previous date [prev], the body of the loop at period [p]
    appends the row [r] and leaves the payment date [d]. *)
Inductive period_row (t : LoanTerms) (extra : option Decimal)
    (balance : Decimal) (prev : date) (p : Z) : ScheduleRow -> date -> Prop :=
| period_row_intro (pay_date : date)
    (daily accrued int0 int1 pay0 pay1 princ eb : Decimal) :
    payment_date_of t p = Ok pay_date ->
    daily_rate_amount (annual_rate_percent t) balance = Ok daily ->
    Dec.mul daily (Dec.of_int (Cal.days_between pay_date prev)) = Ok accrued ->
    quantize_money accrued = Ok int0 ->
    fold_interest extra p int0 = Ok int1 ->
    nominal_payment t extra p = Ok pay0 ->
    settle_payment t p balance int1 pay0 = Ok pay1 ->
    Dec.sub pay1 int1 = Ok princ ->
    close_balance balance princ = Ok eb ->
    period_row t extra balance prev p
      (mkRow (t_loan_number t) p (Some pay_date)
             (Some (Cal.days_between pay_date prev)) None
             balance (Some daily) (Some int1) (Some pay1) (Some princ)
             None eb)
      pay_date.

(** The rows the loop appends over the periods [ps], each starting from
    the ending balance and the date of the one before. *)
Inductive schedule_chain (t : LoanTerms) (extra : option Decimal)
    : Decimal -> date -> list Z -> list ScheduleRow -> Prop :=
| chain_nil (b : Decimal) (d : date) : schedule_chain t extra b d [] []
| chain_cons (b : Decimal) (d : date) (p : Z) (ps : list Z)
    (r : ScheduleRow) (rs : list ScheduleRow) (d' : date) :
    period_row t extra b d p r d' ->
    schedule_chain t extra (ending_balance r) d' ps rs ->
    schedule_chain t extra b d (p :: ps) (r :: rs).

(** Every row starts from the balance the row before it ended with. *)
Fixpoint linked (b : Decimal) (rs : list ScheduleRow) : Prop :=
  match rs with
  | [] => True
  | r :: rs' => beginning_balance r = b /\ linked (ending_balance r) rs'
  end.

(** An amount in cents within the precision: what [quantize_money]
    returns. *)
Definition is_cents (d : Decimal) : Prop :=
  Dec.exp d = -2 /\ Dec.ndigits (Dec.coef d) <= Dec.prec.

(** ** Amounts beyond the precision

    A value whose amount in cents, rounded half-up, has more than 28
    digits. *)
Definition beyond_cents_precision (value : Decimal) : Prop :=
  Dec.coef value <> 0
  /\ ((-2 <= Dec.exp value
       /\ 10 ^ 28 <= Z.abs (Dec.coef value) * 10 ^ (Dec.exp value + 2))
      \/ (Dec.exp value < -2
          /\ (2 * 10 ^ 28 - 1) * 10 ^ (-2 - Dec.exp value)
             <= 2 * Z.abs (Dec.coef value))).

(** ** Text

    A Python [str] is a [string]: its characters are the code points
    below 256, which is where the digits, the separators and the white
    space of the date formats live. *)

Module Text.

Definition code (c : ascii) : Z := Z.of_N (N_of_ascii c).

(** [str.isspace] of one character: the white space [str.strip] removes. *)
Definition isspace (c : ascii) : bool :=
  let n := code c in
  ((9 <=? n) && (n <=? 13)) || ((28 <=? n) && (n <=? 32))
  || (n =? 133) || (n =? 160).

(** A decimal digit, as [\d] and [int] see it. *)
Definition isdigit (c : ascii) : bool := (48 <=? code c) && (code c <=? 57).

Fixpoint lstrip (s : string) : string :=
  match s with
  | EmptyString => EmptyString
  | String c s' => if isspace c then lstrip s' else s
  end.

Fixpoint rstrip (s : string) : string :=
  match s with
  | EmptyString => EmptyString
  | String c s' =>
      match rstrip s' with
      | EmptyString => if isspace c then EmptyString else String c EmptyString
      | kept => String c kept
      end
  end.

(** [str.strip()] *)
Definition strip (s : string) : string := lstrip (rstrip s).

(** ["%0<width>d" % n]: the decimal digits of [n], filled with zeros on
    the left up to [width] characters, the sign first. *)
Definition digit_char (n : Z) : ascii := ascii_of_N (Z.to_N (48 + n)).

Fixpoint decimal_fuel (fuel : nat) (n : Z) (acc : string) : string :=
  match fuel with
  | O => acc
  | S fuel' =>
      let acc' := String (digit_char (n mod 10)) acc in
      if n <? 10 then acc' else decimal_fuel fuel' (n / 10) acc'
  end.

Definition decimal (n : Z) : string :=
  decimal_fuel (S (Z.to_nat (Z.log2 n))) n EmptyString.

Fixpoint zeros (k : nat) : string :=
  match k with
  | O => EmptyString
  | S k' => String "0" (zeros k')
  end.

Definition zfill (width : nat) (s : string) : string :=
  (zeros (width - String.length s) ++ s)%string.

Definition format_d (width : nat) (n : Z) : string :=
  if n <? 0 then String "-" (zfill (width - 1) (decimal (- n)))
  else zfill width (decimal n).

(** [int(text)] on the text of a group of the date patterns: decimal
    digits, after the space the day pattern admits. *)
Fixpoint digits_value (s : string) (acc : Z) : Z :=
  match s with
  | EmptyString => acc
  | String c s' => digits_value s' (10 * acc + (code c - 48))
  end.

Definition int_of_group (s : string) : Z := digits_value (lstrip s) 0.

(** Text made of white space only. *)
Fixpoint all_space (w : string) : bool :=
  match w with
  | EmptyString => true
  | String c w' => isspace c && all_space w'
  end.

(** Four digits, two digits: the shape of a year and of a zero-filled
    month or day. *)
Definition four_digits (s : string) : bool :=
  match s with
  | String a (String b (String c (String d EmptyString))) =>
      isdigit a && isdigit b && isdigit c && isdigit d && negb (isspace a)
      && negb (isspace d)
  | _ => false
  end.

Definition two_digits (s : string) : bool :=
  match s with
  | String a (String b EmptyString) =>
      isdigit a && isdigit b && negb (isspace a) && negb (isspace b)
  | _ => false
  end.

End Text.

(** [date.isoformat()]: ["%04d-%02d-%02d" % (year, month, day)] *)
Definition isoformat (d : date) : string :=
  (Text.format_d 4 (Cal.year d) ++ "-" ++ Text.format_d 2 (Cal.month d)
   ++ "-" ++ Text.format_d 2 (Cal.day d))%string.

(** ** The regular expressions of [_strptime]

    The fragment the date directives are written in, matched the way
    [re.match] does: at the start of the text, alternatives in the order
    they are written, going back to the next alternative when what
    follows fails.  The patterns are compiled with IGNORECASE, which
    changes nothing for digits, [-], [/] and the space. *)

Module Re.

Inductive re : Type :=
| Eps                              (* the empty pattern *)
| Chr (c : ascii)                  (* a literal character *)
| Rng (lo hi : ascii)              (* [lo-hi] *)
| Dgt                              (* \d *)
| Seq (a b : re)                   (* ab *)
| Alt (a b : re)                   (* a|b *)
| Grp (name : string) (a : re).    (* (?P<name>a) *)

(** The groups matched so far, the latest first. *)
Definition groups : Type := list (string * string).

(** What of [s] was read when [rest] is left. *)
Definition consumed (s rest : string) : string :=
  substring 0 (String.length s - String.length rest) s.

Fixpoint run {A : Type} (r : re) (s : string) (g : groups)
    (k : string -> groups -> option A) : option A :=
  match r with
  | Eps => k s g
  | Chr c =>
      match s with
      | String x s' => if Ascii.eqb x c then k s' g else None
      | EmptyString => None
      end
  | Rng lo hi =>
      match s with
      | String x s' =>
          if (Text.code lo <=? Text.code x) && (Text.code x <=? Text.code hi)
          then k s' g else None
      | EmptyString => None
      end
  | Dgt =>
      match s with
      | String x s' => if Text.isdigit x then k s' g else None
      | EmptyString => None
      end
  | Seq a b => run a s g (fun s' g' => run b s' g' k)
  | Alt a b =>
      match run a s g k with
      | Some v => Some v
      | None => run b s g k
      end
  | Grp name a => run a s g (fun s' g' => k s' ((name, consumed s s') :: g'))
  end.

(** [re.match(pattern, text)]: the text left after the match
    ([text[found.end():]]) and the groups ([found.groupdict()]). *)
Definition match_ (r : re) (text : string) : option (string * groups) :=
  run r text [] (fun rest g => Some (rest, g)).

Fixpoint group (g : groups) (name : string) : option string :=
  match g with
  | [] => None
  | (n, v) :: g' => if String.eqb n name then Some v else group g' name
  end.

(** The longest text a pattern can read. *)
Fixpoint maxlen (r : re) : nat :=
  match r with
  | Eps => 0
  | Chr _ | Rng _ _ | Dgt => 1
  | Seq a b => maxlen a + maxlen b
  | Alt a b => Nat.max (maxlen a) (maxlen b)
  | Grp _ a => maxlen a
  end.

(** No group of the pattern reads more than four characters. *)
Fixpoint short_groups (r : re) : bool :=
  match r with
  | Eps | Chr _ | Rng _ _ | Dgt => true
  | Seq a b | Alt a b => short_groups a && short_groups b
  | Grp _ a => (maxlen a <=? 4)%nat && short_groups a
  end.

(** The texts of the groups are of four characters at most. *)
Definition short_texts (g : groups) : Prop :=
  Forall (fun nv => (String.length (snd nv) <= 4)%nat) g.

End Re.

(** ** [datetime.strptime(text, format).date()]

    The directives the formats of [parse_date] use, with the regular
    expressions [_strptime.TimeRE] gives them:
    [%d] = [(?P<d>3[0-1]|[1-2]\d|0[1-9]|[1-9]| [1-9])],
    [%m] = [(?P<m>1[0-2]|0[1-9]|[1-9])], [%y] = [(?P<y>\d\d)],
    [%Y] = [(?P<Y>\d\d\d\d)]. *)

Inductive directive : Type := dir_d | dir_m | dir_y | dir_Y.

Inductive format_item : Type :=
| Directive (d : directive)
| Literal (c : ascii).

Definition directive_re (d : directive) : Re.re :=
  match d with
  | dir_d =>
      Re.Grp "d"
        (Re.Alt (Re.Seq (Re.Chr "3") (Re.Rng "0" "1"))
        (Re.Alt (Re.Seq (Re.Rng "1" "2") Re.Dgt)
        (Re.Alt (Re.Seq (Re.Chr "0") (Re.Rng "1" "9"))
        (Re.Alt (Re.Rng "1" "9")
                (Re.Seq (Re.Chr " ") (Re.Rng "1" "9"))))))
  | dir_m =>
      Re.Grp "m"
        (Re.Alt (Re.Seq (Re.Chr "1") (Re.Rng "0" "2"))
        (Re.Alt (Re.Seq (Re.Chr "0") (Re.Rng "1" "9"))
                (Re.Rng "1" "9")))
  | dir_y => Re.Grp "y" (Re.Seq Re.Dgt Re.Dgt)
  | dir_Y => Re.Grp "Y" (Re.Seq Re.Dgt (Re.Seq Re.Dgt (Re.Seq Re.Dgt Re.Dgt)))
  end.

(** [TimeRE.pattern(format)] *)
Fixpoint pattern (format : list format_item) : Re.re :=
  match format with
  | [] => Re.Eps
  | Directive d :: format' => Re.Seq (directive_re d) (pattern format')
  | Literal c :: format' => Re.Seq (Re.Chr c) (pattern format')
  end.

(** [_strptime]: the text must match the pattern of the format and
    leave nothing over; a two-digit year up to 68 is of this century's,
    from 69 of the last; the date is then built by [date], which
    rejects what the calendar does not have.  Every failure is a
    ValueError. *)
Definition strptime_date (data_string : string) (format : list format_item)
    : result date :=
  match Re.match_ (pattern format) data_string with
  | None => Raise ValueError
  | Some (rest, found) =>
      if negb (String.eqb rest EmptyString) then Raise ValueError
      else
        let year :=
          match Re.group found "Y", Re.group found "y" with
          | Some text, _ => Text.int_of_group text
          | None, Some text =>
              let y := Text.int_of_group text in
              if y <=? 68 then y + 2000 else y + 1900
          | None, None => 1900
          end in
        let month :=
          match Re.group found "m" with
          | Some text => Text.int_of_group text
          | None => 1
          end in
        let day :=
          match Re.group found "d" with
          | Some text => Text.int_of_group text
          | None => 1
          end in
        Cal.date_new year month day
  end.

(** The formats ["%Y-%m-%d"], ["%m/%d/%Y"] and ["%m/%d/%y"]. *)
Definition format_iso : list format_item :=
  [Directive dir_Y; Literal "-"; Directive dir_m; Literal "-"; Directive dir_d].

Definition format_us : list format_item :=
  [Directive dir_m; Literal "/"; Directive dir_d; Literal "/"; Directive dir_Y].

Definition format_us_short : list format_item :=
  [Directive dir_m; Literal "/"; Directive dir_d; Literal "/"; Directive dir_y].

(** [parse_date] (app.py 45-52, app_par_actual.py 46-53): the formats in
    turn, the first that parses wins; ValueError when none does. *)
Fixpoint try_formats (value : string) (formats : list (list format_item))
    : result date :=
  match formats with
  | [] => Raise ValueError
  | fmt :: formats' =>
      match strptime_date value fmt with
      | Ok d => Ok d
      | Raise ValueError => try_formats value formats'
      | Raise e => Raise e
      end
  end.

Definition parse_date (value : string) : result date :=
  let value := Text.strip value in
  try_formats value [format_iso; format_us; format_us_short].

(** The text of a month or a day: with or without the leading zero. *)
Definition field_text (n : Z) (text : string) : Prop :=
  text = Text.format_d 2 n \/ text = Text.format_d 1 n.

(** What may follow a month or a day in the formats: the end of the
    text or a separator. *)
Definition after_field (rest : string) : Prop :=
  rest = EmptyString
  \/ (exists r, rest = String "-" r) \/ (exists r, rest = String "/" r).

(** ** Reading a sheet

    A cell value as [as_text] (in [load_loans], app.py 241-246,
    app_par_actual.py 237-242) tells them apart: a [datetime], a [date],
    and text. *)
Inductive cell : Type :=
| cell_datetime (d : date) (hour minute second microsecond : Z)
| cell_date (d : date)
| cell_str (s : string).

Definition as_text (value : cell) : string :=
  match value with
  | cell_datetime d _ _ _ _ => isoformat d
  | cell_date d => isoformat d
  | cell_str s => Text.strip s
  end.

(** ** Python dictionaries with text keys

    A [dict] keeps its keys in the order they were first set, which is
    the order [items()] walks them in; setting a key that is there
    replaces its value in place. *)

Module PyDict.

Definition dict (V : Type) : Type := list (string * V).

Fixpoint get {V : Type} (d : dict V) (key : string) : option V :=
  match d with
  | [] => None
  | (k, v) :: d' => if String.eqb k key then Some v else get d' key
  end.

(** [key in d] *)
Definition contains {V : Type} (d : dict V) (key : string) : bool :=
  match get d key with
  | Some _ => true
  | None => false
  end.

(** [d[key] = value] *)
Fixpoint set {V : Type} (d : dict V) (key : string) (value : V) : dict V :=
  match d with
  | [] => [(key, value)]
  | (k, v) :: d' =>
      if String.eqb k key then (k, value) :: d' else (k, v) :: set d' key value
  end.

Definition keys {V : Type} (d : dict V) : list string := map fst d.

End PyDict.

(** ** The header row of the sheet ([load_loans], app.py 231-237,
    app_par_actual.py 227-233)

    A header cell is [None] or has a text ([str(value)]). *)

Inductive lookup_error : Type :=
| KeyError (key : string)
| IndexError.

(** [[str(value).strip() if value is not None else "" for value in header_row]] *)
Definition headers_of (header_row : list (option string)) : list string :=
  map (fun value => match value with
                    | Some text => Text.strip text
                    | None => EmptyString
                    end) header_row.

Fixpoint enumerate_from {A : Type} (start : nat) (l : list A) : list (nat * A) :=
  match l with
  | [] => []
  | x :: l' => (start, x) :: enumerate_from (S start) l'
  end.

(** [{name: idx for idx, name in enumerate(headers)}] *)
Definition header_index (headers : list string) : PyDict.dict nat :=
  fold_left (fun index '(idx, name) => PyDict.set index name idx)
            (enumerate_from 0 headers) [].

(** [cell_value]: [column_map[key]], [header_index[column_name]],
    [row_values[index]], each of which can fail. *)
Definition cell_value {C : Type} (column_map : PyDict.dict string)
    (index_of : PyDict.dict nat) (row_values : list C) (key : string)
    : lookup_error + C :=
  match PyDict.get column_map key with
  | None => inl (KeyError key)
  | Some column_name =>
      match PyDict.get index_of column_name with
      | None => inl (KeyError column_name)
      | Some index =>
          match nth_error row_values index with
          | None => inl IndexError
          | Some value => inr value
          end
      end
  end.

Definition COLUMN_NAME_MAP : PyDict.dict string :=
  [("loan_number", "loan_number"); ("periods_months", "periods_months");
   ("projected_close_date", "projected_close_date");
   ("interest_start_date", "interest_start_date");
   ("first_payment_date", "first_payment_date"); ("cycle_day", "cycle_day");
   ("annual_rate_percent", "annual_rate_percent");
   ("loan_amount", "loan_amount"); ("monthly_payment", "monthly_payment")]%string.

(** ** [main]: the schedules of all loans, one after the other
    (app.py 432-447, app_par_actual.py 460-475) *)

Fixpoint main_loop (e : engine) (all_rows : list ScheduleRow)
    (loans : list LoanTerms) : result (list ScheduleRow) :=
  match loans with
  | [] => Ok all_rows
  | loan :: loans' =>
      rows <- build_schedule_of e loan ;;
      main_loop e (all_rows ++ rows) loans'
  end.

Definition main_rows (e : engine) (loans : list LoanTerms)
    : result (list ScheduleRow) :=
  main_loop e [] loans.

(** ** The sheet of first and final rows
    ([export_final_rows_excel], app.py 337-429, app_par_actual.py
    272-375) *)

(** What goes into a cell: nothing, a text, a date, an integer, or the
    float made from a decimal ([float(value)], kept here as the decimal
    it is made from). *)
Inductive xl : Type :=
| xl_none
| xl_text (s : string)
| xl_date (d : date)
| xl_int (n : Z)
| xl_float (v : Decimal).

Definition date_cell (value : option date) : xl :=
  match value with Some d => xl_date d | None => xl_none end.

Definition int_cell (value : option Z) : xl :=
  match value with Some n => xl_int n | None => xl_none end.

Definition to_float (value : option Decimal) : xl :=
  match value with Some v => xl_float v | None => xl_none end.

Record summary : Type := mkSummary {
  first_payment_by_loan : PyDict.dict ScheduleRow;
  final_by_loan : PyDict.dict ScheduleRow
}.

(** The body of [for row in rows] in [app.py]. *)
Definition summary_step (s : summary) (row : ScheduleRow) : summary :=
  let final := PyDict.set (final_by_loan s) (loan_number row) row in
  let first :=
    if (period row =? 1)
       && negb (PyDict.contains (first_payment_by_loan s) (loan_number row))
    then PyDict.set (first_payment_by_loan s) (loan_number row) row
    else first_payment_by_loan s in
  mkSummary first final.

Definition summarise (rows : list ScheduleRow) : summary :=
  fold_left summary_step rows (mkSummary [] []).

(** The twenty cells of one line. *)
Definition final_rows_line (loan_number : string)
    (first_row : option ScheduleRow) (final_row : ScheduleRow) : list xl :=
  let first (f : ScheduleRow -> xl) : xl :=
    match first_row with Some r => f r | None => xl_none end in
  [ xl_text loan_number;
    first (fun r => date_cell (payment_date r));
    first (fun r => int_cell (days r));
    first (fun r => date_cell (projected_close_date r));
    first (fun r => to_float (Some (beginning_balance r)));
    first (fun r => to_float (daily_interest r));
    first (fun r => to_float (interest r));
    first (fun r => to_float (payment r));
    first (fun r => to_float (principal r));
    first (fun r => to_float (extra_interest r));
    first (fun r => to_float (Some (ending_balance r)));
    date_cell (payment_date final_row);
    int_cell (days final_row);
    to_float (Some (beginning_balance final_row));
    to_float (daily_interest final_row);
    to_float (interest final_row);
    to_float (payment final_row);
    to_float (principal final_row);
    to_float (extra_interest final_row);
    to_float (Some (ending_balance final_row)) ].

Definition FINAL_ROWS_HEADERS : list string :=
  [ "Loan #"; "First Payment Date"; "First Payment Days"; "Projected Close Date";
    "First Begin Balance"; "First Daily Interest"; "First Interest";
    "First Payment"; "First Principal"; "First Extra Interest";
    "First End Balance"; "Final Payment Date"; "Final Payment Days";
    "Final Begin Balance"; "Final Daily Interest"; "Final Interest";
    "Final Payment"; "Final Principal"; "Final Extra Interest";
    "Final End Balance" ]%string.

(** The lines below the header, in [app.py]. *)
Definition final_rows_sheet (rows : list ScheduleRow) : list (list xl) :=
  let s := summarise rows in
  map (fun '(loan_number, final_row) =>
         final_rows_line loan_number
           (PyDict.get (first_payment_by_loan s) loan_number) final_row)
      (final_by_loan s).

(** In [app_par_actual.py] the loop also adds up the interest of the
    payment rows of each loan, and a line ends with that total. *)
Definition total_step (totals : PyDict.dict Decimal) (row : ScheduleRow)
    : result (PyDict.dict Decimal) :=
  if period row >? 0 then
    match interest row with
    | Some i =>
        let totals :=
          if negb (PyDict.contains totals (loan_number row))
          then PyDict.set totals (loan_number row) Dec.zero
          else totals in
        match PyDict.get totals (loan_number row) with
        | Some so_far =>
            total <- Dec.add so_far i ;;
            Ok (PyDict.set totals (loan_number row) total)
        | None => Ok totals
        end
    | None => Ok totals
    end
  else Ok totals.

Fixpoint summarise_with_totals (s : summary) (totals : PyDict.dict Decimal)
    (rows : list ScheduleRow) : result (summary * PyDict.dict Decimal) :=
  match rows with
  | [] => Ok (s, totals)
  | row :: rows' =>
      let s' := summary_step s row in
      totals' <- total_step totals row ;;
      summarise_with_totals s' totals' rows'
  end.

(** [total_interest_by_loan.get(loan_number, Decimal("0.00"))] *)
Definition total_interest (totals : PyDict.dict Decimal) (loan_number : string)
    : Decimal :=
  match PyDict.get totals loan_number with
  | Some total => total
  | None => Dec.zero
  end.

Definition final_rows_sheet_with_totals (rows : list ScheduleRow)
    : result (list (list xl)) :=
  st <- summarise_with_totals (mkSummary [] []) [] rows ;;
  let '(s, totals) := st in
  Ok (map (fun '(loan_number, final_row) =>
             final_rows_line loan_number
               (PyDict.get (first_payment_by_loan s) loan_number) final_row
             ++ [to_float (Some (total_interest totals loan_number))])
          (final_by_loan s)).

(** The cell of a line under a header. *)
Fixpoint column (headers : list string) (name : string) (line : list xl)
    : option xl :=
  match headers, line with
  | h :: headers', c :: line' =>
      if String.eqb h name then Some c else column headers' name line'
  | _, _ => None
  end.

(** The names of a list, each kept where it first appears. *)
Fixpoint first_occurrences (names : list string) : list string :=
  match names with
  | [] => []
  | n :: names' =>
      n :: filter (fun x => negb (String.eqb x n)) (first_occurrences names')
  end.

(** Decimals added one after the other under the context. *)
Fixpoint add_all (so_far : Decimal) (values : list Decimal) : result Decimal :=
  match values with
  | [] => Ok so_far
  | v :: values' => total <- Dec.add so_far v ;; add_all total values'
  end.

(** The interest of the payment rows of a loan, in the order of the rows. *)
Definition interest_paid (loan : string) (rows : list ScheduleRow) : list Decimal :=
  flat_map (fun r =>
              if String.eqb (loan_number r) loan && (period r >? 0)
              then match interest r with Some i => [i] | None => [] end
              else []) rows.

(** Whether a name is among the names [ks]. *)
Definition name_in (ks : list string) (x : string) : bool :=
  existsb (String.eqb x) ks.

(** The lines of a sheet that was written; none when the export raised. *)
Definition sheet_of (r : result (list (list xl))) : list (list xl) :=
  match r with
  | Ok sheet => sheet
  | Raise _ => []
  end.

(** ** Sample inputs

    Two loans with numbers of their own, and a header row in which
    [cycle_day] comes twice and one cell is empty. *)
Definition sample_loans : list LoanTerms := [sample_loan; sample_mortgage].

Definition sample_header_row : list (option string) :=
  [Some "loan_number"; Some " cycle_day "; None; Some "loan_amount";
   Some "cycle_day"]%string.

Definition sample_row_values : list string :=
  ["L1"; "15"; ""; "100000.00"; "31"]%string.

(** * Properties *)

(** ** The error monad *)

Lemma bind_Ok {A B : Type} (m : result A) (k : A -> result B) (b : B) :
  bind m k = Ok b -> exists a, m = Ok a /\ k a = Ok b.
Proof.
  destruct m as [a|e]; simpl; intros H; [exists a; auto | discriminate].
Qed.

Lemma bind_Raise {A B : Type} (m : result A) (k : A -> result B) (e : exn) :
  bind m k = Raise e -> m = Raise e \/ exists a, m = Ok a /\ k a = Raise e.
Proof.
  destruct m as [a|e']; simpl; intros H.
  - right. exists a. split; [reflexivity | exact H].
  - left. injection H as ->. reflexivity.
Qed.

(** Splits the first bind of a hypothesis [bind m k = Ok _]. *)
Ltac bind_inv H :=
  let a := fresh "v" in
  let Ha := fresh "E" in
  apply bind_Ok in H; destruct H as (a & Ha & H).

Ltac bool_to_Z :=
  repeat match goal with
  | H : _ && _ = true |- _ => apply andb_true_iff in H; destruct H
  | H : _ && _ = false |- _ => apply andb_false_iff in H
  | H : (_ <=? _) = true |- _ => apply Z.leb_le in H
  | H : (_ <=? _) = false |- _ => apply Z.leb_gt in H
  | H : (_ <? _) = true |- _ => apply Z.ltb_lt in H
  | H : (_ <? _) = false |- _ => apply Z.ltb_ge in H
  | H : (_ >? _) = true |- _ => rewrite Z.gtb_ltb in H
  | H : (_ >? _) = false |- _ => rewrite Z.gtb_ltb in H
  | H : (_ >=? _) = true |- _ => rewrite Z.geb_leb in H
  | H : (_ >=? _) = false |- _ => rewrite Z.geb_leb in H
  | H : (_ =? _) = true |- _ => apply Z.eqb_eq in H
  | H : (_ =? _) = false |- _ => apply Z.eqb_neq in H
  end.

(** ** The calendar *)

Module CalFacts.
Import Cal.

Lemma target_month_range (b : date) (m : Z) : 1 <= target_month b m <= 12.
Proof.
  unfold target_month.
  pose proof (Z.mod_pos_bound (month b - 1 + m) 12 ltac:(lia)). lia.
Qed.

Lemma month_cases (m : Z) :
  1 <= m <= 12 ->
  m = 1 \/ m = 2 \/ m = 3 \/ m = 4 \/ m = 5 \/ m = 6 \/
  m = 7 \/ m = 8 \/ m = 9 \/ m = 10 \/ m = 11 \/ m = 12.
Proof. lia. Qed.

Lemma days_in_month_range (y m : Z) :
  1 <= m <= 12 -> 28 <= days_in_month y m <= 31.
Proof.
  intros Hm. unfold days_in_month.
  destruct (month_cases m Hm) as [H|[H|[H|[H|[H|[H|[H|[H|[H|[H|[H|H]]]]]]]]]]];
    subst m; simpl; try lia.
  destruct (isleap y); lia.
Qed.

Lemma february (y : Z) : days_in_month y 2 = if isleap y then 29 else 28.
Proof. unfold days_in_month. simpl. destruct (isleap y); reflexivity. Qed.

Lemma monthrange_target (b : date) (m : Z) :
  monthrange (target_year b m) (target_month b m)
  = Ok (days_in_month (target_year b m) (target_month b m)).
Proof.
  unfold monthrange. pose proof (target_month_range b m) as H.
  destruct (1 <=? target_month b m) eqn:E1; bool_to_Z; try lia.
  destruct (target_month b m <=? 12) eqn:E2; bool_to_Z; try lia.
  reflexivity.
Qed.

Lemma valid_date_iff (d : date) :
  valid_date d = true <->
  MINYEAR <= year d <= MAXYEAR /\ 1 <= month d <= 12
  /\ 1 <= day d <= days_in_month (year d) (month d).
Proof.
  unfold valid_date. rewrite !andb_true_iff, !Z.leb_le. tauto.
Qed.

Lemma fits_c_int_iff (n : Z) : fits_c_int n = true <-> - 2 ^ 31 <= n < 2 ^ 31.
Proof. unfold fits_c_int. rewrite andb_true_iff, Z.leb_le, Z.ltb_lt. tauto. Qed.

(** The fields of a date of the calendar fit a C int. *)
Lemma valid_date_fits (y m d : Z) :
  valid_date (mk_date y m d) = true ->
  fits_c_int y && fits_c_int m && fits_c_int d = true.
Proof.
  intros H. apply valid_date_iff in H. cbn in H. destruct H as (Hy & Hm & Hd).
  pose proof (days_in_month_range y m Hm). unfold MINYEAR, MAXYEAR in Hy.
  rewrite !andb_true_iff, !fits_c_int_iff. lia.
Qed.

Lemma date_new_returns (y m d : Z) :
  valid_date (mk_date y m d) = true -> date_new y m d = Ok (mk_date y m d).
Proof.
  intros H. unfold date_new. rewrite (valid_date_fits y m d H), H. reflexivity.
Qed.

Lemma date_new_Ok (y m d : Z) (x : date) :
  date_new y m d = Ok x -> x = mk_date y m d /\ valid_date x = true.
Proof.
  unfold date_new. destruct (negb (fits_c_int y && fits_c_int m && fits_c_int d));
    [discriminate|].
  destruct (valid_date (mk_date y m d)) eqn:E; intros H.
  - injection H as <-. auto.
  - discriminate.
Qed.

Lemma date_new_Raise (y m d : Z) (e : exn) :
  date_new y m d = Raise e ->
  valid_date (mk_date y m d) = false
  /\ e = (if fits_c_int y && fits_c_int m && fits_c_int d
          then ValueError else OverflowError).
Proof.
  unfold date_new.
  destruct (fits_c_int y && fits_c_int m && fits_c_int d) eqn:F; cbn [negb].
  - destruct (valid_date (mk_date y m d)) eqn:E; intros H.
    + discriminate.
    + injection H as <-. auto.
  - intros H. injection H as <-. split; [|reflexivity].
    destruct (valid_date (mk_date y m d)) eqn:E; [|reflexivity].
    rewrite (valid_date_fits y m d E) in F. discriminate.
Qed.

(** What the resolver hands to [date]: a month of the calendar and a
    day that is at most the month's last, so only the year and a cycle
    day far below zero can fail to fit. *)
Lemma resolver_args_fit (y m cd : Z) :
  1 <= m <= 12 ->
  fits_c_int y && fits_c_int m && fits_c_int (Z.min cd (days_in_month y m))
  = fits_c_int y && (- 2 ^ 31 <=? cd).
Proof.
  intros Hm. pose proof (days_in_month_range y m Hm) as Hd.
  assert (Fm : fits_c_int m = true) by (apply fits_c_int_iff; lia).
  rewrite Fm, andb_true_r. f_equal. unfold fits_c_int.
  destruct (- 2 ^ 31 <=? cd) eqn:E; bool_to_Z.
  - apply andb_true_iff. rewrite Z.leb_le, Z.ltb_lt. lia.
  - apply andb_false_iff. left. apply Z.leb_gt. lia.
Qed.

End CalFacts.

(** [add_months] written out on the target year and month. *)
Lemma add_months_unfold (b : date) (m cd : Z) :
  add_months b m cd =
  Cal.date_new (target_year b m) (target_month b m)
    (Z.min cd (Cal.days_in_month (target_year b m) (target_month b m))).
Proof.
  unfold add_months. fold (target_year b m). fold (target_month b m).
  rewrite CalFacts.monthrange_target. reflexivity.
Qed.

Lemma add_months_returns (b : date) (m cd : Z) :
  1 <= cd -> Cal.MINYEAR <= target_year b m <= Cal.MAXYEAR ->
  add_months b m cd =
  Ok (Cal.mk_date (target_year b m) (target_month b m)
        (Z.min cd (Cal.days_in_month (target_year b m) (target_month b m)))).
Proof.
  intros Hcd Hy. rewrite add_months_unfold. apply CalFacts.date_new_returns.
  apply CalFacts.valid_date_iff. simpl.
  pose proof (CalFacts.target_month_range b m) as Hm.
  pose proof (CalFacts.days_in_month_range (target_year b m) _ Hm). lia.
Qed.

(** The exception of a date the resolver cannot make. *)
Lemma add_months_raises (b : date) (m cd : Z) :
  cd < 1 \/ target_year b m < Cal.MINYEAR \/ Cal.MAXYEAR < target_year b m ->
  add_months b m cd
  = Raise (if Cal.fits_c_int (target_year b m) && (- 2 ^ 31 <=? cd)
           then ValueError else OverflowError).
Proof.
  intros H. rewrite add_months_unfold.
  rewrite <- (CalFacts.resolver_args_fit _ _ cd (CalFacts.target_month_range b m)).
  destruct (Cal.date_new (target_year b m) (target_month b m)
              (Z.min cd (Cal.days_in_month (target_year b m) (target_month b m))))
    as [d|e] eqn:E.
  - exfalso. apply CalFacts.date_new_Ok in E. destruct E as [-> Hv].
    apply CalFacts.valid_date_iff in Hv. simpl in Hv. lia.
  - apply CalFacts.date_new_Raise in E. destruct E as [_ ->]. reflexivity.
Qed.

Lemma add_months_Ok (b : date) (m cd : Z) (d : date) :
  add_months b m cd = Ok d ->
  d = Cal.mk_date (target_year b m) (target_month b m)
        (Z.min cd (Cal.days_in_month (target_year b m) (target_month b m)))
  /\ Cal.valid_date d = true.
Proof.
  rewrite add_months_unfold. apply CalFacts.date_new_Ok.
Qed.

Lemma add_months_Raise (b : date) (m cd : Z) (e : exn) :
  add_months b m cd = Raise e ->
  (cd < 1 \/ target_year b m < Cal.MINYEAR \/ Cal.MAXYEAR < target_year b m)
  /\ e = (if Cal.fits_c_int (target_year b m) && (- 2 ^ 31 <=? cd)
          then ValueError else OverflowError).
Proof.
  intros H.
  assert (Hf : cd < 1 \/ target_year b m < Cal.MINYEAR
               \/ Cal.MAXYEAR < target_year b m).
  { destruct (Z_lt_dec cd 1); [lia|].
    destruct (Z_lt_dec (target_year b m) Cal.MINYEAR); [lia|].
    destruct (Z_lt_dec Cal.MAXYEAR (target_year b m)); [lia|].
    rewrite add_months_returns in H by lia. discriminate. }
  split; [exact Hf|]. rewrite (add_months_raises b m cd Hf) in H.
  injection H as <-. reflexivity.
Qed.

(** ** Decimal arithmetic in the context *)

Module DecFacts.
Import Dec.

Ltac context_constants :=
  unfold Etop, Etiny, Emin, Emax, prec in *.

(** An amount in cents whose coefficient fits the precision is left as
    it is by the context. *)
Lemma fix_context_money (c : Z) :
  ndigits c <= prec -> fix_context (money c) = Ok (money c).
Proof.
  intros Hc. unfold fix_context, money. cbn [coef exp].
  destruct (c =? 0) eqn:E0; bool_to_Z.
  - subst c. reflexivity.
  - context_constants.
    destruct (ndigits c + -2 - 28 >? 999999 - 28 + 1) eqn:E1; bool_to_Z; [lia|].
    destruct (-2 <? Z.max (ndigits c + -2 - 28) (-999999 - 28 + 1)) eqn:E2;
      bool_to_Z; [lia|reflexivity].
Qed.

Lemma fix_context_Raise (d : Decimal) (e : exn) :
  fix_context d = Raise e -> e = Overflow.
Proof.
  unfold fix_context.
  repeat match goal with
         | |- context [if ?b then _ else _] => destruct b
         end; intros H; try discriminate; injection H as <-; reflexivity.
Qed.

(** Sums of amounts in cents are exact while they fit the precision. *)
Lemma add_money (a b : Z) :
  ndigits (a + b) <= prec -> add (money a) (money b) = Ok (money (a + b)).
Proof.
  intros H. unfold add, money. cbn [coef exp].
  rewrite Z.min_id, Z.sub_diag. cbn [Z.pow]. rewrite !Z.mul_1_r.
  apply (fix_context_money (a + b) H).
Qed.

Lemma sub_money (a b : Z) :
  ndigits (a - b) <= prec -> sub (money a) (money b) = Ok (money (a - b)).
Proof.
  intros H. unfold sub, neg. cbn [coef exp money].
  change (mk (- b) (-2)) with (money (- b)).
  replace (a - b) with (a + - b) in * by lia. apply add_money. exact H.
Qed.

(** Comparison with [Decimal("0.00")] reads the sign of the coefficient. *)
Lemma ltb_zero (a : Decimal) : ltb a zero = (coef a <? 0).
Proof.
  unfold ltb, cmp, zero. cbn [coef exp]. rewrite Z.mul_0_l.
  set (k := exp a - Z.min (exp a) (-2)).
  assert (Hk : 0 < 10 ^ k) by (apply Z.pow_pos_nonneg; lia).
  destruct (coef a * 10 ^ k ?= 0) eqn:E; symmetry.
  - apply Z.compare_eq in E. apply Z.ltb_ge. nia.
  - apply Z.ltb_lt. rewrite Z.compare_lt_iff in E. nia.
  - apply Z.ltb_ge. rewrite Z.compare_gt_iff in E. nia.
Qed.

Lemma round_half_up_nonneg (m k : Z) : 0 <= m -> 0 <= round_half_up m k.
Proof.
  intros Hm. unfold round_half_up.
  assert (0 <= m / 10 ^ k).
  { destruct (Z_le_dec 0 k).
    - apply Z.div_pos; [lia | apply Z.pow_pos_nonneg; lia].
    - rewrite Z.pow_neg_r by lia. rewrite Z.div_0_r. lia. }
  destruct (2 * (m mod 10 ^ k) >=? 10 ^ k); lia.
Qed.

(** What [rescale] does to the sign of the coefficient. *)
Lemma rescale_exp (a : Decimal) (e : Z) : exp (rescale a e) = e.
Proof.
  unfold rescale. destruct (coef a =? 0); [reflexivity|].
  destruct (exp a >=? e); reflexivity.
Qed.

Lemma rescale_sign (a : Decimal) (e : Z) :
  (0 <= coef a -> 0 <= coef (rescale a e))
  /\ (coef a <= 0 -> coef (rescale a e) <= 0).
Proof.
  unfold rescale. destruct (coef a =? 0) eqn:E0; [cbn; lia|].
  destruct (exp a >=? e) eqn:E1; cbn [coef].
  - bool_to_Z. assert (0 < 10 ^ (exp a - e)) by (apply Z.pow_pos_nonneg; lia).
    split; intros; nia.
  - pose proof (round_half_up_nonneg (Z.abs (coef a)) (e - exp a) (Z.abs_nonneg _)).
    split; intros; [destruct (Z.sgn_spec (coef a)) as [[? ->]|[[? ->]|[? ->]]]
                   |destruct (Z.sgn_spec (coef a)) as [[? ->]|[[? ->]|[? ->]]]]; lia.
Qed.

(** [quantize_money] returns an amount in cents of at most [prec]
    digits: the rescaled operand. *)
Lemma quantize_cent_Ok (a q : Decimal) :
  quantize a cent = Ok q ->
  q = money (coef (rescale a (-2))) /\ ndigits (coef q) <= prec.
Proof.
  unfold quantize. change (exp cent) with (-2).
  change (negb ((Etiny <=? -2) && (-2 <=? Emax))) with false. cbv iota.
  destruct (coef a =? 0) eqn:E0.
  - intros H. change (fix_context (mk 0 (-2))) with (Ok (money 0)) in H.
    injection H as <-. unfold rescale. rewrite E0.
    split; [reflexivity | vm_compute; discriminate].
  - destruct (adjusted a >? Emax); [discriminate|].
    destruct (adjusted a - -2 + 1 >? prec); [discriminate|].
    destruct (adjusted (rescale a (-2)) >? Emax); [discriminate|].
    destruct (ndigits (coef (rescale a (-2))) >? prec) eqn:E; [discriminate|].
    bool_to_Z.
    assert (Hr : rescale a (-2) = money (coef (rescale a (-2)))).
    { pose proof (rescale_exp a (-2)). destruct (rescale a (-2)) as [c x].
      cbn in *. subst x. reflexivity. }
    rewrite Hr at 1. rewrite fix_context_money by lia.
    intros H. injection H as <-. split; [reflexivity | cbn; lia].
Qed.

Lemma quantize_cent_Raise (a : Decimal) (e : exn) :
  quantize a cent = Raise e -> e = InvalidOperation \/ e = Overflow.
Proof.
  unfold quantize.
  repeat match goal with
         | |- context [if ?b then _ else _] => destruct b
         end; intros H;
    try (injection H as <-; left; reflexivity);
    right; eapply fix_context_Raise; exact H.
Qed.

Lemma quantize_cent_sign (a q : Decimal) :
  quantize a cent = Ok q ->
  exp q = -2 /\ (0 <= coef a -> 0 <= coef q) /\ (coef a <= 0 -> coef q <= 0).
Proof.
  intros H. apply quantize_cent_Ok in H. destruct H as [-> _].
  cbn [money coef exp]. split; [reflexivity|]. apply rescale_sign.
Qed.

(** Quantizing an amount that is already in cents changes nothing. *)
Lemma quantize_cent_money (c : Z) :
  ndigits c <= prec -> quantize (money c) cent = Ok (money c).
Proof.
  intros Hc.
  assert (Hr : rescale (money c) (-2) = money c).
  { unfold rescale, money. cbn [coef exp]. destruct (c =? 0) eqn:E; bool_to_Z.
    - subst c. reflexivity.
    - change (-2 >=? -2) with true. cbv iota.
      rewrite Z.sub_diag. cbn [Z.pow]. rewrite Z.mul_1_r. reflexivity. }
  unfold quantize. change (exp cent) with (-2).
  change (negb ((Etiny <=? -2) && (-2 <=? Emax))) with false. cbv iota.
  rewrite Hr. change (coef (money c)) with c.
  destruct (c =? 0) eqn:E0; bool_to_Z.
  - subst c. reflexivity.
  - unfold adjusted. change (coef (money c)) with c.
    change (exp (money c)) with (-2). context_constants.
    destruct (-2 + ndigits c - 1 >? 999999) eqn:E1; bool_to_Z; [lia|].
    destruct (-2 + ndigits c - 1 - -2 + 1 >? 28) eqn:E2; bool_to_Z; [lia|].
    destruct (ndigits c >? 28) eqn:E3; bool_to_Z; [lia|].
    apply (fix_context_money c). unfold prec. lia.
Qed.

Lemma ndigits_0 : ndigits 0 = 1.
Proof. reflexivity. Qed.

End DecFacts.

(** ** The loop and the relation that describes it *)

Lemma loop_body_Ok (t : LoanTerms) (extra : option Decimal)
    (st st' : loop_state) (p : Z) :
  loop_body t extra st p = Ok st' ->
  exists r d,
    period_row t extra (st_balance st) (st_previous_date st) p r d
    /\ st' = mkState (st_rows st ++ [r]) (ending_balance r) d.
Proof.
  unfold loop_body. intros H.
  do 9 (bind_inv H). injection H as <-.
  match goal with
  | |- context [mkState (_ ++ [?r]) _ ?d] => exists r, d
  end.
  split; [|reflexivity].
  econstructor; eassumption.
Qed.

Lemma period_row_loop_body (t : LoanTerms) (extra : option Decimal)
    (st : loop_state) (p : Z) (r : ScheduleRow) (d : date) :
  period_row t extra (st_balance st) (st_previous_date st) p r d ->
  loop_body t extra st p = Ok (mkState (st_rows st ++ [r]) (ending_balance r) d).
Proof.
  intros H. destruct H as [pd daily accrued int0 int1 pay0 pay1 princ eb
                              H1 H2 H3 H4 H5 H6 H7 H8 H9].
  unfold loop_body.
  rewrite H1; cbn [bind]. rewrite H2; cbn [bind]. rewrite H3; cbn [bind].
  rewrite H4; cbn [bind]. rewrite H5; cbn [bind]. rewrite H6; cbn [bind].
  rewrite H7; cbn [bind]. rewrite H8; cbn [bind]. rewrite H9; cbn [bind].
  reflexivity.
Qed.

Lemma run_loop_chain (t : LoanTerms) (extra : option Decimal) (ps : list Z) :
  forall st st',
    run_loop t extra st ps = Ok st' ->
    exists rs,
      st_rows st' = st_rows st ++ rs
      /\ schedule_chain t extra (st_balance st) (st_previous_date st) ps rs.
Proof.
  induction ps as [|p ps IH]; intros st st' H; cbn [run_loop] in H.
  - injection H as <-. exists []. rewrite app_nil_r. split; [reflexivity|constructor].
  - bind_inv H. apply loop_body_Ok in E. destruct E as (r & d & Hrow & ->).
    apply IH in H. destruct H as (rs & Hrows & Hchain). cbn in Hrows, Hchain.
    exists (r :: rs). split.
    + rewrite Hrows, <- app_assoc. reflexivity.
    + econstructor; eassumption.
Qed.

Lemma chain_run_loop (t : LoanTerms) (extra : option Decimal) (ps : list Z) :
  forall st rs,
    schedule_chain t extra (st_balance st) (st_previous_date st) ps rs ->
    exists st', run_loop t extra st ps = Ok st' /\ st_rows st' = st_rows st ++ rs.
Proof.
  induction ps as [|p ps IH]; intros st rs H; inversion H; subst; cbn [run_loop].
  - exists st. rewrite app_nil_r. auto.
  - match goal with
    | Hrow : period_row _ _ _ _ _ _ _ |- _ =>
        rewrite (period_row_loop_body _ _ st _ _ _ Hrow)
    end.
    cbn [bind].
    edestruct IH as (st' & Hrun & Hrows); [|exists st'; split; [exact Hrun|]].
    + cbn. eassumption.
    + rewrite Hrows. cbn. rewrite <- app_assoc. reflexivity.
Qed.

(** [range(1, n + 1)] *)
Lemma range1_nonpos (n : Z) : n <= 0 -> range1 n = [].
Proof.
  intros H. unfold range1. replace (Z.to_nat n) with 0%nat by lia. reflexivity.
Qed.

Lemma range1_length (n : Z) : length (range1 n) = Z.to_nat n.
Proof. unfold range1. rewrite length_map, length_seq. reflexivity. Qed.

Lemma range1_head (n : Z) :
  1 <= n -> exists ps, range1 n = 1 :: ps.
Proof.
  intros H. unfold range1. destruct (Z.to_nat n) as [|k] eqn:E; [lia|].
  cbn. eexists. reflexivity.
Qed.

Lemma range1_last (n : Z) :
  1 <= n -> range1 n = range1 (n - 1) ++ [n].
Proof.
  intros H. unfold range1.
  replace (Z.to_nat n) with (S (Z.to_nat (n - 1))) by lia.
  rewrite seq_S, map_app. cbn. do 2 f_equal. lia.
Qed.

Lemma range1_In (n p : Z) : In p (range1 n) <-> 1 <= p <= n.
Proof.
  unfold range1. rewrite in_map_iff. split.
  - intros (k & <- & Hk). apply in_seq in Hk. lia.
  - intros H. exists (Z.to_nat p). split; [lia|]. apply in_seq. lia.
Qed.

Lemma range1_nth (n : Z) (k : nat) :
  (k < Z.to_nat n)%nat -> nth_error (range1 n) k = Some (Z.of_nat (S k)).
Proof.
  intros H. unfold range1. rewrite nth_error_map.
  rewrite nth_error_seq. destruct (Nat.ltb_spec k (Z.to_nat n)); [|lia].
  reflexivity.
Qed.

(** ** Facts about the rows of a chain *)

Lemma period_row_fields (t : LoanTerms) (extra : option Decimal)
    (b : Decimal) (d : date) (p : Z) (r : ScheduleRow) (d' : date) :
  period_row t extra b d p r d' ->
  period r = p /\ beginning_balance r = b /\ payment_date r = Some d'
  /\ days r = Some (Cal.days_between d' d)
  /\ extra_interest r = None /\ projected_close_date r = None
  /\ loan_number r = t_loan_number t.
Proof. intros H. destruct H. cbn. repeat split. Qed.

Lemma chain_periods (t : LoanTerms) (extra : option Decimal) (ps : list Z) :
  forall b d rs, schedule_chain t extra b d ps rs -> map period rs = ps.
Proof.
  induction ps as [|p ps IH]; intros b d rs H; inversion H; subst; cbn.
  - reflexivity.
  - f_equal; [|eapply IH; eassumption].
    eapply period_row_fields; eassumption.
Qed.

Lemma chain_length (t : LoanTerms) (extra : option Decimal) (ps : list Z) :
  forall b d rs, schedule_chain t extra b d ps rs -> length rs = length ps.
Proof.
  intros b d rs H. apply chain_periods in H. rewrite <- H, length_map. reflexivity.
Qed.

Lemma chain_linked (t : LoanTerms) (extra : option Decimal) (ps : list Z) :
  forall b d rs, schedule_chain t extra b d ps rs -> linked b rs.
Proof.
  induction ps as [|p ps IH]; intros b d rs H; inversion H; subst; cbn.
  - exact I.
  - split; [eapply period_row_fields; eassumption | eapply IH; eassumption].
Qed.

Lemma chain_Forall (t : LoanTerms) (extra : option Decimal)
    (P : ScheduleRow -> Prop) :
  (forall b d p r d', period_row t extra b d p r d' -> P r) ->
  forall ps b d rs, schedule_chain t extra b d ps rs -> Forall P rs.
Proof.
  intros HP. induction ps as [|p ps IH]; intros b d rs H; inversion H; subst.
  - constructor.
  - constructor; [eapply HP; eassumption | eapply IH; eassumption].
Qed.

(** Splitting a chain at its last period. *)
Lemma chain_snoc (t : LoanTerms) (extra : option Decimal) (ps : list Z) (q : Z) :
  forall b d rs,
    schedule_chain t extra b d (ps ++ [q]) rs ->
    exists rs' r b' d' d'',
      rs = rs' ++ [r]
      /\ schedule_chain t extra b d ps rs'
      /\ period_row t extra b' d' q r d''
      /\ (b' = b \/ exists r', In r' rs' /\ b' = ending_balance r').
Proof.
  induction ps as [|p ps IH]; intros b d rs H; cbn in H; inversion H; subst.
  - match goal with Hc : schedule_chain _ _ _ _ [] _ |- _ => inversion Hc; subst end.
    exists [], r, b, d, d'. repeat split; [constructor | assumption | left; reflexivity].
  - match goal with Hc : schedule_chain _ _ _ _ (ps ++ [q]) _ |- _ =>
      apply IH in Hc; destruct Hc as (rs' & r0 & b' & e' & e'' & -> & Hc & Hrow & Hb)
    end.
    exists (r :: rs'), r0, b', e', e''. repeat split.
    + econstructor; eassumption.
    + assumption.
    + right. destruct Hb as [->|(r' & Hin & ->)].
      * exists r. split; [left; reflexivity | reflexivity].
      * exists r'. split; [right; assumption | reflexivity].
Qed.

(** ** Which exceptions the decimal steps can raise *)

Lemma add_Raise (a b : Decimal) (e : exn) : Dec.add a b = Raise e -> decimal_trap e.
Proof. intros H. right. eapply DecFacts.fix_context_Raise, H. Qed.

Lemma sub_Raise (a b : Decimal) (e : exn) : Dec.sub a b = Raise e -> decimal_trap e.
Proof. apply add_Raise. Qed.

Lemma mul_Raise (a b : Decimal) (e : exn) : Dec.mul a b = Raise e -> decimal_trap e.
Proof. intros H. right. eapply DecFacts.fix_context_Raise, H. Qed.

Lemma div_of_int_Raise (a : Decimal) (n : Z) (e : exn) :
  n <> 0 -> Dec.div a (Dec.of_int n) = Raise e -> decimal_trap e.
Proof.
  intros Hn. unfold Dec.div. cbn [Dec.of_int Dec.coef Dec.exp].
  destruct (n =? 0) eqn:E; bool_to_Z; [contradiction|].
  destruct (Dec.coef a =? 0).
  - intros H. right. eapply DecFacts.fix_context_Raise, H.
  - match goal with |- context [if ?b then _ else _] => destruct b end.
    + match goal with |- context [Dec.strip_zeros ?f ?q ?x ?i] =>
        destruct (Dec.strip_zeros f q x i) end.
      intros H. right. eapply DecFacts.fix_context_Raise, H.
    + intros H. right. eapply DecFacts.fix_context_Raise, H.
Qed.

Lemma quantize_money_Raise (a : Decimal) (e : exn) :
  quantize_money a = Raise e -> decimal_trap e.
Proof. apply DecFacts.quantize_cent_Raise. Qed.

(** Splits a hypothesis [bind m k = Raise _] into the step that raised. *)
Ltac raise_inv H :=
  let a := fresh "v" in
  let Ha := fresh "E" in
  apply bind_Raise in H; destruct H as [H|(a & Ha & H)].

Lemma daily_rate_amount_Raise (rate balance : Decimal) (e : exn) :
  daily_rate_amount rate balance = Raise e -> decimal_trap e.
Proof.
  unfold daily_rate_amount. intros H.
  raise_inv H; [eapply div_of_int_Raise; [|exact H]; lia|].
  raise_inv H; [eapply mul_Raise; exact H|].
  raise_inv H; [eapply div_of_int_Raise; [|exact H]; lia|].
  eapply quantize_money_Raise; exact H.
Qed.

Lemma fold_interest_Raise (extra : option Decimal) (p : Z) (i : Decimal) (e : exn) :
  fold_interest extra p i = Raise e -> decimal_trap e.
Proof.
  unfold fold_interest. destruct extra as [x|]; [|discriminate].
  destruct (p =? 1); [|discriminate]. intros H.
  raise_inv H; [eapply add_Raise; exact H | eapply quantize_money_Raise; exact H].
Qed.

Lemma nominal_payment_Raise (t : LoanTerms) (extra : option Decimal) (p : Z) (e : exn) :
  nominal_payment t extra p = Raise e -> decimal_trap e.
Proof.
  unfold nominal_payment. destruct extra as [x|]; [|discriminate].
  destruct (p =? 1); [|discriminate]. apply add_Raise.
Qed.

Lemma settle_payment_Raise (t : LoanTerms) (p : Z) (b i x : Decimal) (e : exn) :
  settle_payment t p b i x = Raise e -> decimal_trap e.
Proof.
  unfold settle_payment. destruct (p =? periods_months t); [apply add_Raise|].
  intros H. raise_inv H; [eapply add_Raise; exact H|].
  destruct (Dec.gtb x v); [eapply add_Raise; exact H | discriminate].
Qed.

Lemma close_balance_Raise (b x : Decimal) (e : exn) :
  close_balance b x = Raise e -> decimal_trap e.
Proof.
  unfold close_balance. intros H.
  raise_inv H; [eapply sub_Raise; exact H|].
  raise_inv H; [eapply quantize_money_Raise; exact H | discriminate].
Qed.

Lemma proration_Raise (t : LoanTerms) (start : date) (b : Decimal) (e : exn) :
  proration t start b = Raise e -> decimal_trap e.
Proof.
  unfold proration. destruct (t_projected_close_date t); [|discriminate].
  intros H.
  raise_inv H; [eapply daily_rate_amount_Raise; exact H|].
  raise_inv H; [eapply mul_Raise; exact H|].
  raise_inv H; [eapply quantize_money_Raise; exact H | discriminate].
Qed.

Lemma payment_date_of_Raise (t : LoanTerms) (p : Z) (e : exn) :
  payment_date_of t p = Raise e -> resolver_raises t p e.
Proof.
  unfold payment_date_of, resolver_raises, resolver_fails, resolver_overflows.
  destruct (p =? 1) eqn:E; [discriminate|]. bool_to_Z.
  intros H. apply add_months_Raise in H. destruct H as [Hf ->].
  split; [tauto|].
  destruct (Cal.fits_c_int (target_year (first_payment_date t) (p - 1))) eqn:F;
    [apply CalFacts.fits_c_int_iff in F
    |assert (F' : ~ (- 2 ^ 31 <= target_year (first_payment_date t) (p - 1) < 2 ^ 31))
       by (rewrite <- CalFacts.fits_c_int_iff; congruence)];
    destruct (- 2 ^ 31 <=? cycle_day t) eqn:C; bool_to_Z; cbn [andb];
    (split; [tauto|]); split; intros H; try discriminate; try reflexivity;
    try (split; [assumption | lia]); try (exfalso; lia).
Qed.

Lemma loop_body_Raise (t : LoanTerms) (extra : option Decimal)
    (st : loop_state) (p : Z) (e : exn) :
  loop_body t extra st p = Raise e ->
  decimal_trap e \/ resolver_raises t p e.
Proof.
  unfold loop_body. intros H.
  raise_inv H; [right; eapply payment_date_of_Raise; exact H|]. left.
  raise_inv H; [eapply daily_rate_amount_Raise; exact H|].
  raise_inv H; [eapply mul_Raise; exact H|].
  raise_inv H; [eapply quantize_money_Raise; exact H|].
  raise_inv H; [eapply fold_interest_Raise; exact H|].
  raise_inv H; [eapply nominal_payment_Raise; exact H|].
  raise_inv H; [eapply settle_payment_Raise; exact H|].
  raise_inv H; [eapply sub_Raise; exact H|].
  raise_inv H; [eapply close_balance_Raise; exact H | discriminate].
Qed.

Lemma run_loop_Raise (t : LoanTerms) (extra : option Decimal) (ps : list Z) :
  forall st e,
    run_loop t extra st ps = Raise e ->
    decimal_trap e \/ exists p, In p ps /\ resolver_raises t p e.
Proof.
  induction ps as [|p ps IH]; intros st e H; cbn [run_loop] in H; [discriminate|].
  raise_inv H.
  - apply loop_body_Raise in H. destruct H as [H|H]; [left; exact H|].
    right. exists p. split; [left; reflexivity | exact H].
  - apply IH in H. destruct H as [H|(q & Hq & H)]; [left; exact H|].
    right. exists q. split; [right; exact Hq | exact H].
Qed.

Lemma schedule_tail_Raise (t : LoanTerms) (start : date) (b : Decimal) (e : exn) :
  schedule_tail t start b = Raise e ->
  decimal_trap e
  \/ exists p, 2 <= p <= periods_months t /\ resolver_raises t p e.
Proof.
  unfold schedule_tail. intros H.
  raise_inv H; [left; eapply proration_Raise; exact H|].
  raise_inv H; [|discriminate].
  apply run_loop_Raise in H. destruct H as [H|(p & Hp & H)]; [left; exact H|].
  right. exists p. split; [|exact H].
  apply range1_In in Hp. destruct H as [[Hne _] _]. lia.
Qed.

(** ** What a returned schedule is made of *)

Lemma proration_Ok (t : LoanTerms) (start : date) (b : Decimal)
    (extra : option Decimal) :
  proration t start b = Ok extra ->
  match t_projected_close_date t with
  | None => extra = None
  | Some c =>
      exists daily prod x,
        daily_rate_amount (annual_rate_percent t) b = Ok daily
        /\ Dec.mul daily (Dec.of_int (Z.max 0 (Cal.days_between start c))) = Ok prod
        /\ quantize_money prod = Ok x
        /\ extra = Some x
  end.
Proof.
  unfold proration. destruct (t_projected_close_date t) as [c|].
  - intros H. do 3 (bind_inv H). injection H as <-.
    exists v, v0, v1. repeat split; try assumption.
    replace (Z.max 0 (Cal.days_between start c))
      with (if Cal.days_between start c <? 0 then 0 else Cal.days_between start c);
      [assumption|].
    destruct (Cal.days_between start c <? 0) eqn:Hneg; bool_to_Z; lia.
  - intros H. injection H as <-. reflexivity.
Qed.

Lemma schedule_tail_Ok (t : LoanTerms) (start : date) (b : Decimal)
    (rows : list ScheduleRow) :
  schedule_tail t start b = Ok rows ->
  exists extra rs,
    proration t start b = Ok extra
    /\ rows = set_extra_interest (row0 t start b) extra :: rs
    /\ schedule_chain t extra b start (range1 (periods_months t)) rs.
Proof.
  unfold schedule_tail. intros H. bind_inv H. bind_inv H. injection H as <-.
  apply run_loop_chain in E0. destruct E0 as (rs & Hrows & Hchain).
  cbn [st_rows st_balance st_previous_date] in Hrows, Hchain.
  exists v, rs. split; [assumption|]. split; [|assumption].
  rewrite Hrows. destruct v as [x|]; reflexivity.
Qed.

Lemma build_schedule_of_unfold (e : engine) (t : LoanTerms) :
  build_schedule_of e t =
  (balance <- quantize_money (loan_amount t) ;;
   start <- interest_start_of e t ;;
   schedule_tail t start balance).
Proof. destruct e; reflexivity. Qed.

Lemma build_schedule_of_Ok (e : engine) (t : LoanTerms) (rows : list ScheduleRow) :
  build_schedule_of e t = Ok rows ->
  exists b start extra rs,
    quantize_money (loan_amount t) = Ok b
    /\ interest_start_of e t = Ok start
    /\ proration t start b = Ok extra
    /\ rows = set_extra_interest (row0 t start b) extra :: rs
    /\ schedule_chain t extra b start (range1 (periods_months t)) rs.
Proof.
  rewrite build_schedule_of_unfold. intros H. bind_inv H. bind_inv H.
  apply schedule_tail_Ok in H. destruct H as (extra & rs & H1 & H2 & H3).
  exists v, v0, extra, rs. repeat split; assumption.
Qed.

(** ** Decimal results within bounds

    Upper bounds through the operations of the context: the number of
    digits of a coefficient, then rounding, division by a small integer
    and quantizing, none of which crosses a bound the precision can
    represent. *)

Module DecBounds.
Import Dec.

Lemma pow10_pos (k : Z) : 0 <= k -> 0 < 10 ^ k.
Proof. intros. apply Z.pow_pos_nonneg; lia. Qed.

Lemma pow10_succ (k : Z) : 0 <= k -> 10 ^ (k + 1) = 10 * 10 ^ k.
Proof. intros. rewrite Z.pow_add_r by lia. lia. Qed.

Lemma ndigits_fuel_spec (fuel : nat) :
  forall n, 0 < n -> n < 2 ^ (Z.of_nat fuel + 1) ->
    1 <= ndigits_fuel fuel n
    /\ 10 ^ (ndigits_fuel fuel n - 1) <= n < 10 ^ ndigits_fuel fuel n.
Proof.
  induction fuel as [|f IH]; intros n Hn Hlt.
  - cbn in *. lia.
  - cbn [ndigits_fuel]. destruct (n <? 10) eqn:E; bool_to_Z.
    + cbn. lia.
    + assert (H2 : 2 ^ (Z.of_nat (S f) + 1) = 2 * 2 ^ (Z.of_nat f + 1)).
      { replace (Z.of_nat (S f) + 1) with (Z.of_nat f + 1 + 1) by lia.
        rewrite Z.pow_add_r by lia. lia. }
      assert (Hq : 0 < n / 10) by (apply Z.div_str_pos; lia).
      assert (Hq2 : n / 10 < 2 ^ (Z.of_nat f + 1)).
      { apply Z.div_lt_upper_bound; lia. }
      destruct (IH (n / 10) Hq Hq2) as (H1 & Hlo & Hhi).
      set (d := ndigits_fuel f (n / 10)) in *.
      replace (1 + d - 1) with (d - 1 + 1) by lia.
      replace (1 + d) with (d + 1) by lia.
      rewrite !pow10_succ by lia.
      pose proof (Z.div_mod n 10 ltac:(lia)).
      pose proof (Z.mod_pos_bound n 10 ltac:(lia)).
      split; [lia|]. split; lia.
Qed.

Lemma ndigits_abs (c : Z) : ndigits (Z.abs c) = ndigits c.
Proof. unfold ndigits. rewrite Z.abs_idemp. reflexivity. Qed.

Lemma ndigits_bounds (c : Z) :
  c <> 0 ->
  1 <= ndigits c /\ 10 ^ (ndigits c - 1) <= Z.abs c < 10 ^ ndigits c.
Proof.
  intros Hc. unfold ndigits. apply ndigits_fuel_spec; [lia|].
  rewrite Z2Nat.id by apply Z.log2_nonneg.
  apply Z.log2_spec. lia.
Qed.

Lemma ndigits_pos (c : Z) : 1 <= ndigits c.
Proof.
  destruct (Z.eq_dec c 0) as [->|H]; [vm_compute; discriminate|].
  apply ndigits_bounds. exact H.
Qed.

Lemma ndigits_le_of_lt (c k : Z) : 1 <= k -> Z.abs c < 10 ^ k -> ndigits c <= k.
Proof.
  intros Hk Hc. destruct (Z.eq_dec c 0) as [->|H]; [change (ndigits 0) with 1; lia|].
  destruct (ndigits_bounds c H) as (H1 & Hlo & _).
  destruct (Z_le_dec (ndigits c) k) as [|Hgt]; [assumption|].
  exfalso. assert (10 ^ k <= 10 ^ (ndigits c - 1))
    by (apply Z.pow_le_mono_r; lia). lia.
Qed.

Lemma ndigits_lt_pow (c k : Z) : ndigits c <= k -> Z.abs c < 10 ^ k.
Proof.
  intros Hk. destruct (Z.eq_dec c 0) as [->|H].
  - cbn. apply pow10_pos. pose proof (ndigits_pos 0). lia.
  - destruct (ndigits_bounds c H) as (H1 & _ & Hhi).
    assert (10 ^ ndigits c <= 10 ^ k) by (apply Z.pow_le_mono_r; lia). lia.
Qed.

Lemma ndigits_eq (c k : Z) : 1 <= k -> 10 ^ (k - 1) <= Z.abs c < 10 ^ k -> ndigits c = k.
Proof.
  intros Hk [Hlo Hhi].
  assert (c <> 0).
  { intros ->. cbn in Hlo. pose proof (pow10_pos (k - 1) ltac:(lia)). lia. }
  pose proof (ndigits_le_of_lt c k Hk Hhi).
  destruct (ndigits_bounds c H) as (H1 & _ & Hhi').
  destruct (Z_le_dec k (ndigits c)) as [|Hgt]; [lia|].
  exfalso. assert (10 ^ ndigits c <= 10 ^ (k - 1))
    by (apply Z.pow_le_mono_r; lia). lia.
Qed.


Lemma round_half_even_range (c j : Z) :
  0 <= c -> 0 < j -> c / 10 ^ j <= round_half_even c j <= c / 10 ^ j + 1.
Proof.
  intros Hc Hj. unfold round_half_even.
  destruct ((2 * (c mod 10 ^ j) >? 10 ^ j)
            || ((2 * (c mod 10 ^ j) =? 10 ^ j) && Z.odd (c / 10 ^ j))); lia.
Qed.

Lemma round_half_even_le (c j N : Z) :
  0 <= c -> 0 < j -> c <= N * 10 ^ j -> round_half_even c j <= N.
Proof.
  intros Hc Hj Hle. pose proof (pow10_pos j ltac:(lia)) as Hp.
  pose proof (Z.div_mod c (10 ^ j) ltac:(lia)) as Hdm.
  pose proof (Z.mod_pos_bound c (10 ^ j) Hp) as Hr.
  unfold round_half_even.
  destruct (Z_lt_dec (c / 10 ^ j) N) as [Hlt|Hge].
  - destruct ((2 * (c mod 10 ^ j) >? 10 ^ j)
              || ((2 * (c mod 10 ^ j) =? 10 ^ j) && Z.odd (c / 10 ^ j))); lia.
  - assert (Hq : c / 10 ^ j = N) by nia.
    assert (Hr0 : c mod 10 ^ j = 0) by nia.
    rewrite Hr0, Hq.
    destruct (2 * 0 >? 10 ^ j) eqn:E1; bool_to_Z; [lia|].
    destruct (2 * 0 =? 10 ^ j) eqn:E2; bool_to_Z; [lia|].
    cbn. lia.
Qed.

Lemma round_half_up_le (c j N : Z) :
  0 <= c -> 0 < j -> c <= N * 10 ^ j -> round_half_up c j <= N.
Proof.
  intros Hc Hj Hle. pose proof (pow10_pos j ltac:(lia)) as Hp.
  pose proof (Z.div_mod c (10 ^ j) ltac:(lia)) as Hdm.
  pose proof (Z.mod_pos_bound c (10 ^ j) Hp) as Hr.
  unfold round_half_up.
  destruct (Z_lt_dec (c / 10 ^ j) N) as [Hlt|Hge].
  - destruct (2 * (c mod 10 ^ j) >=? 10 ^ j); lia.
  - assert (Hq : c / 10 ^ j = N) by nia.
    assert (Hr0 : c mod 10 ^ j = 0) by nia.
    rewrite Hr0, Hq.
    destruct (2 * 0 >=? 10 ^ j) eqn:E1; bool_to_Z; lia.
Qed.

(** Rounding to the precision never crosses a number the precision can
    represent. *)
Lemma fix_context_bound (lo : Z) (d : Decimal) (n k : Z) :
  0 <= coef d -> Etiny <= exp d <= Emax -> lo <= exp d -> lo <= k -> k <= Etop ->
  0 <= n -> ndigits n <= prec ->
  scaled lo d <= n * 10 ^ (k - lo) ->
  exists d',
    fix_context d = Ok d'
    /\ 0 <= coef d' /\ ndigits (coef d') <= prec
    /\ exp d <= exp d' <= Z.max (exp d) k
    /\ scaled lo d' <= n * 10 ^ (k - lo).
Proof.
  destruct d as [c e]. unfold scaled. cbn [coef exp].
  intros Hc He Hlo Hk Htop Hn Hnd Hle.
  unfold fix_context. cbn [coef exp].
  destruct (c =? 0) eqn:E0; bool_to_Z.
  - subst c. rewrite Z.max_l, Z.min_l by lia.
    eexists. split; [reflexivity|]. cbn [coef exp].
    repeat split; try lia. vm_compute; discriminate.
  - assert (Hcpos : 0 < c) by lia.
    destruct (ndigits_bounds c E0) as (H1 & Hclo & Hchi).
    rewrite Z.abs_eq in * by lia.
    set (nd := ndigits c) in *.
    pose proof (ndigits_lt_pow n prec Hnd) as Hn28. rewrite Z.abs_eq in Hn28 by lia.
    pose proof (pow10_pos (e - lo) ltac:(lia)) as Pe.
    pose proof (pow10_pos (k - lo) ltac:(lia)) as Pk.
    (* the adjusted exponent is below the bound's *)
    assert (Hadj : nd + e - prec <= k).
    { destruct (Z_le_dec (nd + e - prec) k) as [|Hgt]; [assumption|]. exfalso.
      assert (Hp : 10 ^ (prec + (k - lo)) <= 10 ^ (nd - 1 + (e - lo)))
        by (apply Z.pow_le_mono_r; unfold prec in *; lia).
      rewrite !Z.pow_add_r in Hp by (unfold prec in *; lia).
      assert (n * 10 ^ (k - lo) < 10 ^ prec * 10 ^ (k - lo)) by nia.
      assert (10 ^ (nd - 1) * 10 ^ (e - lo) <= c * 10 ^ (e - lo)) by nia.
      lia. }
    destruct (nd + e - prec >? Etop) eqn:E1; bool_to_Z; [lia|].
    destruct (Z_le_dec nd prec) as [Hfit|Hbig].
    + destruct (e <? Z.max (nd + e - prec) Etiny) eqn:E2; bool_to_Z; [lia|].
      eexists. split; [reflexivity|]. cbn [coef exp].
      repeat split; try lia.
    + set (j := nd - prec) in *. assert (Hj : 0 < j) by (unfold j; lia).
      replace (nd + e - prec) with (e + j) in * by (unfold j; lia).
      rewrite Z.max_l by lia.
      destruct (e <? e + j) eqn:E2; bool_to_Z; [|lia].
      replace (e + j - e) with j by lia.
      set (m := round_half_even c j).
      pose proof (pow10_pos j ltac:(lia)) as Pj.
      pose proof (round_half_even_range c j ltac:(lia) Hj) as Hm. fold m in Hm.
      assert (Hq : 10 ^ (prec - 1) <= c / 10 ^ j < 10 ^ prec).
      { replace (nd - 1) with (prec - 1 + j) in Hclo by (unfold j; lia).
        replace nd with (prec + j) in Hchi by (unfold j; lia).
        rewrite Z.pow_add_r in Hclo, Hchi by (unfold prec; lia).
        split.
        - apply Z.div_le_lower_bound; lia.
        - apply Z.div_lt_upper_bound; lia. }
      (* the bound is a multiple of the quantum of the result *)
      set (N' := n * 10 ^ (k - (e + j))).
      assert (Hsplit : 10 ^ (k - lo) = 10 ^ (k - (e + j)) * 10 ^ j * 10 ^ (e - lo)).
      { rewrite <- !Z.pow_add_r by lia. f_equal. lia. }
      assert (HcN : c <= N' * 10 ^ j).
      { unfold N'. rewrite Hsplit in Hle.
        apply (Z.mul_le_mono_pos_r _ _ (10 ^ (e - lo)) Pe). lia. }
      pose proof (round_half_even_le c j N' ltac:(lia) Hj HcN) as HmN. fold m in HmN.
      assert (Hval : m * 10 ^ (e + j - lo) <= n * 10 ^ (k - lo)).
      { rewrite Hsplit. replace (e + j - lo) with (j + (e - lo)) by lia.
        rewrite Z.pow_add_r by lia. unfold N' in HmN. nia. }
      rewrite Z.sgn_pos by lia. rewrite !Z.mul_1_l.
      destruct (Z_lt_dec m (10 ^ prec)) as [Hm28|Hm29].
      * assert (Hndm : ndigits m = prec).
        { apply ndigits_eq; [unfold prec; lia|]. rewrite Z.abs_eq by lia. lia. }
        rewrite Hndm. destruct (prec >? prec) eqn:E3; bool_to_Z; [lia|].
        destruct (e + j >? Etop) eqn:E4; bool_to_Z; [lia|].
        eexists. split; [reflexivity|]. cbn [coef exp].
        repeat split; try lia.
      * assert (Hmeq : m = 10 ^ prec) by lia.
        assert (Hndm : ndigits m = prec + 1).
        { apply ndigits_eq; [unfold prec; lia|]. rewrite Z.abs_eq by lia.
          rewrite Hmeq. replace (prec + 1 - 1) with prec by lia.
          split; [lia|]. apply Z.pow_lt_mono_r; unfold prec; lia. }
        rewrite Hndm. destruct (prec + 1 >? prec) eqn:E3; bool_to_Z; [|lia].
        assert (Hk1 : e + j + 1 <= k).
        { destruct (Z_le_dec (e + j + 1) k) as [|Hgt]; [assumption|]. exfalso.
          assert (k - (e + j) = 0) by lia.
          unfold N' in HmN. replace (k - (e + j)) with 0 in HmN by lia.
          cbn in HmN. lia. }
        destruct (e + j + 1 >? Etop) eqn:E4; bool_to_Z; [lia|].
        assert (Hdiv : m / 10 = 10 ^ (prec - 1)).
        { rewrite Hmeq. replace prec with (prec - 1 + 1) at 1 by lia.
          rewrite pow10_succ by (unfold prec; lia).
          rewrite Z.mul_comm, Z.div_mul by lia. reflexivity. }
        rewrite Hdiv.
        eexists. split; [reflexivity|]. cbn [coef exp].
        split; [apply Z.lt_le_incl, pow10_pos; unfold prec; lia|].
        split.
        { replace (ndigits (10 ^ (prec - 1))) with prec; [lia|].
          symmetry. apply ndigits_eq; [unfold prec; lia|].
          rewrite Z.abs_eq by (apply Z.lt_le_incl, pow10_pos; unfold prec; lia).
          split; [lia|]. apply Z.pow_lt_mono_r; unfold prec; lia. }
        split; [lia|].
        replace (e + j + 1 - lo) with (1 + (e + j - lo)) by lia.
        rewrite Z.pow_add_r by lia.
        replace (10 ^ (prec - 1) * (10 ^ 1 * 10 ^ (e + j - lo)))
          with (10 ^ prec * 10 ^ (e + j - lo)).
        { rewrite <- Hmeq. exact Hval. }
        { replace prec with (prec - 1 + 1) at 1 by lia.
          rewrite pow10_succ by (unfold prec; lia). ring. }
Qed.


Lemma strip_zeros_spec (fuel : nat) :
  forall q e ideal,
    0 <= q ->
    let '(q', e') := strip_zeros fuel q e ideal in
    0 <= q' /\ e <= e' <= Z.max e ideal /\ q = q' * 10 ^ (e' - e).
Proof.
  induction fuel as [|f IH]; intros q e ideal Hq; cbn [strip_zeros].
  - rewrite Z.sub_diag. cbn. lia.
  - destruct ((e <? ideal) && (q mod 10 =? 0)) eqn:E.
    + bool_to_Z.
      assert (Hq10 : 0 <= q / 10) by (apply Z.div_pos; lia).
      specialize (IH (q / 10) (e + 1) ideal Hq10).
      destruct (strip_zeros f (q / 10) (e + 1) ideal) as [q' e'].
      destruct IH as (H1 & H2 & H3).
      split; [exact H1|]. split; [lia|].
      replace (e' - e) with (e' - (e + 1) + 1) by lia.
      rewrite pow10_succ by lia.
      pose proof (Z.div_mod q 10 ltac:(lia)). lia.
    + rewrite Z.sub_diag. cbn. lia.
Qed.

(** Dividing by a small positive integer: the quotient, rounded, stays
    below any representable bound on the exact quotient. *)
Lemma div_of_int_bound (lo : Z) (a : Decimal) (n m k : Z) :
  0 <= coef a -> ndigits (coef a) <= prec ->
  0 < n < 1000 ->
  Etiny + 32 <= exp a <= Emax -> lo + 32 <= exp a -> lo <= k -> k <= Etop ->
  0 <= m -> ndigits m <= prec ->
  scaled lo a <= n * (m * 10 ^ (k - lo)) ->
  exists d',
    div a (of_int n) = Ok d'
    /\ 0 <= coef d' /\ ndigits (coef d') <= prec
    /\ exp a - 32 <= exp d' <= Z.max (exp a) k
    /\ scaled lo d' <= m * 10 ^ (k - lo).
Proof.
  destruct a as [ca ea]. unfold scaled. cbn [coef exp].
  intros Hca Hnda Hn He Hlo Hk Htop Hm Hndm Hle.
  unfold div. cbn [of_int coef exp].
  destruct (n =? 0) eqn:En; bool_to_Z; [lia|].
  rewrite Z.sub_0_r.
  destruct (ca =? 0) eqn:E0; bool_to_Z.
  - subst ca.
    destruct (fix_context_bound lo (mk 0 ea) m k) as (d' & Hd & H1 & H2 & H3 & H4);
      cbn [coef exp]; try lia.
    { unfold scaled. cbn [coef exp].
      pose proof (pow10_pos (k - lo) ltac:(lia)). nia. }
    exists d'. cbn [exp] in H3. repeat split; try assumption; lia.
  - assert (Hcpos : 0 < ca) by lia.
    destruct (ndigits_bounds ca E0) as (Hnda1 & Hclo & _).
    destruct (ndigits_bounds n En) as (Hndn1 & _ & Hnhi).
    assert (Hndn3 : ndigits n <= 3).
    { apply ndigits_le_of_lt; [lia|]. rewrite Z.abs_eq by lia. cbn. lia. }
    rewrite !Z.abs_eq in * by lia. rewrite !Z.sgn_pos by lia. rewrite !Z.mul_1_l.
    set (shift := ndigits n - ndigits ca + prec + 1).
    assert (Hshift : 2 <= shift <= 31) by (unfold shift, prec in *; lia).
    destruct (shift >=? 0) eqn:Es; bool_to_Z; [|lia].
    set (N0 := ca * 10 ^ shift).
    set (e := ea - shift).
    pose proof (pow10_pos shift ltac:(lia)) as Ps.
    pose proof (pow10_pos (e - lo) ltac:(unfold e; lia)) as Pe.
    pose proof (pow10_pos (k - lo) ltac:(lia)) as Pk.
    pose proof (Z.div_mod N0 n ltac:(lia)) as Hdm.
    pose proof (Z.mod_pos_bound N0 n ltac:(lia)) as Hr.
    assert (HN0 : N0 * 10 ^ (e - lo) = ca * 10 ^ (ea - lo)).
    { unfold N0. rewrite <- Z.mul_assoc, <- Z.pow_add_r by (unfold e; lia).
      do 2 f_equal. unfold e. lia. }
    (* the quotient has more digits than the precision *)
    assert (Hq28 : 10 ^ prec <= N0 / n).
    { apply Z.div_le_lower_bound; [lia|].
      assert (H10 : 10 ^ (ndigits ca - 1) * 10 ^ shift = 10 ^ ndigits n * 10 ^ prec).
      { rewrite <- !Z.pow_add_r by (unfold prec in *; lia). f_equal.
        unfold shift. lia. }
      assert (0 < 10 ^ prec) by (apply pow10_pos; unfold prec; lia).
      unfold N0. nia. }
    pose proof (ndigits_lt_pow m prec Hndm) as Hm28. rewrite Z.abs_eq in Hm28 by lia.
    destruct (N0 mod n =? 0) eqn:Er; bool_to_Z.
    + (* exact *)
      pose proof (strip_zeros_spec (Z.to_nat (ea - e)) (N0 / n) e ea
                    ltac:(lia)) as Hs.
      destruct (strip_zeros (Z.to_nat (ea - e)) (N0 / n) e ea) as [q' e'].
      destruct Hs as (Hq' & He' & Hqq). rewrite ?Z.mul_1_l.
      destruct (fix_context_bound lo (mk q' e') m k) as (d' & Hd & H1 & H2 & H3 & H4);
        cbn [coef exp]; try (unfold e in *; lia).
      { unfold scaled. cbn [coef exp].
        assert (Hv : q' * 10 ^ (e' - lo) = (N0 / n) * 10 ^ (e - lo)).
        { rewrite Hqq. rewrite <- Z.mul_assoc, <- Z.pow_add_r by (unfold e in *; lia).
          do 2 f_equal. lia. }
        rewrite Hv.
        apply (Z.mul_le_mono_pos_l _ _ n); [lia|].
        replace (n * (N0 / n * 10 ^ (e - lo))) with (N0 * 10 ^ (e - lo)) by nia.
        rewrite HN0. exact Hle. }
      exists d'. cbn [exp] in H3. repeat split; try assumption; unfold e in *; lia.
    + (* inexact: the sticky digit stays below the bound *)
      set (q := N0 / n) in *.
      set (q'' := if q mod 5 =? 0 then q + 1 else q).
      assert (Hq'' : q <= q'' <= q + 1) by (unfold q''; destruct (q mod 5 =? 0); lia).
      assert (Hlt : q * 10 ^ (e - lo) < m * 10 ^ (k - lo)).
      { apply (Z.mul_lt_mono_pos_l n); [lia|].
        assert (n * q < N0) by lia.
        assert (n * q * 10 ^ (e - lo) < N0 * 10 ^ (e - lo)) by nia.
        rewrite HN0 in *. lia. }
      assert (Hke : e < k).
      { destruct (Z_lt_dec e k) as [|Hge]; [assumption|]. exfalso.
        assert (10 ^ (k - lo) <= 10 ^ (e - lo)) by (apply Z.pow_le_mono_r; lia).
        assert (m * 10 ^ (k - lo) <= m * 10 ^ (e - lo)) by nia.
        assert (m * 10 ^ (e - lo) <= q * 10 ^ (e - lo)) by nia.
        lia. }
      assert (Hsplit : 10 ^ (k - lo) = 10 ^ (k - e) * 10 ^ (e - lo)).
      { rewrite <- Z.pow_add_r by (unfold e in *; lia). f_equal. lia. }
      destruct (fix_context_bound lo (mk q'' e) m k) as (d' & Hd & H1 & H2 & H3 & H4);
        cbn [coef exp]; try (unfold e in *; lia).
      { unfold scaled. cbn [coef exp]. rewrite Hsplit in *.
        assert (q < m * 10 ^ (k - e)) by nia. nia. }
      exists d'. cbn [exp] in H3. repeat split; try assumption; unfold e in *; lia.
Qed.


(** Quantizing to cents stays below any bound that is a whole number of
    cents. *)
Lemma quantize_cent_bound (lo : Z) (a : Decimal) (U : Z) :
  0 <= coef a -> Etiny <= exp a <= 0 -> lo <= exp a -> lo <= -2 ->
  0 <= U -> ndigits U <= prec ->
  scaled lo a <= U * 10 ^ (-2 - lo) ->
  exists c, quantize a cent = Ok (money c) /\ 0 <= c <= U.
Proof.
  destruct a as [ca ea]. unfold scaled. cbn [coef exp].
  intros Hca He Hlo Hlo2 HU HUd Hle.
  pose proof (ndigits_lt_pow U prec HUd) as HU28. rewrite Z.abs_eq in HU28 by lia.
  unfold quantize. change (exp cent) with (-2).
  change (negb ((Etiny <=? -2) && (-2 <=? Emax))) with false. cbv iota.
  cbn [coef exp].
  destruct (ca =? 0) eqn:E0; bool_to_Z.
  - exists 0. split; [reflexivity | lia].
  - assert (Hcpos : 0 < ca) by lia.
    destruct (ndigits_bounds ca E0) as (Hnd1 & Hclo & _).
    rewrite Z.abs_eq in Hclo by lia.
    pose proof (pow10_pos (ea - lo) ltac:(lia)) as Pe.
    pose proof (pow10_pos (-2 - lo) ltac:(lia)) as P2.
    assert (Hadj : ndigits ca + ea <= prec - 2).
    { destruct (Z_le_dec (ndigits ca + ea) (prec - 2)) as [|Hgt]; [assumption|].
      exfalso.
      assert (Hp : 10 ^ (prec + (-2 - lo)) <= 10 ^ (ndigits ca - 1 + (ea - lo)))
        by (apply Z.pow_le_mono_r; unfold prec in *; lia).
      rewrite !Z.pow_add_r in Hp by (unfold prec in *; lia).
      assert (U * 10 ^ (-2 - lo) < 10 ^ prec * 10 ^ (-2 - lo)) by nia.
      assert (10 ^ (ndigits ca - 1) * 10 ^ (ea - lo) <= ca * 10 ^ (ea - lo)) by nia.
      lia. }
    unfold adjusted at 1 2. cbn [coef exp].
    destruct (ea + ndigits ca - 1 >? Emax) eqn:E1; bool_to_Z;
      [unfold Emax, prec in *; lia|].
    destruct (ea + ndigits ca - 1 - -2 + 1 >? prec) eqn:E2; bool_to_Z; [lia|].
    assert (Hres : exists c, rescale (mk ca ea) (-2) = money c /\ 0 <= c <= U).
    { unfold rescale. cbn [coef exp].
      destruct (ca =? 0) eqn:E0'; bool_to_Z; [lia|].
      destruct (ea >=? -2) eqn:E3; bool_to_Z.
      - exists (ca * 10 ^ (ea - -2)). split; [reflexivity|].
        pose proof (pow10_pos (ea - -2) ltac:(lia)).
        split; [nia|].
        assert (Hs : 10 ^ (ea - lo) = 10 ^ (ea - -2) * 10 ^ (-2 - lo)).
        { rewrite <- Z.pow_add_r by lia. f_equal. lia. }
        rewrite Hs in Hle. nia.
      - rewrite Z.abs_eq, Z.sgn_pos, Z.mul_1_l by lia.
        exists (round_half_up ca (-2 - ea)). split; [reflexivity|].
        split; [apply DecFacts.round_half_up_nonneg; lia|].
        apply round_half_up_le; [lia | lia |].
        assert (Hs : 10 ^ (-2 - lo) = 10 ^ (-2 - ea) * 10 ^ (ea - lo)).
        { rewrite <- Z.pow_add_r by lia. f_equal. lia. }
        rewrite Hs in Hle. nia. }
    destruct Hres as (c & -> & Hc).
    assert (Hcd : ndigits c <= prec).
    { apply ndigits_le_of_lt; [unfold prec; lia|]. rewrite Z.abs_eq by lia. lia. }
    unfold adjusted. cbn [money coef exp].
    destruct (-2 + ndigits c - 1 >? Emax) eqn:E4; bool_to_Z;
      [unfold Emax, prec in *; lia|].
    destruct (ndigits c >? prec) eqn:E5; bool_to_Z; [lia|].
    exists c. split; [apply (DecFacts.fix_context_money c Hcd) | exact Hc].
Qed.

(** Amounts in cents: products with day counts and comparisons. *)
Lemma mul_money_int (c n : Z) :
  ndigits (c * n) <= prec -> mul (money c) (of_int n) = Ok (money (c * n)).
Proof. intros H. apply (DecFacts.fix_context_money (c * n) H). Qed.

Lemma gtb_money (a b : Z) : gtb (money a) (money b) = (a >? b).
Proof.
  unfold gtb, cmp, money, Z.gtb. cbn [coef exp].
  rewrite Z.min_id, Z.sub_diag. cbn [Z.pow]. rewrite !Z.mul_1_r. reflexivity.
Qed.

Lemma daily_rate_amount_bound (R er cb B : Z) :
  0 <= R -> ndigits R <= prec -> -100 <= er <= 0 ->
  0 <= cb <= B -> ndigits (R * B) <= prec ->
  exists c,
    daily_rate_amount (mk R er) (money cb) = Ok (money c)
    /\ 0 <= c <= daily_cap R er B.
Proof.
  intros HR HRd Her Hcb HRB.
  set (lo := er - 100).
  pose proof (ndigits_lt_pow (R * B) prec HRB) as HRB28.
  rewrite Z.abs_eq in HRB28 by nia.
  unfold daily_rate_amount.
  (* rate / 100 *)
  destruct (div_of_int_bound lo (mk R er) 100 R (er - 2))
    as (r & Hr & Hr0 & Hrd & Hre & Hrv);
    cbn [coef exp]; unfold Etiny, Etop, Emin, Emax, prec in *; unfold lo; try lia.
  { unfold scaled. cbn [coef exp].
    replace (er - (er - 100)) with (2 + (er - 2 - (er - 100))) by lia.
    rewrite Z.pow_add_r by lia. lia. }
  rewrite Hr. cbn [bind]. cbn [exp] in Hre.
  (* times the balance *)
  destruct (fix_context_bound lo (mk (coef r * cb) (exp r + -2)) (R * B) (er - 4))
    as (rb & Hrb & Hrb0 & Hrbd & Hrbe & Hrbv);
    cbn [coef exp]; unfold Etiny, Etop, Emin, Emax, prec in *; unfold lo; try lia.
  { nia. }
  { unfold scaled in *. cbn [coef exp] in *. fold lo in Hrv |- *.
    assert (H1 : 10 ^ (exp r - lo) = 100 * 10 ^ (exp r + -2 - lo)).
    { replace (exp r - lo) with (2 + (exp r + -2 - lo)) by lia.
      rewrite Z.pow_add_r by (unfold lo; lia). lia. }
    assert (H2 : 10 ^ (er - 2 - lo) = 100 * 10 ^ (er - 4 - lo)).
    { replace (er - 2 - lo) with (2 + (er - 4 - lo)) by lia.
      rewrite Z.pow_add_r by (unfold lo; lia). lia. }
    rewrite H1, H2 in Hrv.
    pose proof (pow10_pos (exp r + -2 - lo) ltac:(unfold lo; lia)).
    pose proof (pow10_pos (er - 4 - lo) ltac:(unfold lo; lia)).
    nia. }
  unfold mul. cbn [money coef exp]. rewrite Hrb. cbn [bind]. cbn [exp] in Hrbe.
  (* / 365 *)
  set (m := R * B / 365 + 1).
  assert (Hm : 0 < m < 10 ^ 28).
  { unfold m. pose proof (Z.div_pos (R * B) 365 ltac:(nia) ltac:(lia)).
    pose proof (Z.div_mod (R * B) 365 ltac:(lia)).
    pose proof (Z.mod_pos_bound (R * B) 365 ltac:(lia)).
    assert (0 <= R * B) by nia. lia. }
  assert (Hmd : ndigits m <= 28).
  { apply ndigits_le_of_lt; [lia|]. rewrite Z.abs_eq by lia. lia. }
  destruct (div_of_int_bound lo rb 365 m (er - 4))
    as (d & Hd & Hd0 & Hdd & Hde & Hdv);
    unfold Etiny, Etop, Emin, Emax, prec in *; unfold lo; try lia.
  { fold lo. unfold scaled in *. fold lo in Hrbv.
    pose proof (pow10_pos (er - 4 - lo) ltac:(unfold lo; lia)).
    pose proof (Z.div_mod (R * B) 365 ltac:(lia)).
    pose proof (Z.mod_pos_bound (R * B) 365 ltac:(lia)).
    unfold m. nia. }
  rewrite Hd. cbn [bind].
  (* to cents *)
  assert (Hcapd : ndigits (daily_cap R er B) <= 28).
  { unfold daily_cap. fold m.
    pose proof (pow10_pos (2 - er) ltac:(lia)).
    assert (100 <= 10 ^ (2 - er)).
    { change 100 with (10 ^ 2). apply Z.pow_le_mono_r; lia. }
    assert (m / 10 ^ (2 - er) < m) by (apply Z.div_lt_upper_bound; nia).
    pose proof (Z.div_pos m (10 ^ (2 - er)) ltac:(lia) ltac:(lia)).
    apply ndigits_le_of_lt; [lia|]. rewrite Z.abs_eq by lia. lia. }
  destruct (quantize_cent_bound lo d (daily_cap R er B))
    as (c & Hc & Hcr);
    unfold Etiny, Etop, Emin, Emax, prec in *; unfold lo; try lia.
  { unfold daily_cap. fold m.
    pose proof (pow10_pos (2 - er) ltac:(lia)).
    pose proof (Z.div_pos m (10 ^ (2 - er)) ltac:(lia) ltac:(lia)). lia. }
  { fold lo. unfold scaled in *. fold lo in Hdv.
    unfold daily_cap. fold m.
    assert (Hs : 10 ^ (-2 - lo) = 10 ^ (2 - er) * 10 ^ (er - 4 - lo)).
    { rewrite <- Z.pow_add_r by (unfold lo; lia). f_equal. lia. }
    rewrite Hs.
    pose proof (pow10_pos (2 - er) ltac:(lia)) as P1.
    pose proof (pow10_pos (er - 4 - lo) ltac:(unfold lo; lia)) as P2.
    pose proof (Z.div_mod m (10 ^ (2 - er)) ltac:(lia)).
    pose proof (Z.mod_pos_bound m (10 ^ (2 - er)) ltac:(lia)).
    nia. }
  exists c. split; [exact Hc | exact Hcr].
Qed.

End DecBounds.

(** ** Days between payment dates *)

Module CalSteps.
Import Cal.

Lemma isleap_spec (y : Z) :
  days_before_year (y + 1) = days_before_year y + 365 + (if isleap y then 1 else 0).
Proof.
  unfold days_before_year, isleap.
  replace (y + 1 - 1) with y by lia.
  destruct (y mod 4 =? 0) eqn:E4; destruct (y mod 100 =? 0) eqn:E100;
    destruct (y mod 400 =? 0) eqn:E400; cbn [negb orb andb]; bool_to_Z;
    Z.to_euclidean_division_equations; lia.
Qed.

(** From the first of a month to the first of the next. *)
Lemma month_step (y m : Z) :
  1 <= m <= 12 ->
  let y' := if m =? 12 then y + 1 else y in
  let m' := if m =? 12 then 1 else m + 1 in
  days_before_year y' + days_before_month y' m'
  = days_before_year y + days_before_month y m + days_in_month y m.
Proof.
  intros Hm.
  destruct (CalFacts.month_cases m Hm) as [H|[H|[H|[H|[H|[H|[H|[H|[H|[H|[H|H]]]]]]]]]]];
    subst m; cbv zeta; cbn [Z.eqb Pos.eqb];
    unfold days_before_month, days_in_month; cbn;
    try rewrite isleap_spec; destruct (isleap y); lia.
Qed.

Lemma target_zero (b : date) :
  1 <= month b <= 12 -> target_year b 0 = year b /\ target_month b 0 = month b.
Proof.
  intros Hm. unfold target_year, target_month. rewrite Z.add_0_r.
  rewrite Z.div_small, Z.mod_small by lia. lia.
Qed.

Lemma target_step (b : date) (k : Z) :
  let y := target_year b k in
  let m := target_month b k in
  target_year b (k + 1) = (if m =? 12 then y + 1 else y)
  /\ target_month b (k + 1) = (if m =? 12 then 1 else m + 1).
Proof.
  cbv zeta. unfold target_year, target_month.
  replace (month b - 1 + (k + 1)) with (month b - 1 + k + 1) by lia.
  set (i := month b - 1 + k).
  destruct (i mod 12 + 1 =? 12) eqn:E; bool_to_Z;
    Z.to_euclidean_division_equations; lia.
Qed.

(** Two dates in consecutive months are 1 to 61 days apart. *)
Lemma consecutive_months_days (b : date) (k d1 d2 : Z) :
  1 <= d1 <= days_in_month (target_year b k) (target_month b k) ->
  1 <= d2 <= days_in_month (target_year b (k + 1)) (target_month b (k + 1)) ->
  1 <= days_between
         (mk_date (target_year b (k + 1)) (target_month b (k + 1)) d2)
         (mk_date (target_year b k) (target_month b k) d1) <= 61.
Proof.
  intros H1 H2.
  pose proof (CalFacts.target_month_range b k) as Hm.
  pose proof (CalFacts.target_month_range b (k + 1)) as Hm'.
  pose proof (CalFacts.days_in_month_range (target_year b k) _ Hm) as Hd.
  pose proof (CalFacts.days_in_month_range (target_year b (k + 1)) _ Hm') as Hd'.
  pose proof (month_step (target_year b k) (target_month b k) Hm) as Hs.
  cbv zeta in Hs.
  destruct (target_step b k) as [Hy Hmm]. rewrite <- Hy, <- Hmm in Hs.
  unfold days_between, toordinal. cbn [year month day]. lia.
Qed.

End CalSteps.

(** ** Loans the context has room for

    For a loan that satisfies [within_context] every step of the engine
    of [app.py] returns: the amounts stay in cents, where the arithmetic
    of the loop is exact, and below the caps that [caps_fit] checks. *)

Lemma fits_digits (v : Z) : Z.abs v < 10 ^ 28 -> Dec.ndigits v <= Dec.prec.
Proof. intros H. apply DecBounds.ndigits_le_of_lt; [unfold Dec.prec; lia | exact H]. Qed.

Lemma daily_cap_nonneg (R er B : Z) : 0 <= R -> 0 <= B -> er <= 2 -> 0 < daily_cap R er B.
Proof.
  intros HR HB Her. unfold daily_cap.
  pose proof (DecBounds.pow10_pos (2 - er) ltac:(lia)).
  pose proof (Z.div_pos (R * B) 365 ltac:(nia) ltac:(lia)).
  pose proof (Z.div_pos (R * B / 365 + 1) (10 ^ (2 - er)) ltac:(lia) ltac:(lia)).
  lia.
Qed.

(** One period, for terms whose rate is [R * 10 ^ er] percent and
    whose nominal payment is [P] cents, with at most [X] cents of extra
    interest and day counts up to [D]. *)
Section OnePeriod.

Variable t : LoanTerms.
Variables R er P X D : Z.
Hypothesis Hrate : annual_rate_percent t = Dec.mk R er.
Hypothesis HR : 0 <= R.
Hypothesis HRd : Dec.ndigits R <= Dec.prec.
Hypothesis Her : -100 <= er <= 0.
Hypothesis Hpay : monthly_payment t = Dec.money P.
Hypothesis HP : 0 <= P.
Hypothesis HX : 0 <= X.
Variable extra : option Decimal.
Hypothesis Hextra :
  extra = None \/ exists x, extra = Some (Dec.money x) /\ 0 <= x <= X.

(** Interest and nominal payment of a period, in cents. *)
Lemma interest_and_payment (p i0 : Z) :
  0 <= i0 -> i0 + X < 10 ^ 28 -> P + X < 10 ^ 28 ->
  exists x,
    0 <= x <= X
    /\ fold_interest extra p (Dec.money i0) = Ok (Dec.money (i0 + x))
    /\ nominal_payment t extra p = Ok (Dec.money (P + x)).
Proof.
  intros Hi Hfi Hfp. unfold fold_interest, nominal_payment. rewrite Hpay.
  destruct Hextra as [->|(x & -> & Hx)].
  - exists 0. rewrite !Z.add_0_r. repeat split; lia.
  - destruct (p =? 1).
    + exists x. split; [exact Hx|].
      rewrite !DecFacts.add_money by (apply fits_digits; lia). cbn [bind].
      split; [|reflexivity].
      apply DecFacts.quantize_cent_money. apply fits_digits. lia.
    + exists 0. rewrite !Z.add_0_r. repeat split; lia.
Qed.

Lemma settle_payment_money (p cb i1 p0 : Z) :
  Z.abs (cb + i1) < 10 ^ 28 ->
  exists p1,
    settle_payment t p (Dec.money cb) (Dec.money i1) (Dec.money p0)
    = Ok (Dec.money p1)
    /\ (p1 = cb + i1 \/ (p1 = p0 /\ p0 <= cb + i1)).
Proof.
  intros Hfit. unfold settle_payment.
  rewrite DecFacts.add_money by (apply fits_digits; exact Hfit). cbn [bind].
  destruct (p =? periods_months t).
  - exists (cb + i1). split; [reflexivity | left; reflexivity].
  - rewrite DecBounds.gtb_money. destruct (p0 >? cb + i1) eqn:E; bool_to_Z.
    + exists (cb + i1). split; [reflexivity | left; reflexivity].
    + exists p0. split; [reflexivity | right; lia].
Qed.

Lemma close_balance_money (cb pr : Z) :
  Z.abs (cb - pr) < 10 ^ 28 ->
  close_balance (Dec.money cb) (Dec.money pr) = Ok (Dec.money (Z.max 0 (cb - pr))).
Proof.
  intros Hfit. unfold close_balance.
  rewrite DecFacts.sub_money by (apply fits_digits; exact Hfit). cbn [bind].
  unfold quantize_money.
  rewrite DecFacts.quantize_cent_money by (apply fits_digits; exact Hfit).
  cbn [bind]. rewrite DecFacts.ltb_zero. cbn [Dec.money Dec.coef].
  destruct (cb - pr <? 0) eqn:E; bool_to_Z.
  - rewrite Z.max_l by lia. reflexivity.
  - rewrite Z.max_r by lia. reflexivity.
Qed.

(** One period of the loop returns, and its ending balance is within
    the next cap. *)
Lemma period_row_exists (p : Z) (prev pd : date) (cb B : Z) :
  payment_date_of t p = Ok pd ->
  0 <= Cal.days_between pd prev <= D ->
  0 <= cb <= B ->
  step_fits R er D X P B = true ->
  exists r cb',
    period_row t extra (Dec.money cb) prev p r pd
    /\ ending_balance r = Dec.money cb'
    /\ 0 <= cb' <= B + daily_cap R er B * D.
Proof.
  intros Hpd Hdays Hcb Hfit. unfold step_fits in Hfit. bool_to_Z.
  assert (HRB : Dec.ndigits (R * B) <= Dec.prec).
  { apply fits_digits. rewrite Z.abs_eq by nia. assumption. }
  destruct (DecBounds.daily_rate_amount_bound R er cb B HR HRd Her Hcb HRB) as (c & Hc & Hcr).
  set (nd := Cal.days_between pd prev) in *.
  set (cap := daily_cap R er B) in *.
  assert (Hi0 : 0 <= c * nd <= cap * D) by nia.
  destruct (interest_and_payment p (c * nd)) as (x & Hx & Hint & Hnom); try lia.
  destruct (settle_payment_money p cb (c * nd + x) (P + x)) as (p1 & Hset & Hp1);
    [lia|].
  assert (Hpr : Z.abs (p1 - (c * nd + x)) < 10 ^ 28) by lia.
  assert (Hrest : Z.abs (cb - (p1 - (c * nd + x))) < 10 ^ 28) by lia.
  eexists. exists (Z.max 0 (cb - (p1 - (c * nd + x)))). split; [|split].
  - econstructor.
    + exact Hpd.
    + rewrite Hrate. exact Hc.
    + fold nd. apply DecBounds.mul_money_int. apply fits_digits. lia.
    + apply DecFacts.quantize_cent_money. apply fits_digits. lia.
    + exact Hint.
    + exact Hnom.
    + exact Hset.
    + apply DecFacts.sub_money. apply fits_digits. exact Hpr.
    + apply close_balance_money. exact Hrest.
  - reflexivity.
  - lia.
Qed.

End OnePeriod.

(** The whole loop, when every payment date resolves and lies 0 to
    [D] days after the date before it. *)
Section WholeLoop.

Variable t : LoanTerms.
Variables R er P X D : Z.
Hypothesis Hrate : annual_rate_percent t = Dec.mk R er.
Hypothesis HR : 0 <= R.
Hypothesis HRd : Dec.ndigits R <= Dec.prec.
Hypothesis Her : -100 <= er <= 0.
Hypothesis Hpay : monthly_payment t = Dec.money P.
Hypothesis HP : 0 <= P.
Hypothesis HX : 0 <= X.
Hypothesis HD : 0 <= D.
Variable extra : option Decimal.
Hypothesis Hextra :
  extra = None \/ exists x, extra = Some (Dec.money x) /\ 0 <= x <= X.
Variable start : date.
Hypothesis Hdates :
  forall p, 1 <= p <= periods_months t ->
    payment_date_of t p = Ok (pay_date t p)
    /\ 0 <= Cal.days_between (pay_date t p) (date_before t start p) <= D.

Lemma chain_exists (len : nat) :
  forall (s : nat) (cb B : Z),
    (1 <= s)%nat ->
    Z.of_nat s + Z.of_nat len - 1 <= periods_months t ->
    0 <= cb <= B ->
    caps_fit len R er D X P B = true ->
    exists rs,
      schedule_chain t extra (Dec.money cb) (date_before t start (Z.of_nat s))
        (map Z.of_nat (seq s len)) rs.
Proof.
  induction len as [|len IH]; intros s cb B Hs HN Hcb Hfit.
  - exists []. constructor.
  - cbn [caps_fit] in Hfit. apply andb_true_iff in Hfit. destruct Hfit as [Hstep Hfit].
    destruct (Hdates (Z.of_nat s) ltac:(lia)) as [Hpd Hdays].
    destruct (period_row_exists t R er P X D Hrate HR HRd Her Hpay HP HX extra Hextra
                (Z.of_nat s) (date_before t start (Z.of_nat s)) (pay_date t (Z.of_nat s))
                cb B Hpd Hdays Hcb Hstep)
      as (r & cb' & Hrow & Heb & Hcb').
    destruct (IH (S s) cb' (B + daily_cap R er B * D) ltac:(lia) ltac:(lia) Hcb' Hfit)
      as (rs & Hchain).
    exists (r :: rs). cbn [seq map]. econstructor; [exact Hrow|].
    rewrite Heb.
    replace (pay_date t (Z.of_nat s)) with (date_before t start (Z.of_nat (S s))).
    + exact Hchain.
    + unfold date_before. destruct (Z.of_nat (S s) =? 1) eqn:E; bool_to_Z; [lia|].
      f_equal. lia.
Qed.

End WholeLoop.

(** The payment dates of a loan whose cycle day and years the calendar
    can hold. *)
Lemma payment_dates_resolve (t : LoanTerms) (start : date) (p : Z) :
  Cal.valid_date (first_payment_date t) = true ->
  1 <= cycle_day t ->
  target_year (first_payment_date t) (periods_months t - 1) <= Cal.MAXYEAR ->
  0 <= Cal.days_between (first_payment_date t) start ->
  1 <= p <= periods_months t ->
  payment_date_of t p = Ok (pay_date t p)
  /\ 0 <= Cal.days_between (pay_date t p) (date_before t start p)
     <= Z.max 61 (Cal.days_between (first_payment_date t) start).
Proof.
  intros Hv Hcd Hy Hd1 Hp.
  apply CalFacts.valid_date_iff in Hv. destruct Hv as (Hyr & Hmo & Hday).
  set (fp := first_payment_date t) in *.
  assert (Hres : forall k, 0 <= k <= periods_months t - 1 ->
            add_months fp k (cycle_day t)
            = Ok (Cal.mk_date (target_year fp k) (target_month fp k)
                    (Z.min (cycle_day t)
                       (Cal.days_in_month (target_year fp k) (target_month fp k))))).
  { intros k Hk. apply add_months_returns; [exact Hcd|].
    unfold target_year in *.
    assert (0 <= (Cal.month fp - 1 + k) / 12) by (apply Z.div_pos; lia).
    assert ((Cal.month fp - 1 + k) / 12 <= (Cal.month fp - 1 + (periods_months t - 1)) / 12)
      by (apply Z.div_le_mono; lia).
    unfold Cal.MINYEAR, Cal.MAXYEAR in *. lia. }
  assert (Hpd : forall q, 2 <= q <= periods_months t ->
            pay_date t q
            = Cal.mk_date (target_year fp (q - 1)) (target_month fp (q - 1))
                (Z.min (cycle_day t)
                   (Cal.days_in_month (target_year fp (q - 1)) (target_month fp (q - 1))))
            /\ payment_date_of t q = Ok (pay_date t q)).
  { intros q Hq. unfold pay_date, payment_date_of.
    destruct (q =? 1) eqn:E; bool_to_Z; [lia|]. fold fp.
    rewrite (Hres (q - 1)) by lia. split; reflexivity. }
  assert (Hp1 : pay_date t 1 = fp) by reflexivity.
  destruct (Z.eq_dec p 1) as [->|Hne].
  - split; [reflexivity|]. rewrite Hp1. unfold date_before. cbn [Z.eqb Pos.eqb]. lia.
  - destruct (Hpd p ltac:(lia)) as [Hdate Hok]. split; [exact Hok|].
    unfold date_before. destruct (p =? 1) eqn:E; bool_to_Z; [lia|].
    pose proof (CalFacts.target_month_range fp (p - 1)) as Hm1.
    pose proof (CalFacts.days_in_month_range (target_year fp (p - 1)) _ Hm1) as Hdm1.
    assert (Hprev : exists d1,
              pay_date t (p - 1)
              = Cal.mk_date (target_year fp (p - 2)) (target_month fp (p - 2)) d1
              /\ 1 <= d1 <= Cal.days_in_month (target_year fp (p - 2))
                               (target_month fp (p - 2))).
    { destruct (Z.eq_dec p 2) as [->|Hne2].
      - exists (Cal.day fp).
        replace (2 - 1) with 1 by lia. replace (2 - 2) with 0 by lia. rewrite Hp1.
        destruct (CalSteps.target_zero fp Hmo) as [-> ->].
        split; [destruct fp; reflexivity | exact Hday].
      - destruct (Hpd (p - 1) ltac:(lia)) as [Hdate' _].
        replace (p - 1 - 1) with (p - 2) in Hdate' by lia.
        eexists. split; [exact Hdate'|].
        pose proof (CalFacts.target_month_range fp (p - 2)) as Hm2.
        pose proof (CalFacts.days_in_month_range (target_year fp (p - 2)) _ Hm2).
        lia. }
    destruct Hprev as (d1 & Hprev & Hd1r).
    rewrite Hdate, Hprev.
    pose proof (CalSteps.consecutive_months_days fp (p - 2) d1
                  (Z.min (cycle_day t)
                     (Cal.days_in_month (target_year fp (p - 1)) (target_month fp (p - 1))))
                  Hd1r) as Hc.
    replace (p - 2 + 1) with (p - 1) in Hc by lia.
    specialize (Hc ltac:(lia)). lia.
Qed.

Lemma decimal_eta (d : Decimal) : d = Dec.mk (Dec.coef d) (Dec.exp d).
Proof. destruct d. reflexivity. Qed.

(** The engine of [app.py] returns a schedule for every loan within the
    context. *)
Lemma build_schedule_returns (t : LoanTerms) :
  within_context t = true ->
  exists rows, App.build_schedule t = Ok rows.
Proof.
  unfold within_context. cbv zeta. intros H.
  repeat (apply andb_true_iff in H; let H' := fresh "C" in destruct H as [H H']).
  bool_to_Z.
  set (L := Dec.coef (loan_amount t)) in *.
  set (R := Dec.coef (annual_rate_percent t)) in *.
  set (er := Dec.exp (annual_rate_percent t)) in *.
  set (P := Dec.coef (monthly_payment t)) in *.
  set (first := Cal.days_between (first_payment_date t) (interest_start_date t)) in *.
  set (D := Z.max 61 first) in *.
  set (E := match t_projected_close_date t with
            | Some c => Z.max 0 (Cal.days_between (interest_start_date t) c)
            | None => 0
            end) in *.
  set (X := daily_cap R er L * E) in *.
  assert (HL : loan_amount t = Dec.money L).
  { rewrite (decimal_eta (loan_amount t)). fold L. unfold Dec.money. congruence. }
  assert (HPm : monthly_payment t = Dec.money P).
  { rewrite (decimal_eta (monthly_payment t)). fold P. unfold Dec.money. congruence. }
  assert (HRt : annual_rate_percent t = Dec.mk R er) by apply decimal_eta.
  assert (HRd : Dec.ndigits R <= Dec.prec) by (apply fits_digits; lia).
  assert (HE : 0 <= E) by (unfold E; destruct (t_projected_close_date t); lia).
  pose proof (daily_cap_nonneg R er L ltac:(lia) ltac:(lia) ltac:(lia)) as Hcap.
  assert (HX : 0 <= X) by (unfold X; nia).
  unfold App.build_schedule. rewrite HL. unfold quantize_money at 1.
  rewrite DecFacts.quantize_cent_money by (apply fits_digits; lia). cbn [bind].
  unfold schedule_tail.
  (* the proration *)
  assert (Hpro : exists extra,
            proration t (interest_start_date t) (Dec.money L) = Ok extra
            /\ (extra = None \/ exists x, extra = Some (Dec.money x) /\ 0 <= x <= X)).
  { unfold proration. unfold X, E. destruct (t_projected_close_date t) as [c|].
    - assert (HRL : Dec.ndigits (R * L) <= Dec.prec) by (apply fits_digits; nia).
      destruct (DecBounds.daily_rate_amount_bound R er L L ltac:(lia) HRd ltac:(lia) ltac:(lia) HRL)
        as (c0 & Hc0 & Hc0r).
      rewrite HRt, Hc0. cbn [bind].
      set (ed := Cal.days_between (interest_start_date t) c) in *.
      replace (if ed <? 0 then 0 else ed) with (Z.max 0 ed)
        by (destruct (ed <? 0) eqn:En; bool_to_Z; lia).
      assert (0 <= c0 * Z.max 0 ed <= daily_cap R er L * Z.max 0 ed) by nia.
      rewrite DecBounds.mul_money_int by (apply fits_digits; unfold X, E in *; lia). cbn [bind].
      unfold quantize_money.
      rewrite DecFacts.quantize_cent_money by (apply fits_digits; unfold X, E in *; lia).
      cbn [bind]. eexists. split; [reflexivity|]. right.
      eexists. split; [reflexivity | lia].
    - exists None. split; [reflexivity | left; reflexivity]. }
  destruct Hpro as (extra & Hpro & Hextra). rewrite Hpro. cbn [bind].
  (* the loop *)
  destruct (Z_le_dec (periods_months t) 0) as [HN0|HN1].
  - rewrite (range1_nonpos _ HN0). cbn [run_loop bind]. eexists. reflexivity.
  - assert (Hdates : forall p, 1 <= p <= periods_months t ->
              payment_date_of t p = Ok (pay_date t p)
              /\ 0 <= Cal.days_between (pay_date t p)
                        (date_before t (interest_start_date t) p) <= D).
    { intros p Hp. apply payment_dates_resolve; try assumption; lia. }
    destruct (chain_exists t R er P X D HRt ltac:(lia) HRd ltac:(lia) HPm ltac:(lia) HX
                extra Hextra (interest_start_date t) Hdates
                (Z.to_nat (periods_months t)) 1 L L ltac:(lia) ltac:(lia) ltac:(lia))
      as (rs & Hchain); [assumption|].
    match goal with
    | |- context [run_loop t extra ?st ?ps] =>
        destruct (chain_run_loop t extra ps st rs) as (st' & Hrun & _)
    end.
    { exact Hchain. }
    rewrite Hrun. cbn [bind]. eexists. reflexivity.
Qed.

(** * The claims *)

(** ** The resolver *)

(** C7 (as amended).  [add_months] is a function of its three arguments
    alone; it returns a date of the calendar exactly when the cycle day is
    at least 1 and the target year lies in 1..9999, and raises otherwise,
    whatever the sign or the size of the month offset: ValueError when
    the cycle day and the target year fit a C int (the cycle day from
    -2^31, the year from -2^31 to 2^31 - 1), which is what [date] reads
    its arguments as, and OverflowError when one of them does not. *)
Theorem add_months_total_on_calendar (base_date : date) (months cycle_day : Z) :
  (1 <= cycle_day ->
   Cal.MINYEAR <= target_year base_date months <= Cal.MAXYEAR ->
   exists d, add_months base_date months cycle_day = Ok d
             /\ Cal.valid_date d = true)
  /\ (cycle_day < 1
      \/ target_year base_date months < Cal.MINYEAR
      \/ Cal.MAXYEAR < target_year base_date months ->
      - 2 ^ 31 <= cycle_day ->
      - 2 ^ 31 <= target_year base_date months < 2 ^ 31 ->
      add_months base_date months cycle_day = Raise ValueError)
  /\ (cycle_day < - 2 ^ 31
      \/ target_year base_date months < - 2 ^ 31
      \/ 2 ^ 31 <= target_year base_date months ->
      add_months base_date months cycle_day = Raise OverflowError)
  /\ (forall e, add_months base_date months cycle_day = Raise e ->
        e = ValueError \/ e = OverflowError).
Proof.
  split; [|split; [|split]].
  - intros Hcd Hy. eexists. split; [apply add_months_returns; assumption|].
    apply CalFacts.valid_date_iff. cbn.
    pose proof (CalFacts.target_month_range base_date months) as Hm.
    pose proof (CalFacts.days_in_month_range (target_year base_date months) _ Hm).
    lia.
  - intros Hf Hcd Hy. rewrite (add_months_raises _ _ _ Hf).
    apply CalFacts.fits_c_int_iff in Hy. rewrite Hy.
    apply Z.leb_le in Hcd. rewrite Hcd. reflexivity.
  - intros Ho. rewrite add_months_raises
      by (unfold Cal.MINYEAR, Cal.MAXYEAR; lia).
    destruct (Cal.fits_c_int (target_year base_date months)) eqn:F;
      [|reflexivity].
    apply CalFacts.fits_c_int_iff in F.
    destruct (- 2 ^ 31 <=? cycle_day) eqn:C; bool_to_Z; [exfalso; lia | reflexivity].
  - intros e H. apply add_months_Raise in H. destruct H as [_ ->].
    destruct (Cal.fits_c_int (target_year base_date months) && (- 2 ^ 31 <=? cycle_day));
      [left | right]; reflexivity.
Qed.

Lemma add_months_total_on_calendar_witness :
  exists d, add_months (Cal.mk_date 2024 11 15) (-14) 31 = Ok d
            /\ Cal.valid_date d = true.
Proof.
  apply (proj1 (add_months_total_on_calendar (Cal.mk_date 2024 11 15) (-14) 31)).
  - lia.
  - vm_compute. split; discriminate.
Defined.

(** C7 as stated fails: a cycle day of 0, and an offset that leaves the
    calendar, both make the resolver raise; an offset of 12 * 2^31 months
    makes it raise OverflowError. *)
Lemma add_months_not_total :
  add_months (Cal.mk_date 2024 1 31) 1 0 = Raise ValueError
  /\ add_months (Cal.mk_date 2024 1 31) 120000 31 = Raise ValueError
  /\ add_months (Cal.mk_date 2024 1 31) (-120000) 31 = Raise ValueError
  /\ add_months (Cal.mk_date 2024 1 31) (12 * 2 ^ 31) 31 = Raise OverflowError.
Proof. repeat split. Qed.

(** C8 (as amended).  For a cycle day in 1..31, the date [add_months]
    returns lies in the month reached by adding the offset to the base
    date's month index, carrying into the year in either direction, on
    the day [min(cycle_day, last day of that month)]; it returns that
    date whenever the target year is one of the calendar, 1..9999, and
    raises when it is not: ValueError for a year that fits a C int (from
    -2^31 to 2^31 - 1), OverflowError for one that does not.  So cycle
    day 31 gives day 30 in a 30-day month and February's last day in
    February, and [add_months(date(2024,11,15), 3, 15)] is
    [date(2025,2,15)]. *)
Theorem add_months_resolves (base_date : date) (months cycle_day : Z) :
  1 <= cycle_day <= 31 ->
  let y := target_year base_date months in
  let m := target_month base_date months in
  let last := Cal.days_in_month y m in
  (* the target month, with carry *)
  1 <= m <= 12
  /\ 12 * y + (m - 1) = 12 * Cal.year base_date + (Cal.month base_date - 1) + months
  (* the date returned *)
  /\ (forall d, add_months base_date months cycle_day = Ok d ->
        d = Cal.mk_date y m (Z.min cycle_day last))
  /\ (Cal.MINYEAR <= y <= Cal.MAXYEAR ->
        add_months base_date months cycle_day = Ok (Cal.mk_date y m (Z.min cycle_day last)))
  /\ (y < Cal.MINYEAR \/ Cal.MAXYEAR < y ->
        add_months base_date months cycle_day
        = Raise (if (- 2 ^ 31 <=? y) && (y <? 2 ^ 31)
                 then ValueError else OverflowError))
  (* clamping of cycle day 31 *)
  /\ (cycle_day = 31 -> last = 30 -> Z.min cycle_day last = 30)
  /\ (cycle_day = 31 -> m = 2 ->
        Z.min cycle_day last = if Cal.isleap y then 29 else 28)
  (* the instances the specification names *)
  /\ add_months (Cal.mk_date 2024 11 15) 3 15 = Ok (Cal.mk_date 2025 2 15)
  /\ add_months (Cal.mk_date 2024 3 31) 1 31 = Ok (Cal.mk_date 2024 4 30)
  /\ add_months (Cal.mk_date 2023 1 31) 1 31 = Ok (Cal.mk_date 2023 2 28)
  /\ add_months (Cal.mk_date 2024 1 31) 1 31 = Ok (Cal.mk_date 2024 2 29)
  /\ add_months (Cal.mk_date 2024 1 31) (-3) 31 = Ok (Cal.mk_date 2023 10 31).
Proof.
  intros Hcd y m last.
  pose proof (CalFacts.target_month_range base_date months) as Hm. fold m in Hm.
  split; [exact Hm|]. split.
  { subst y m. unfold target_year, target_month.
    pose proof (Z.div_mod (Cal.month base_date - 1 + months) 12 ltac:(lia)). lia. }
  split.
  { intros d H. apply add_months_Ok in H. apply H. }
  split.
  { intros Hy. apply add_months_returns; [lia | exact Hy]. }
  split.
  { intros Hy. rewrite add_months_raises by (right; exact Hy).
    fold y. unfold Cal.fits_c_int.
    replace (- 2 ^ 31 <=? cycle_day) with true by (symmetry; apply Z.leb_le; lia).
    rewrite andb_true_r. reflexivity. }
  split.
  { intros -> Hl. rewrite Hl. reflexivity. }
  split.
  { intros -> Hm2. subst last. rewrite Hm2, CalFacts.february.
    destruct (Cal.isleap y); reflexivity. }
  repeat split.
Qed.

Lemma add_months_resolves_witness :
  add_months (Cal.mk_date 2024 12 31) 2 31 = Ok (Cal.mk_date 2025 2 28).
Proof.
  pose proof (add_months_resolves (Cal.mk_date 2024 12 31) 2 31 ltac:(lia)) as H.
  cbv zeta in H. destruct H as (_ & _ & _ & H & _).
  apply H. vm_compute. split; discriminate.
Defined.

(** C8 as stated fails: one month after December 9999 there is no date
    to return, and the resolver raises. *)
Lemma add_months_leaves_calendar :
  1 <= 15 <= 31
  /\ Cal.valid_date (Cal.mk_date 9999 12 15) = true
  /\ add_months (Cal.mk_date 9999 12 15) 1 15 = Raise ValueError.
Proof. repeat split; discriminate. Qed.

(** ** The schedule *)

Lemma linked_adjacent (rs : list ScheduleRow) :
  forall (b : Decimal) (r0 : ScheduleRow) (k : nat) (r1 r2 : ScheduleRow),
    linked b rs -> ending_balance r0 = b ->
    nth_error (r0 :: rs) k = Some r1 ->
    nth_error (r0 :: rs) (S k) = Some r2 ->
    ending_balance r1 = beginning_balance r2.
Proof.
  induction rs as [|r rs IH]; intros b r0 k r1 r2 Hl Hb H1 H2.
  - destruct k; cbn in H2; [discriminate | destruct k; discriminate].
  - destruct Hl as [Hbb Hl]. destruct k as [|k].
    + cbn in H1, H2. injection H1 as <-. injection H2 as <-. congruence.
    + cbn [nth_error] in H1. change (nth_error (r0 :: r :: rs) (S (S k)))
        with (nth_error (r :: rs) (S k)) in H2.
      eapply IH; [exact Hl | reflexivity | exact H1 | exact H2].
Qed.

(** C9.  In a returned schedule every row begins with the balance the
    row before it ended with. *)
Theorem balance_continuity (e : engine) (t : LoanTerms) (rows : list ScheduleRow)
    (k : nat) (r1 r2 : ScheduleRow) :
  build_schedule_of e t = Ok rows ->
  nth_error rows k = Some r1 ->
  nth_error rows (S k) = Some r2 ->
  ending_balance r1 = beginning_balance r2.
Proof.
  intros H H1 H2.
  apply build_schedule_of_Ok in H.
  destruct H as (b & start & extra & rs & _ & _ & _ & -> & Hchain).
  apply chain_linked in Hchain.
  eapply linked_adjacent; [exact Hchain | | exact H1 | exact H2].
  reflexivity.
Qed.

Lemma balance_continuity_witness :
  option_map ending_balance
    (nth_error (rows_of (App.build_schedule sample_loan)) 1)
  = option_map beginning_balance
      (nth_error (rows_of (App.build_schedule sample_loan)) 2).
Proof.
  destruct (nth_error (rows_of (App.build_schedule sample_loan)) 1) as [r1|] eqn:E1;
    [|vm_compute in E1; discriminate].
  destruct (nth_error (rows_of (App.build_schedule sample_loan)) 2) as [r2|] eqn:E2;
    [|vm_compute in E2; discriminate].
  cbn [option_map]. f_equal.
  apply (balance_continuity app_py sample_loan
           (rows_of (App.build_schedule sample_loan)) 1 r1 r2).
  - vm_compute. reflexivity.
  - exact E1.
  - exact E2.
Defined.

(** The ending balance a payment period leaves is never below zero. *)
Lemma close_balance_Ok (b princ eb : Decimal) :
  close_balance b princ = Ok eb ->
  exists rest q,
    Dec.sub b princ = Ok rest
    /\ quantize_money rest = Ok q
    /\ eb = (if Dec.ltb q Dec.zero then Dec.zero else q)
    /\ Dec.ltb eb Dec.zero = false
    /\ is_cents eb
    /\ (Dec.coef rest < 0 -> eb = Dec.zero).
Proof.
  unfold close_balance. intros H. bind_inv H. bind_inv H. injection H as <-.
  exists v, v0. split; [assumption|]. split; [assumption|]. split; [reflexivity|].
  pose proof (DecFacts.quantize_cent_Ok _ _ E0) as [Hq Hd].
  pose proof (DecFacts.quantize_cent_sign _ _ E0) as (He & _ & Hneg).
  destruct (Dec.ltb v0 Dec.zero) eqn:L.
  - split; [reflexivity|]. split; [split; [reflexivity | vm_compute; discriminate]|].
    reflexivity.
  - split; [exact L|]. split; [split; assumption|].
    intros Hrest. rewrite DecFacts.ltb_zero in L. bool_to_Z.
    assert (Dec.coef v0 = 0) by lia.
    destruct v0 as [c x]. cbn in *. subst. reflexivity.
Qed.

Lemma period_row_close (t : LoanTerms) (extra : option Decimal)
    (b : Decimal) (d : date) (p : Z) (r : ScheduleRow) (d' : date) :
  period_row t extra b d p r d' ->
  exists princ,
    principal r = Some princ
    /\ close_balance (beginning_balance r) princ = Ok (ending_balance r).
Proof. intros H. destruct H. cbn. eexists. split; [reflexivity | assumption]. Qed.

(** C10.  In a returned schedule no ending balance is below 0.00: a
    payment period quantizes [balance - principal] and puts exactly 0.00
    in its place when that is negative, and the period-0 row carries the
    rounded principal, which is not negative when the principal is not. *)
Theorem ending_balance_nonnegative (e : engine) (t : LoanTerms)
    (rows : list ScheduleRow) (r : ScheduleRow) :
  build_schedule_of e t = Ok rows ->
  In r rows ->
  (1 <= period r ->
     Dec.ltb (ending_balance r) Dec.zero = false
     /\ exists princ rest q,
          principal r = Some princ
          /\ Dec.sub (beginning_balance r) princ = Ok rest
          /\ quantize_money rest = Ok q
          /\ ending_balance r = (if Dec.ltb q Dec.zero then Dec.zero else q)
          /\ (Dec.coef rest < 0 -> ending_balance r = Dec.zero))
  /\ (0 <= Dec.coef (loan_amount t) ->
      Dec.ltb (ending_balance r) Dec.zero = false).
Proof.
  intros H Hin.
  apply build_schedule_of_Ok in H.
  destruct H as (b & start & extra & rs & Hb & _ & _ & -> & Hchain).
  assert (Hrs : Forall (fun r =>
            Dec.ltb (ending_balance r) Dec.zero = false
            /\ exists princ rest q,
                 principal r = Some princ
                 /\ Dec.sub (beginning_balance r) princ = Ok rest
                 /\ quantize_money rest = Ok q
                 /\ ending_balance r = (if Dec.ltb q Dec.zero then Dec.zero else q)
                 /\ (Dec.coef rest < 0 -> ending_balance r = Dec.zero)) rs).
  { eapply chain_Forall; [|exact Hchain].
    intros b0 d0 p0 r0 d0' Hrow.
    apply period_row_close in Hrow. destruct Hrow as (princ & Hp & Hc).
    apply close_balance_Ok in Hc.
    destruct Hc as (rest & q & H1 & H2 & H3 & H4 & _ & H6).
    split; [exact H4|]. exists princ, rest, q. repeat split; assumption. }
  rewrite Forall_forall in Hrs.
  destruct Hin as [<-|Hin].
  - split; [cbn; lia|]. intros Hpos. cbn.
    rewrite DecFacts.ltb_zero. apply Z.ltb_ge.
    apply DecFacts.quantize_cent_sign in Hb. apply Hb. exact Hpos.
  - split; [intros _; apply Hrs; exact Hin|].
    intros _. apply Hrs. exact Hin.
Qed.

Lemma ending_balance_nonnegative_witness :
  Forall (fun r => Dec.ltb (ending_balance r) Dec.zero = false)
    (rows_of (AppParActual.build_schedule sample_loan)).
Proof.
  apply Forall_forall. intros r Hin.
  apply (ending_balance_nonnegative app_par_actual_py sample_loan
           (rows_of (AppParActual.build_schedule sample_loan)) r).
  - vm_compute. reflexivity.
  - exact Hin.
  - vm_compute. discriminate.
Defined.

Lemma chain_first (t : LoanTerms) (extra : option Decimal) (b : Decimal)
    (d : date) (ps : list Z) (rs : list ScheduleRow) (r : ScheduleRow) :
  schedule_chain t extra b d ps rs ->
  nth_error rs 0 = Some r ->
  exists p d', nth_error ps 0 = Some p /\ period_row t extra b d p r d'.
Proof.
  intros H Hr. inversion H; subst; cbn in Hr; [discriminate|].
  injection Hr as ->. eexists. eexists. split; [reflexivity | eassumption].
Qed.

Lemma range1_first (n p : Z) : nth_error (range1 n) 0 = Some p -> p = 1.
Proof.
  intros H. assert (Hlt : (0 < Z.to_nat n)%nat).
  { rewrite <- range1_length. apply nth_error_Some. congruence. }
  rewrite (range1_nth n 0 Hlt) in H. injection H as <-. reflexivity.
Qed.

(** The first payment period of a returned schedule. *)
Lemma first_period_row (e : engine) (t : LoanTerms) (rows : list ScheduleRow)
    (r1 : ScheduleRow) :
  build_schedule_of e t = Ok rows ->
  nth_error rows 1 = Some r1 ->
  exists b start extra d,
    quantize_money (loan_amount t) = Ok b
    /\ interest_start_of e t = Ok start
    /\ proration t start b = Ok extra
    /\ period_row t extra b start 1 r1 d.
Proof.
  intros H H1. apply build_schedule_of_Ok in H.
  destruct H as (b & start & extra & rs & Hb & Hs & Hx & -> & Hchain).
  cbn in H1. destruct (chain_first _ _ _ _ _ _ _ Hchain H1) as (p & d & Hp & Hrow).
  apply range1_first in Hp. subst p.
  exists b, start, extra, d. repeat split; assumption.
Qed.

(** C4 (as amended).  The period-0 row of a returned schedule carries
    the date the engine takes as the start of interest, the principal
    rounded half-up to cents as both balances, no day count, interest,
    payment, principal or daily amount, and the projected close date of
    the input; period 1 counts its days from that same start date.  In
    [app.py] the start date is the input's [interest_start_date]; in
    [app_par_actual.py] it is the date that engine derives from the first
    payment date and the projected close date. *)
Theorem period0_row (e : engine) (t : LoanTerms) (rows : list ScheduleRow) :
  build_schedule_of e t = Ok rows ->
  exists start b r0,
    interest_start_of e t = Ok start
    /\ (e = app_py -> start = interest_start_date t)
    /\ (e = app_par_actual_py -> AppParActual.actual_interest_start_date t = Ok start)
    /\ quantize_money (loan_amount t) = Ok b
    /\ nth_error rows 0 = Some r0
    /\ period r0 = 0
    /\ payment_date r0 = Some start
    /\ beginning_balance r0 = b /\ ending_balance r0 = b
    /\ days r0 = None /\ daily_interest r0 = None /\ interest r0 = None
    /\ payment r0 = None /\ principal r0 = None
    /\ projected_close_date r0 = t_projected_close_date t
    /\ (forall r1, nth_error rows 1 = Some r1 ->
          payment_date r1 = Some (first_payment_date t)
          /\ days r1 = Some (Cal.days_between (first_payment_date t) start)).
Proof.
  intros H. pose proof H as H'. apply build_schedule_of_Ok in H.
  destruct H as (b & start & extra & rs & Hb & Hs & Hx & -> & Hchain).
  exists start, b, (set_extra_interest (row0 t start b) extra).
  split; [exact Hs|].
  split; [intros ->; cbn in Hs; congruence|].
  split; [intros ->; exact Hs|].
  split; [exact Hb|].
  do 11 (split; [reflexivity|]).
  intros r1 H1.
  destruct (first_period_row _ _ _ _ H' H1) as (b' & s' & x' & d & _ & Hs' & _ & Hrow).
  assert (s' = start) by congruence. subst s'.
  pose proof (period_row_fields _ _ _ _ _ _ _ Hrow) as (_ & _ & Hpd & Hd & _).
  destruct Hrow. unfold payment_date_of in *. cbn in *.
  match goal with Hp : Ok _ = Ok _ |- _ => injection Hp as <- end.
  split; reflexivity.
Qed.

Lemma period0_row_witness :
  exists start b r0,
    interest_start_of app_py sample_loan = Ok start
    /\ (app_py = app_py -> start = interest_start_date sample_loan)
    /\ (app_py = app_par_actual_py ->
        AppParActual.actual_interest_start_date sample_loan = Ok start)
    /\ quantize_money (loan_amount sample_loan) = Ok b
    /\ nth_error (rows_of (App.build_schedule sample_loan)) 0 = Some r0
    /\ period r0 = 0
    /\ payment_date r0 = Some start
    /\ beginning_balance r0 = b /\ ending_balance r0 = b
    /\ days r0 = None /\ daily_interest r0 = None /\ interest r0 = None
    /\ payment r0 = None /\ principal r0 = None
    /\ projected_close_date r0 = t_projected_close_date sample_loan
    /\ (forall r1, nth_error (rows_of (App.build_schedule sample_loan)) 1 = Some r1 ->
          payment_date r1 = Some (first_payment_date sample_loan)
          /\ days r1 = Some (Cal.days_between (first_payment_date sample_loan) start)).
Proof.
  apply (period0_row app_py sample_loan). vm_compute. reflexivity.
Defined.

(** C4 as stated fails in [app_par_actual.py]: on the sample loan its
    period-0 row is dated 2024-01-15, not the given interest-start date
    2024-01-11, and period 1 counts 31 days from there, not the 35 from
    the given date. *)
Lemma period0_date_not_the_input :
  interest_start_date sample_loan = Cal.mk_date 2024 1 11
  /\ option_map payment_date
       (nth_error (rows_of (AppParActual.build_schedule sample_loan)) 0)
     = Some (Some (Cal.mk_date 2024 1 15))
  /\ option_map days
       (nth_error (rows_of (AppParActual.build_schedule sample_loan)) 1)
     = Some (Some 31)
  /\ Cal.days_between (first_payment_date sample_loan)
                      (interest_start_date sample_loan) = 35.
Proof. vm_compute. repeat split. Qed.

(** ** Extra interest *)

Lemma daily_rate_amount_cents (rate b daily : Decimal) :
  daily_rate_amount rate b = Ok daily -> is_cents daily.
Proof.
  unfold daily_rate_amount. intros H. do 3 (bind_inv H).
  pose proof (DecFacts.quantize_cent_Ok _ _ H) as [Hq Hd].
  pose proof (DecFacts.quantize_cent_sign _ _ H) as (He & _).
  split; assumption.
Qed.

Lemma quantize_money_cents (a q : Decimal) :
  quantize_money a = Ok q -> is_cents q.
Proof.
  intros H.
  pose proof (DecFacts.quantize_cent_Ok _ _ H) as [Hq Hd].
  pose proof (DecFacts.quantize_cent_sign _ _ H) as (He & _).
  split; assumption.
Qed.

Lemma is_cents_money (d : Decimal) :
  is_cents d -> d = Dec.money (Dec.coef d) /\ Dec.ndigits (Dec.coef d) <= Dec.prec.
Proof.
  intros [He Hd]. destruct d as [c x]. cbn in *. subst x. split; [reflexivity|exact Hd].
Qed.

(** No days of proration, no extra interest: the amount is 0.00. *)
Lemma proration_zero_days (daily prod x : Decimal) :
  is_cents daily ->
  Dec.mul daily (Dec.of_int 0) = Ok prod ->
  quantize_money prod = Ok x ->
  x = Dec.zero.
Proof.
  intros Hc Hm Hq. apply is_cents_money in Hc. destruct Hc as [Hd _].
  rewrite Hd in Hm. unfold Dec.mul in Hm. cbn [Dec.money Dec.of_int Dec.coef Dec.exp] in Hm.
  rewrite Z.mul_0_r in Hm. cbn in Hm. injection Hm as <-.
  vm_compute in Hq. injection Hq as <-. reflexivity.
Qed.

(** C6 (as amended).  In a schedule [app.py] returns, [extra_interest]
    is unset on every row of period 1 and later; on the period-0 row it
    is set exactly when the input has a projected close date, to an
    amount in cents, which is 0.00 (not unset) when that date is on or
    after the interest-start date. *)
Theorem extra_interest_field (t : LoanTerms) (rows : list ScheduleRow) :
  App.build_schedule t = Ok rows ->
  exists r0,
    nth_error rows 0 = Some r0
    /\ (t_projected_close_date t = None -> extra_interest r0 = None)
    /\ (forall c, t_projected_close_date t = Some c ->
          exists x, extra_interest r0 = Some x
                    /\ is_cents x
                    /\ (Cal.days_between (interest_start_date t) c <= 0 ->
                        x = Dec.zero))
    /\ (forall k r, (1 <= k)%nat -> nth_error rows k = Some r ->
          extra_interest r = None).
Proof.
  intros H. apply (build_schedule_of_Ok app_py) in H.
  destruct H as (b & start & extra & rs & Hb & Hs & Hx & -> & Hchain).
  cbn in Hs. injection Hs as <-.
  exists (set_extra_interest (row0 t (interest_start_date t) b) extra).
  split; [reflexivity|]. apply proration_Ok in Hx.
  split; [|split].
  - intros Hn. rewrite Hn in Hx. subst extra. reflexivity.
  - intros c Hc. rewrite Hc in Hx.
    destruct Hx as (daily & prod & x & Hd & Hm & Hq & ->).
    exists x. split; [reflexivity|]. split; [eapply quantize_money_cents; exact Hq|].
    intros Hdays. rewrite Z.max_l in Hm by lia.
    eapply proration_zero_days; [eapply daily_rate_amount_cents; exact Hd | exact Hm | exact Hq].
  - intros k r Hk Hr. destruct k as [|k]; [lia|]. cbn in Hr.
    apply nth_error_In in Hr.
    assert (HF : Forall (fun r => extra_interest r = None) rs).
    { eapply chain_Forall; [|exact Hchain].
      intros b0 d0 p0 r0 d0' Hrow. eapply period_row_fields; exact Hrow. }
    rewrite Forall_forall in HF. apply HF. exact Hr.
Qed.

Lemma extra_interest_field_witness :
  exists r0,
    nth_error (rows_of (App.build_schedule sample_loan)) 0 = Some r0
    /\ (t_projected_close_date sample_loan = None -> extra_interest r0 = None)
    /\ (forall c, t_projected_close_date sample_loan = Some c ->
          exists x, extra_interest r0 = Some x
                    /\ is_cents x
                    /\ (Cal.days_between (interest_start_date sample_loan) c <= 0 ->
                        x = Dec.zero))
    /\ (forall k r, (1 <= k)%nat ->
          nth_error (rows_of (App.build_schedule sample_loan)) k = Some r ->
          extra_interest r = None).
Proof.
  apply (extra_interest_field sample_loan). vm_compute. reflexivity.
Defined.

(** C6 as stated fails: with the projected close date on the day
    interest starts, the period-0 row of [app.py] has [extra_interest]
    set, to 0.00. *)
Lemma extra_interest_set_to_zero :
  t_projected_close_date sample_loan_closing_late
    = Some (interest_start_date sample_loan_closing_late)
  /\ option_map extra_interest
       (nth_error (rows_of (App.build_schedule sample_loan_closing_late)) 0)
     = Some (Some Dec.zero).
Proof. vm_compute. repeat split. Qed.

(** ** The two engines *)

Lemma loop_body_with_interest_start (t : LoanTerms) (d : date)
    (extra : option Decimal) (st : loop_state) (p : Z) :
  loop_body (with_interest_start t d) extra st p = loop_body t extra st p.
Proof. destruct t. reflexivity. Qed.

Lemma run_loop_with_interest_start (t : LoanTerms) (d : date)
    (extra : option Decimal) (ps : list Z) :
  forall st, run_loop (with_interest_start t d) extra st ps = run_loop t extra st ps.
Proof.
  induction ps as [|p ps IH]; intros st; cbn [run_loop]; [reflexivity|].
  rewrite loop_body_with_interest_start.
  destruct (loop_body t extra st p); cbn [bind]; [apply IH | reflexivity].
Qed.

Lemma schedule_tail_with_interest_start (t : LoanTerms) (d start : date) (b : Decimal) :
  schedule_tail (with_interest_start t d) start b = schedule_tail t start b.
Proof.
  unfold schedule_tail.
  replace (proration (with_interest_start t d) start b) with (proration t start b)
    by (destruct t; reflexivity).
  replace (row0 (with_interest_start t d) start b) with (row0 t start b)
    by (destruct t; reflexivity).
  replace (periods_months (with_interest_start t d)) with (periods_months t)
    by (destruct t; reflexivity).
  destruct (proration t start b) as [extra|]; cbn [bind]; [|reflexivity].
  rewrite run_loop_with_interest_start. reflexivity.
Qed.

(** The date on the period-0 row is the start of interest the engine
    works from. *)
Lemma period0_payment_date (e : engine) (t : LoanTerms) (rows : list ScheduleRow) :
  build_schedule_of e t = Ok rows ->
  exists start,
    interest_start_of e t = Ok start
    /\ option_map payment_date (nth_error rows 0) = Some (Some start).
Proof.
  intros H. apply build_schedule_of_Ok in H.
  destruct H as (b & start & extra & rs & _ & Hs & _ & -> & _).
  exists start. split; [exact Hs | reflexivity].
Qed.

(** C5 (as amended).  [app_par_actual.py] does not read the given
    interest-start date: it returns what [app.py] returns on the same
    terms with the interest-start date replaced by the one it derives, so
    the two engines return the same rows when the given date is that
    derived date; when both return and the dates differ, the rows differ. *)
Theorem engines_agree_on_derived_start (t : LoanTerms) (start : date) :
  AppParActual.actual_interest_start_date t = Ok start ->
  AppParActual.build_schedule t = App.build_schedule (with_interest_start t start)
  /\ (start = interest_start_date t ->
      AppParActual.build_schedule t = App.build_schedule t)
  /\ (start <> interest_start_date t ->
      forall rows rows',
        App.build_schedule t = Ok rows ->
        AppParActual.build_schedule t = Ok rows' ->
        rows <> rows').
Proof.
  intros Hs.
  assert (Heq : AppParActual.build_schedule t
                = App.build_schedule (with_interest_start t start)).
  { unfold AppParActual.build_schedule, App.build_schedule.
    replace (loan_amount (with_interest_start t start)) with (loan_amount t)
      by (destruct t; reflexivity).
    destruct (quantize_money (loan_amount t)) as [b|]; cbn [bind]; [|reflexivity].
    rewrite Hs. cbn [bind].
    rewrite schedule_tail_with_interest_start.
    destruct t; reflexivity. }
  split; [exact Heq|]. split.
  - intros ->. rewrite Heq. f_equal. destruct t; reflexivity.
  - intros Hne rows rows' H1 H2 <-.
    destruct (period0_payment_date app_py t rows H1) as (s1 & Hs1 & Hd1).
    destruct (period0_payment_date app_par_actual_py t rows H2) as (s2 & Hs2 & Hd2).
    cbn in Hs1, Hs2. congruence.
Qed.

Lemma engines_agree_on_derived_start_witness :
  AppParActual.build_schedule sample_loan
  = App.build_schedule (with_interest_start sample_loan (Cal.mk_date 2024 1 15)).
Proof.
  apply (engines_agree_on_derived_start sample_loan (Cal.mk_date 2024 1 15)).
  vm_compute. reflexivity.
Defined.

(** C5 as stated fails: on the sample loan the two engines return
    different rows; the period-0 rows are dated 2024-01-11 and
    2024-01-15 and carry 164.40 and 230.16 of extra interest. *)
Lemma engines_differ :
  App.build_schedule sample_loan <> AppParActual.build_schedule sample_loan
  /\ option_map payment_date (nth_error (rows_of (App.build_schedule sample_loan)) 0)
     = Some (Some (Cal.mk_date 2024 1 11))
  /\ option_map payment_date
       (nth_error (rows_of (AppParActual.build_schedule sample_loan)) 0)
     = Some (Some (Cal.mk_date 2024 1 15))
  /\ option_map extra_interest (nth_error (rows_of (App.build_schedule sample_loan)) 0)
     = Some (Some (Dec.money 16440))
  /\ option_map extra_interest
       (nth_error (rows_of (AppParActual.build_schedule sample_loan)) 0)
     = Some (Some (Dec.money 23016)).
Proof.
  split; [|vm_compute; repeat split].
  intros H. apply (f_equal (fun r => option_map payment_date (nth_error (rows_of r) 0))) in H.
  vm_compute in H. discriminate.
Qed.

(** ** The final period *)

Lemma fold_interest_cents (extra : option Decimal) (p : Z) (int0 int1 : Decimal) :
  is_cents int0 -> fold_interest extra p int0 = Ok int1 -> is_cents int1.
Proof.
  intros Hc. unfold fold_interest. destruct extra as [x|].
  - destruct (p =? 1).
    + intros H. bind_inv H. eapply quantize_money_cents; exact H.
    + intros H. injection H as <-. exact Hc.
  - intros H. injection H as <-. exact Hc.
Qed.

Lemma period_row_cents (t : LoanTerms) (extra : option Decimal)
    (b : Decimal) (d : date) (p : Z) (r : ScheduleRow) (d' : date) :
  period_row t extra b d p r d' ->
  is_cents (ending_balance r)
  /\ exists i, interest r = Some i /\ is_cents i.
Proof.
  intros H. destruct H. cbn. split.
  - match goal with Hc : close_balance _ _ = Ok _ |- _ =>
      apply close_balance_Ok in Hc;
      destruct Hc as (rest & q & _ & _ & _ & _ & Hcents & _)
    end. exact Hcents.
  - eexists. split; [reflexivity|].
    eapply fold_interest_cents; [|eassumption].
    eapply quantize_money_cents; eassumption.
Qed.

(** The period that settles the loan: its payment is the balance plus
    the interest, and while that sum fits the precision nothing is left. *)
Lemma final_period_row (t : LoanTerms) (extra : option Decimal)
    (b : Decimal) (d : date) (r : ScheduleRow) (d' : date) :
  is_cents b ->
  period_row t extra b d (periods_months t) r d' ->
  exists i p,
    interest r = Some i /\ payment r = Some p
    /\ Dec.add (beginning_balance r) i = Ok p
    /\ is_cents (beginning_balance r) /\ is_cents i
    /\ (Dec.ndigits (Dec.coef (beginning_balance r) + Dec.coef i) <= Dec.prec ->
        p = Dec.money (Dec.coef (beginning_balance r) + Dec.coef i)
        /\ ending_balance r = Dec.zero).
Proof.
  intros Hb H. pose proof (period_row_cents _ _ _ _ _ _ _ H) as (_ & i' & Hi' & Hic).
  destruct H as [pd daily accrued int0 int1 pay0 pay1 princ eb
                   H1 H2 H3 H4 H5 H6 H7 H8 H9].
  cbn in *. injection Hi' as <-.
  unfold settle_payment in H7. rewrite Z.eqb_refl in H7.
  exists int1, pay1. repeat (split; [first [reflexivity | assumption]|]).
  intros Hfit.
  destruct (is_cents_money _ Hb) as [Eb Hbd].
  destruct (is_cents_money _ Hic) as [Ei Hid].
  set (cb := Dec.coef b) in *. set (ci := Dec.coef int1) in *.
  rewrite Eb, Ei in H7. rewrite DecFacts.add_money in H7 by exact Hfit.
  injection H7 as <-. split; [reflexivity|].
  rewrite Ei in H8. rewrite DecFacts.sub_money in H8
    by (replace (cb + ci - ci) with cb by lia; exact Hbd).
  injection H8 as <-. replace (cb + ci - ci) with cb in H9 by lia.
  unfold close_balance in H9. rewrite Eb in H9.
  rewrite DecFacts.sub_money in H9 by (rewrite Z.sub_diag; vm_compute; discriminate).
  rewrite Z.sub_diag in H9. vm_compute in H9. injection H9 as <-. reflexivity.
Qed.

Lemma chain_cents (t : LoanTerms) (extra : option Decimal) (ps : list Z) :
  forall b d rs,
    schedule_chain t extra b d ps rs ->
    Forall (fun r => is_cents (ending_balance r)) rs.
Proof.
  apply chain_Forall. intros b d p r d' H.
  eapply period_row_cents; exact H.
Qed.

(** C2 (as amended).  In a returned schedule of [N >= 1] periods the
    row of period [N] has as payment the decimal sum of its beginning
    balance and its interest, whatever the nominal payment and the extra
    interest; both are amounts in cents, and whenever their sum has at
    most 28 digits the payment is that sum exactly and the ending balance
    is 0.00. *)
Theorem final_period_payoff (e : engine) (t : LoanTerms) (rows : list ScheduleRow) :
  build_schedule_of e t = Ok rows ->
  1 <= periods_months t ->
  exists r i p,
    nth_error rows (Z.to_nat (periods_months t)) = Some r
    /\ period r = periods_months t
    /\ interest r = Some i /\ payment r = Some p
    /\ Dec.add (beginning_balance r) i = Ok p
    /\ is_cents (beginning_balance r) /\ is_cents i
    /\ (Dec.ndigits (Dec.coef (beginning_balance r) + Dec.coef i) <= Dec.prec ->
        p = Dec.money (Dec.coef (beginning_balance r) + Dec.coef i)
        /\ ending_balance r = Dec.zero).
Proof.
  intros H HN. apply build_schedule_of_Ok in H.
  destruct H as (b & start & extra & rs & Hb & _ & _ & -> & Hchain).
  apply quantize_money_cents in Hb.
  rewrite (range1_last _ HN) in Hchain.
  apply chain_snoc in Hchain.
  destruct Hchain as (rs' & r & b' & d' & d'' & -> & Hc' & Hrow & Hb').
  assert (Hcents : is_cents b').
  { destruct Hb' as [->|(r' & Hin & ->)]; [exact Hb|].
    pose proof (chain_cents _ _ _ _ _ _ Hc') as HF.
    rewrite Forall_forall in HF. apply HF. exact Hin. }
  destruct (final_period_row _ _ _ _ _ _ Hcents Hrow) as (i & p & Hrest).
  exists r, i, p. split.
  - pose proof (chain_length _ _ _ _ _ _ Hc') as Hlen.
    rewrite range1_length in Hlen.
    replace (Z.to_nat (periods_months t)) with (S (length rs')) by lia.
    cbn [nth_error]. rewrite nth_error_app2 by lia.
    rewrite Nat.sub_diag. reflexivity.
  - split; [eapply period_row_fields; exact Hrow | exact Hrest].
Qed.

Lemma final_period_payoff_witness :
  exists r i p,
    nth_error (rows_of (AppParActual.build_schedule sample_loan))
              (Z.to_nat (periods_months sample_loan)) = Some r
    /\ period r = periods_months sample_loan
    /\ interest r = Some i /\ payment r = Some p
    /\ Dec.add (beginning_balance r) i = Ok p
    /\ is_cents (beginning_balance r) /\ is_cents i
    /\ (Dec.ndigits (Dec.coef (beginning_balance r) + Dec.coef i) <= Dec.prec ->
        p = Dec.money (Dec.coef (beginning_balance r) + Dec.coef i)
        /\ ending_balance r = Dec.zero).
Proof.
  apply (final_period_payoff app_par_actual_py sample_loan).
  - vm_compute. reflexivity.
  - vm_compute. discriminate.
Defined.

(** C2 as stated fails at the edge of the precision: for a one-period
    loan of 99999999999999999999999999.99 with 0.05 of interest, the sum
    has 29 digits, the payment is rounded to 100000000000000000000000000.0,
    which is less than the sum, and the schedule ends on a balance of
    0.04. *)
Lemma final_balance_not_zero :
  1 <= periods_months loan_at_precision
  /\ map (fun r => (period r, beginning_balance r, interest r, payment r,
                    ending_balance r))
       (rows_of (App.build_schedule loan_at_precision))
     = [ (0, Dec.money (10 ^ 28 - 1), None, None, Dec.money (10 ^ 28 - 1));
         (1, Dec.money (10 ^ 28 - 1), Some (Dec.money 5),
          Some (Dec.mk (10 ^ 27) (-1)), Dec.money 4) ]
  /\ Dec.cmp (Dec.mk (10 ^ 27) (-1)) (Dec.money (10 ^ 28 - 1 + 5)) = Lt
  /\ Dec.eqb (Dec.money 4) Dec.zero = false.
Proof. vm_compute. repeat split. discriminate. Qed.

(** ** Extra interest and the first period *)

Lemma first_period_with_extra (t : LoanTerms) (x b : Decimal) (start : date)
    (r1 : ScheduleRow) (d : date) (daily : Decimal) :
  daily_rate_amount (annual_rate_percent t) b = Ok daily ->
  period_row t (Some x) b start 1 r1 d ->
  exists accrued int0 s int1 pay0 pay1,
    daily_interest r1 = Some daily
    /\ Dec.mul daily
         (Dec.of_int (Cal.days_between (first_payment_date t) start)) = Ok accrued
    /\ quantize_money accrued = Ok int0
    /\ Dec.add int0 x = Ok s /\ quantize_money s = Ok int1
    /\ interest r1 = Some int1
    /\ Dec.add (monthly_payment t) x = Ok pay0
    /\ settle_payment t 1 b int1 pay0 = Ok pay1
    /\ payment r1 = Some pay1
    /\ (periods_months t <> 1 ->
        forall owed, Dec.add b int1 = Ok owed -> Dec.gtb pay0 owed = false ->
                     pay1 = pay0)
    /\ (periods_months t = 1 \/
        (exists owed, Dec.add b int1 = Ok owed /\ Dec.gtb pay0 owed = true) ->
        Dec.add b int1 = Ok pay1).
Proof.
  intros Hd H.
  destruct H as [pd daily' accrued int0 int1 pay0 pay1 princ eb
                   H1 H2 H3 H4 H5 H6 H7 H8 H9].
  cbn in H1. injection H1 as <-.
  assert (daily' = daily) by congruence. subst daily'.
  unfold fold_interest in H5. unfold nominal_payment in H6.
  change (1 =? 1) with true in H5, H6. cbv iota in H5, H6. bind_inv H5.
  exists accrued, int0, v, int1, pay0, pay1. cbn [daily_interest interest payment].
  repeat (split; [first [reflexivity | assumption]|]).
  pose proof H7 as H7'. unfold settle_payment in H7'. split.
  - intros Hne owed Ho Hg.
    destruct (1 =? periods_months t) eqn:E1; bool_to_Z; [congruence|].
    rewrite Ho in H7'. cbn [bind] in H7'. rewrite Hg in H7'. congruence.
  - intros [HN|(owed & Ho & Hg)].
    + destruct (1 =? periods_months t) eqn:E1; bool_to_Z; [exact H7' | congruence].
    + destruct (1 =? periods_months t); [exact H7'|].
      rewrite Ho in H7'. cbn [bind] in H7'. rewrite Hg in H7'. congruence.
Qed.

(** C3 (as amended).  With a projected close date [c], the extra
    interest is [quantize_money(daily * max(0, start - c))] for the daily
    amount [quantize_money((rate / 100) * balance / 365)] on the rounded
    principal, and it is what the period-0 row of a returned schedule
    holds.  Period 1 has the same daily amount; its interest is its own
    day-count interest plus the extra interest, quantized again; its
    payment is the nominal payment plus the extra interest, unless
    period 1 is the last period or that sum exceeds balance plus interest,
    when it is balance plus interest.  [start] is the input's
    interest-start date in [app.py] and the derived date in
    [app_par_actual.py].  For 100000.00 at 6.00% closing on 2024-01-01
    with interest from 2024-01-11, [app.py] has a daily amount of 16.44
    and 164.40 of extra interest. *)
Theorem extra_interest_proration (e : engine) (t : LoanTerms)
    (rows : list ScheduleRow) (c : date) :
  build_schedule_of e t = Ok rows ->
  t_projected_close_date t = Some c ->
  exists start b daily prod x,
    interest_start_of e t = Ok start
    /\ (e = app_py -> start = interest_start_date t)
    /\ quantize_money (loan_amount t) = Ok b
    /\ daily_rate_amount (annual_rate_percent t) b = Ok daily
    /\ Dec.mul daily (Dec.of_int (Z.max 0 (Cal.days_between start c))) = Ok prod
    /\ quantize_money prod = Ok x
    /\ option_map extra_interest (nth_error rows 0) = Some (Some x)
    /\ (forall r1, nth_error rows 1 = Some r1 ->
        exists accrued int0 s int1 pay0 pay1,
          daily_interest r1 = Some daily
          /\ Dec.mul daily
               (Dec.of_int (Cal.days_between (first_payment_date t) start)) = Ok accrued
          /\ quantize_money accrued = Ok int0
          /\ Dec.add int0 x = Ok s /\ quantize_money s = Ok int1
          /\ interest r1 = Some int1
          /\ Dec.add (monthly_payment t) x = Ok pay0
          /\ settle_payment t 1 b int1 pay0 = Ok pay1
          /\ payment r1 = Some pay1
          /\ (periods_months t <> 1 ->
              forall owed, Dec.add b int1 = Ok owed -> Dec.gtb pay0 owed = false ->
                           pay1 = pay0)
          /\ (periods_months t = 1 \/
              (exists owed, Dec.add b int1 = Ok owed /\ Dec.gtb pay0 owed = true) ->
              Dec.add b int1 = Ok pay1))
    /\ (e = app_py ->
        loan_amount t = Dec.money 10000000 ->
        annual_rate_percent t = Dec.mk 600 (-2) ->
        c = Cal.mk_date 2024 1 1 ->
        interest_start_date t = Cal.mk_date 2024 1 11 ->
        daily = Dec.money 1644 /\ x = Dec.money 16440).
Proof.
  intros H Hc. pose proof H as H'. apply build_schedule_of_Ok in H.
  destruct H as (b & start & extra & rs & Hb & Hs & Hx & -> & Hchain).
  pose proof (proration_Ok _ _ _ _ Hx) as Hp. rewrite Hc in Hp.
  destruct Hp as (daily & prod & x & Hd & Hm & Hq & ->).
  exists start, b, daily, prod, x.
  split; [exact Hs|].
  split; [intros ->; cbn in Hs; congruence|].
  do 4 (split; [assumption|]).
  split; [reflexivity|]. split.
  - intros r1 H1.
    destruct (first_period_row _ _ _ _ H' H1) as (b' & s' & x' & d & Hb' & Hs' & Hx' & Hrow).
    assert (b' = b) by congruence. subst b'.
    assert (s' = start) by congruence. subst s'.
    assert (x' = Some x) by congruence. subst x'.
    eapply first_period_with_extra; eassumption.
  - intros -> Hl Hr -> Hi. cbn in Hs. injection Hs as <-.
    rewrite Hl in Hb. vm_compute in Hb. injection Hb as <-.
    rewrite Hr in Hd. vm_compute in Hd. injection Hd as <-.
    rewrite Hi in Hm. vm_compute in Hm. injection Hm as <-.
    vm_compute in Hq. injection Hq as <-. split; reflexivity.
Qed.

Lemma extra_interest_proration_witness :
  exists start b daily prod x,
    interest_start_of app_py sample_loan = Ok start
    /\ (app_py = app_py -> start = interest_start_date sample_loan)
    /\ quantize_money (loan_amount sample_loan) = Ok b
    /\ daily_rate_amount (annual_rate_percent sample_loan) b = Ok daily
    /\ Dec.mul daily (Dec.of_int (Z.max 0 (Cal.days_between start (Cal.mk_date 2024 1 1))))
       = Ok prod
    /\ quantize_money prod = Ok x
    /\ option_map extra_interest (nth_error (rows_of (App.build_schedule sample_loan)) 0)
       = Some (Some x)
    /\ (forall r1, nth_error (rows_of (App.build_schedule sample_loan)) 1 = Some r1 ->
        exists accrued int0 s int1 pay0 pay1,
          daily_interest r1 = Some daily
          /\ Dec.mul daily
               (Dec.of_int (Cal.days_between (first_payment_date sample_loan) start))
             = Ok accrued
          /\ quantize_money accrued = Ok int0
          /\ Dec.add int0 x = Ok s /\ quantize_money s = Ok int1
          /\ interest r1 = Some int1
          /\ Dec.add (monthly_payment sample_loan) x = Ok pay0
          /\ settle_payment sample_loan 1 b int1 pay0 = Ok pay1
          /\ payment r1 = Some pay1
          /\ (periods_months sample_loan <> 1 ->
              forall owed, Dec.add b int1 = Ok owed -> Dec.gtb pay0 owed = false ->
                           pay1 = pay0)
          /\ (periods_months sample_loan = 1 \/
              (exists owed, Dec.add b int1 = Ok owed /\ Dec.gtb pay0 owed = true) ->
              Dec.add b int1 = Ok pay1))
    /\ (app_py = app_py ->
        loan_amount sample_loan = Dec.money 10000000 ->
        annual_rate_percent sample_loan = Dec.mk 600 (-2) ->
        Cal.mk_date 2024 1 1 = Cal.mk_date 2024 1 1 ->
        interest_start_date sample_loan = Cal.mk_date 2024 1 11 ->
        daily = Dec.money 1644 /\ x = Dec.money 16440).
Proof.
  apply (extra_interest_proration app_py sample_loan).
  - vm_compute. reflexivity.
  - reflexivity.
Defined.

(** C3 as stated fails.  On the sample loan [app_par_actual.py] counts
    the extra days to 2024-01-15, the date it derives, and stores 230.16,
    not the 164.40 that ten days to the given interest-start date make;
    and in [app.py], when period 1 is also the last period, its payment
    is balance plus interest, 100739.80, not the nominal payment plus the
    extra interest, 34164.40. *)
Lemma extra_interest_not_as_stated :
  t_projected_close_date sample_loan = Some (Cal.mk_date 2024 1 1)
  /\ interest_start_date sample_loan = Cal.mk_date 2024 1 11
  /\ option_map extra_interest
       (nth_error (rows_of (AppParActual.build_schedule sample_loan)) 0)
     = Some (Some (Dec.money 23016))
  /\ option_map extra_interest
       (nth_error (rows_of (App.build_schedule sample_loan_single)) 0)
     = Some (Some (Dec.money 16440))
  /\ option_map payment
       (nth_error (rows_of (App.build_schedule sample_loan_single)) 1)
     = Some (Some (Dec.money 10073980))
  /\ Dec.add (monthly_payment sample_loan_single) (Dec.money 16440)
     = Ok (Dec.money 3416440).
Proof. vm_compute. repeat split. Qed.

(** ** The rows of a schedule *)

Lemma periods_of_rows (e : engine) (t : LoanTerms) (rows : list ScheduleRow) :
  build_schedule_of e t = Ok rows ->
  map period rows = 0 :: range1 (periods_months t).
Proof.
  intros H. apply build_schedule_of_Ok in H.
  destruct H as (b & start & extra & rs & _ & _ & _ & -> & Hchain).
  cbn [map]. f_equal. eapply chain_periods; exact Hchain.
Qed.

Lemma zero_range1_nth (n : Z) (k : nat) (p : Z) :
  nth_error (0 :: range1 n) k = Some p -> p = Z.of_nat k.
Proof.
  destruct k as [|k]; cbn [nth_error]; intros H;
    [injection H as <-; reflexivity|].
  assert (Hlt : (k < Z.to_nat n)%nat).
  { rewrite <- range1_length. apply nth_error_Some. congruence. }
  rewrite (range1_nth n k Hlt) in H. congruence.
Qed.

(** With no periods the engine of [app.py] does the period-0 work and
    nothing else. *)
Lemma build_schedule_no_periods (t : LoanTerms) :
  periods_months t <= 0 ->
  App.build_schedule t =
  (balance <- quantize_money (loan_amount t) ;;
   extra <- proration t (interest_start_date t) balance ;;
   Ok [set_extra_interest (row0 t (interest_start_date t) balance) extra]).
Proof.
  intros HN. unfold App.build_schedule, schedule_tail.
  rewrite (range1_nonpos _ HN). cbn [run_loop bind].
  destruct (quantize_money (loan_amount t)) as [b|]; cbn [bind]; [|reflexivity].
  destruct (proration t (interest_start_date t) b) as [[x|]|]; reflexivity.
Qed.

(** C1 (as amended).  A schedule that [app.py] returns has exactly
    [N + 1] rows for a term of [N >= 1] periods and exactly the period-0
    row for [N <= 0], and its k-th row has period index k, so the indices
    are 0, 1, ..., N in increasing order.  The engine does not always
    return: it raises a decimal trap, when an amount outgrows the
    28-digit context, or else what the resolver raises at some period
    from 2 to N whose payment date it cannot make (cycle day below 1, or
    a month outside the years 1..9999): OverflowError when the cycle day
    or the year of that month does not fit a C int (the cycle day below
    -2^31, the year outside -2^31 .. 2^31 - 1), ValueError when they do;
    and it raises nothing else.  It does return, with those
    [N + 1] rows, for every loan within the context ([within_context]:
    amounts in cents, non-negative rate and payment, payment dates of the
    calendar, interest starting by the first payment, and 28 digits
    enough for the balance at its largest possible growth); and with
    [N <= 0], no projected close date and a principal in cents of at most
    28 digits it returns the period-0 row. *)
Theorem schedule_rows_and_periods (t : LoanTerms) :
  (forall rows, App.build_schedule t = Ok rows ->
     length rows = S (Z.to_nat (periods_months t))
     /\ (forall k r, nth_error rows k = Some r -> period r = Z.of_nat k)
     /\ (1 <= periods_months t ->
         Z.of_nat (length rows) = periods_months t + 1)
     /\ (periods_months t <= 0 -> exists r0, rows = [r0] /\ period r0 = 0))
  /\ (forall e, App.build_schedule t = Raise e ->
        decimal_trap e
        \/ exists p,
             2 <= p <= periods_months t /\ resolver_fails t p
             /\ (e = ValueError \/ e = OverflowError)
             /\ (e = OverflowError <-> resolver_overflows t p))
  /\ (within_context t = true ->
      exists rows,
        App.build_schedule t = Ok rows
        /\ length rows = S (Z.to_nat (periods_months t)))
  /\ (periods_months t <= 0 ->
      t_projected_close_date t = None ->
      forall c, loan_amount t = Dec.money c -> Dec.ndigits c <= Dec.prec ->
      App.build_schedule t = Ok [row0 t (interest_start_date t) (Dec.money c)]).
Proof.
  assert (Hlen : forall rows, App.build_schedule t = Ok rows ->
            length rows = S (Z.to_nat (periods_months t))).
  { intros rows H. pose proof (periods_of_rows app_py t rows H) as Hp.
    rewrite <- (length_map period), Hp. cbn [length].
    rewrite range1_length. reflexivity. }
  split; [|split; [|split]].
  - intros rows H. pose proof (periods_of_rows app_py t rows H) as Hp.
    pose proof (Hlen rows H) as Hl.
    split; [exact Hl|]. split; [|split].
    + intros k r Hk. apply (zero_range1_nth (periods_months t)).
      rewrite <- Hp, nth_error_map, Hk. reflexivity.
    + intros HN. rewrite Hl. lia.
    + intros HN. destruct rows as [|r0 [|r1 rows]]; cbn in Hl; try lia.
      exists r0. split; [reflexivity|].
      cbn [map] in Hp. injection Hp as Hp0 _. exact Hp0.
  - intros e H. unfold App.build_schedule in H.
    raise_inv H; [left; eapply quantize_money_Raise; exact H|].
    eapply schedule_tail_Raise; exact H.
  - intros Hw. destruct (build_schedule_returns t Hw) as (rows & Hrows).
    exists rows. split; [exact Hrows | apply Hlen; exact Hrows].
  - intros HN Hpcd c Hc Hd. rewrite (build_schedule_no_periods _ HN).
    rewrite Hc. unfold quantize_money.
    rewrite (DecFacts.quantize_cent_money c Hd). cbn [bind].
    unfold proration. rewrite Hpcd. reflexivity.
Qed.

Lemma schedule_rows_and_periods_witness :
  (exists rows,
     App.build_schedule sample_mortgage = Ok rows /\ length rows = 361%nat)
  /\ length (rows_of (App.build_schedule sample_loan)) = 4%nat
  /\ (forall k r, nth_error (rows_of (App.build_schedule sample_loan)) k = Some r ->
        period r = Z.of_nat k).
Proof.
  split.
  - apply (proj1 (proj2 (proj2 (schedule_rows_and_periods sample_mortgage)))).
    vm_compute. reflexivity.
  - destruct (proj1 (schedule_rows_and_periods sample_loan)
                (rows_of (App.build_schedule sample_loan)))
      as (Hlen & Hidx & _).
    + vm_compute. reflexivity.
    + split; [exact Hlen | exact Hidx].
Defined.

(** C1 as stated fails: a loan of no periods whose principal has 30
    digits makes [quantize_money] raise, a two-period loan whose second
    payment would fall in year 10000 makes the resolver raise, and a
    two-period loan with the cycle day -3000000000 makes [date] raise
    OverflowError. *)
Lemma schedule_not_always_returned :
  periods_months loan_too_large <= 0
  /\ App.build_schedule loan_too_large = Raise InvalidOperation
  /\ 1 <= periods_months loan_past_calendar
  /\ App.build_schedule loan_past_calendar = Raise ValueError
  /\ 1 <= periods_months loan_beyond_c_int
  /\ App.build_schedule loan_beyond_c_int = Raise OverflowError.
Proof. vm_compute. repeat split; discriminate. Qed.

(** * Further properties of the code *)

(** ** Dates and day counts along a schedule *)

Lemma chain_dates (t : LoanTerms) (extra : option Decimal) (ps : list Z) :
  forall b d rs,
    schedule_chain t extra b d ps rs ->
    forall (r0 : ScheduleRow) (k : nat) (r1 r2 : ScheduleRow),
      payment_date r0 = Some d ->
      nth_error (r0 :: rs) k = Some r1 ->
      nth_error (r0 :: rs) (S k) = Some r2 ->
      exists d1 d2,
        payment_date r1 = Some d1 /\ payment_date r2 = Some d2
        /\ days r2 = Some (Cal.days_between d2 d1).
Proof.
  induction ps as [|p ps IH]; intros b d rs H r0 k r1 r2 H0 H1 H2;
    inversion H; subst.
  - destruct k; cbn in H2; [discriminate | destruct k; discriminate].
  - match goal with Hrow : period_row _ _ _ _ _ _ _ |- _ =>
      pose proof (period_row_fields _ _ _ _ _ _ _ Hrow)
        as (_ & _ & Hpd & Hdays & _)
    end.
    destruct k as [|k].
    + cbn in H1, H2. injection H1 as <-. injection H2 as <-.
      eexists. eexists. repeat split; eassumption.
    + cbn [nth_error] in H1.
      change (nth_error (r0 :: r :: rs0) (S (S k)))
        with (nth_error (r :: rs0) (S k)) in H2.
      eapply IH; eassumption.
Qed.

Lemma row0_payment_date (t : LoanTerms) (start : date) (b : Decimal)
    (extra : option Decimal) :
  payment_date (set_extra_interest (row0 t start b) extra) = Some start.
Proof. reflexivity. Qed.

(** X1.  In a returned schedule every row after the first counts its
    days from the payment date of the row before it: both rows have a
    payment date, and [days] is the difference of the two. *)
Theorem days_counted_from_previous_row (e : engine) (t : LoanTerms)
    (rows : list ScheduleRow) (k : nat) (r1 r2 : ScheduleRow) :
  build_schedule_of e t = Ok rows ->
  nth_error rows k = Some r1 ->
  nth_error rows (S k) = Some r2 ->
  exists d1 d2,
    payment_date r1 = Some d1 /\ payment_date r2 = Some d2
    /\ days r2 = Some (Cal.days_between d2 d1).
Proof.
  intros H H1 H2. apply build_schedule_of_Ok in H.
  destruct H as (b & start & extra & rs & _ & _ & _ & -> & Hchain).
  eapply chain_dates; [exact Hchain | apply row0_payment_date | exact H1 | exact H2].
Qed.

Lemma days_counted_from_previous_row_witness :
  exists r1 r2 d1 d2,
    nth_error (rows_of (App.build_schedule sample_loan)) 1 = Some r1
    /\ nth_error (rows_of (App.build_schedule sample_loan)) 2 = Some r2
    /\ payment_date r1 = Some d1 /\ payment_date r2 = Some d2
    /\ days r2 = Some (Cal.days_between d2 d1).
Proof.
  destruct (nth_error (rows_of (App.build_schedule sample_loan)) 1) as [r1|] eqn:E1;
    [|vm_compute in E1; discriminate].
  destruct (nth_error (rows_of (App.build_schedule sample_loan)) 2) as [r2|] eqn:E2;
    [|vm_compute in E2; discriminate].
  destruct (days_counted_from_previous_row app_py sample_loan
              (rows_of (App.build_schedule sample_loan)) 1 r1 r2)
    as (d1 & d2 & H1 & H2 & H3);
    [vm_compute; reflexivity | exact E1 | exact E2 |].
  exists r1, r2, d1, d2. repeat split; assumption.
Defined.
(** ** Payment dates *)

Lemma chain_payment_dates (t : LoanTerms) (extra : option Decimal) (ps : list Z) :
  forall b d rs,
    schedule_chain t extra b d ps rs ->
    Forall (fun r => exists pd, payment_date_of t (period r) = Ok pd
                                /\ payment_date r = Some pd) rs.
Proof.
  apply chain_Forall. intros b d p r d' H. destruct H. cbn.
  eexists. split; [eassumption | reflexivity].
Qed.

Lemma row_payment_date (e : engine) (t : LoanTerms) (rows : list ScheduleRow)
    (k : nat) (r : ScheduleRow) :
  build_schedule_of e t = Ok rows ->
  nth_error rows (S k) = Some r ->
  exists pd, payment_date_of t (Z.of_nat (S k)) = Ok pd /\ payment_date r = Some pd.
Proof.
  intros H Hr.
  pose proof (periods_of_rows e t rows H) as Hper.
  assert (Hp : period r = Z.of_nat (S k)).
  { apply (zero_range1_nth (periods_months t)). rewrite <- Hper.
    rewrite nth_error_map, Hr. reflexivity. }
  apply build_schedule_of_Ok in H.
  destruct H as (b & start & extra & rs & _ & _ & _ & -> & Hchain).
  cbn [nth_error] in Hr. apply nth_error_In in Hr.
  pose proof (chain_payment_dates _ _ _ _ _ _ Hchain) as HF.
  rewrite Forall_forall in HF. destruct (HF r Hr) as (pd & H1 & H2).
  exists pd. rewrite <- Hp. split; assumption.
Qed.

(** Two dates on the same cycle day in consecutive months are 28 to 31
    days apart. *)
Lemma cycle_day_step (b : date) (k cd : Z) :
  1 <= cd ->
  let d1 := Cal.mk_date (target_year b k) (target_month b k)
              (Z.min cd (Cal.days_in_month (target_year b k) (target_month b k))) in
  let d2 := Cal.mk_date (target_year b (k + 1)) (target_month b (k + 1))
              (Z.min cd (Cal.days_in_month (target_year b (k + 1))
                                           (target_month b (k + 1)))) in
  28 <= Cal.days_between d2 d1 <= 31.
Proof.
  intros Hcd. cbv zeta.
  pose proof (CalFacts.target_month_range b k) as Hm.
  pose proof (CalFacts.target_month_range b (k + 1)) as Hm'.
  pose proof (CalFacts.days_in_month_range (target_year b k) _ Hm) as Hd.
  pose proof (CalFacts.days_in_month_range (target_year b (k + 1)) _ Hm') as Hd'.
  pose proof (CalSteps.month_step (target_year b k) (target_month b k) Hm) as Hs.
  cbv zeta in Hs.
  destruct (CalSteps.target_step b k) as [Hy Hmm]. rewrite <- Hy, <- Hmm in Hs.
  unfold Cal.days_between, Cal.toordinal. cbn [Cal.year Cal.month Cal.day]. lia.
Qed.

(** X2.  From the third payment on, a row of a returned schedule counts
    between 28 and 31 days, the distance between the cycle days of two
    consecutive months; the second payment, which follows the first
    payment date as it was given, counts between 1 and 61. *)
Theorem days_between_payments (e : engine) (t : LoanTerms)
    (rows : list ScheduleRow) (k : nat) (r : ScheduleRow) :
  build_schedule_of e t = Ok rows ->
  nth_error rows k = Some r ->
  (2 <= k)%nat ->
  exists n,
    days r = Some n
    /\ ((3 <= k)%nat -> 28 <= n <= 31)
    /\ (Cal.valid_date (first_payment_date t) = true -> 1 <= n <= 61).
Proof.
  intros H Hr Hk.
  destruct k as [|[|k]]; try lia.
  assert (Hprev : exists r', nth_error rows (S k) = Some r').
  { destruct (nth_error rows (S k)) as [r'|] eqn:E; [eauto|].
    apply nth_error_None in E.
    assert (nth_error rows (S (S k)) <> None) by congruence.
    apply nth_error_Some in H0. lia. }
  destruct Hprev as (r' & Hr').
  destruct (row_payment_date e t rows _ _ H Hr) as (d2 & Hd2 & Hp2).
  destruct (row_payment_date e t rows _ _ H Hr') as (d1 & Hd1 & Hp1).
  assert (Hdays : days r = Some (Cal.days_between d2 d1)).
  { apply build_schedule_of_Ok in H.
    destruct H as (b & start & extra & rs & _ & _ & _ & -> & Hchain).
    destruct (chain_dates _ _ _ _ _ _ Hchain _ (S k) r' r
                (row0_payment_date t start b extra) Hr' Hr)
      as (x1 & x2 & E1 & E2 & E3).
    congruence. }
  exists (Cal.days_between d2 d1). split; [exact Hdays|].
  unfold payment_date_of in Hd1, Hd2.
  replace (Z.of_nat (S (S k)) =? 1) with false in Hd2 by (symmetry; apply Z.eqb_neq; lia).
  apply add_months_Ok in Hd2. destruct Hd2 as [Hd2 Hv2].
  assert (Hcd : 1 <= cycle_day t).
  { apply CalFacts.valid_date_iff in Hv2. rewrite Hd2 in Hv2. cbn in Hv2. lia. }
  replace (Z.of_nat (S (S k)) - 1) with (Z.of_nat k + 1) in Hd2 by lia.
  destruct k as [|k].
  - (* the second period: from the first payment date *)
    change (Z.of_nat 1 =? 1) with true in Hd1. cbv iota in Hd1.
    injection Hd1 as <-. split; [lia|]. intros Hv.
    apply CalFacts.valid_date_iff in Hv. destruct Hv as (_ & Hm & Hday).
    destruct (CalSteps.target_zero (first_payment_date t) Hm) as [Ey Em].
    change (Z.of_nat 0) with 0 in Hd2.
    apply CalFacts.valid_date_iff in Hv2. rewrite Hd2 in Hv2.
    cbn [Cal.year Cal.month Cal.day] in Hv2. destruct Hv2 as (_ & _ & Hday2).
    pose proof (CalSteps.consecutive_months_days (first_payment_date t) 0
                  (Cal.day (first_payment_date t)) _
                  ltac:(rewrite Ey, Em; exact Hday) Hday2) as Hb.
    rewrite Ey, Em in Hb. rewrite Hd2.
    destruct (first_payment_date t) as [y m d]. exact Hb.
  - (* later periods: from the cycle day of the month before *)
    replace (Z.of_nat (S (S k)) =? 1) with false in Hd1
      by (symmetry; apply Z.eqb_neq; lia).
    apply add_months_Ok in Hd1. destruct Hd1 as [Hd1 _].
    replace (Z.of_nat (S (S k)) - 1) with (Z.of_nat (S k)) in Hd1 by lia.
    pose proof (cycle_day_step (first_payment_date t) (Z.of_nat (S k))
                  (cycle_day t) Hcd) as Hb.
    cbv zeta in Hb. rewrite <- Hd1, <- Hd2 in Hb. split; intros; lia.
Qed.

Lemma days_between_payments_witness :
  exists r n,
    nth_error (rows_of (App.build_schedule sample_loan)) 3 = Some r
    /\ days r = Some n
    /\ ((3 <= 3)%nat -> 28 <= n <= 31)
    /\ (Cal.valid_date (first_payment_date sample_loan) = true -> 1 <= n <= 61).
Proof.
  destruct (nth_error (rows_of (App.build_schedule sample_loan)) 3) as [r|] eqn:E;
    [|vm_compute in E; discriminate].
  destruct (days_between_payments app_py sample_loan
              (rows_of (App.build_schedule sample_loan)) 3 r)
    as (n & H1 & H2 & H3);
    [vm_compute; reflexivity | exact E | lia |].
  exists r, n. repeat split; solve [assumption | apply H2; assumption | apply H3; assumption].
Defined.

(** ** The amounts of a row *)

Lemma period_row_amounts (t : LoanTerms) (extra : option Decimal)
    (b : Decimal) (d : date) (p : Z) (r : ScheduleRow) (d' : date) :
  is_cents b ->
  period_row t extra b d p r d' ->
  is_cents (beginning_balance r) /\ is_cents (ending_balance r)
  /\ (exists v, daily_interest r = Some v /\ is_cents v)
  /\ (exists v, interest r = Some v /\ is_cents v)
  /\ extra_interest r = None.
Proof.
  intros Hb H. pose proof (period_row_cents _ _ _ _ _ _ _ H) as (He & Hi).
  destruct H.
  cbn [beginning_balance ending_balance daily_interest interest extra_interest] in *.
  split; [exact Hb|]. split; [exact He|]. split; [|split; [exact Hi | reflexivity]].
  eexists. split; [reflexivity|]. eapply daily_rate_amount_cents; eassumption.
Qed.

Lemma chain_amounts (t : LoanTerms) (extra : option Decimal) (ps : list Z) :
  forall b d rs,
    is_cents b ->
    schedule_chain t extra b d ps rs ->
    Forall (fun r =>
              is_cents (beginning_balance r) /\ is_cents (ending_balance r)
              /\ (exists v, daily_interest r = Some v /\ is_cents v)
              /\ (exists v, interest r = Some v /\ is_cents v)
              /\ extra_interest r = None) rs.
Proof.
  induction ps as [|p ps IH]; intros b d rs Hb H; inversion H; subst.
  - constructor.
  - match goal with Hrow : period_row _ _ _ _ _ _ _ |- _ =>
      pose proof (period_row_amounts _ _ _ _ _ _ _ Hb Hrow) as Ha
    end.
    constructor; [exact Ha|]. eapply IH; [|eassumption]. apply Ha.
Qed.

Lemma proration_cents (t : LoanTerms) (start : date) (b x : Decimal) :
  proration t start b = Ok (Some x) -> is_cents x.
Proof.
  intros H. apply proration_Ok in H.
  destruct (t_projected_close_date t); [|discriminate].
  destruct H as (daily & prod & x' & _ & _ & Hq & Hx). injection Hx as ->.
  eapply quantize_money_cents; exact Hq.
Qed.

(** X3.  In a returned schedule the beginning balance, the ending
    balance, the daily interest, the interest and the extra interest of
    every row are amounts in cents of at most 28 digits; the payment and
    the principal are not rounded and are not part of this. *)
Theorem stored_amounts_in_cents (e : engine) (t : LoanTerms)
    (rows : list ScheduleRow) (r : ScheduleRow) :
  build_schedule_of e t = Ok rows ->
  In r rows ->
  is_cents (beginning_balance r) /\ is_cents (ending_balance r)
  /\ (forall v, daily_interest r = Some v -> is_cents v)
  /\ (forall v, interest r = Some v -> is_cents v)
  /\ (forall v, extra_interest r = Some v -> is_cents v).
Proof.
  intros H Hin. apply build_schedule_of_Ok in H.
  destruct H as (b & start & extra & rs & Hb & _ & Hx & -> & Hchain).
  pose proof (quantize_money_cents _ _ Hb) as Hbc.
  destruct Hin as [<-|Hin].
  - assert (Hx' : forall v, extra = Some v -> is_cents v).
    { intros v ->. eapply proration_cents; exact Hx. }
    destruct extra as [x|];
      cbn [set_extra_interest row0 beginning_balance ending_balance
           daily_interest interest extra_interest];
      (split; [exact Hbc|]); (split; [exact Hbc|]);
      (split; [discriminate|]); (split; [discriminate|]); exact Hx'.
  - pose proof (chain_amounts _ _ _ _ _ _ Hbc Hchain) as HF.
    rewrite Forall_forall in HF.
    destruct (HF r Hin) as (H1 & H2 & (v3 & E3 & H3) & (v4 & E4 & H4) & H5).
    split; [exact H1|]. split; [exact H2|].
    split; [|split]; intros v Hv; congruence.
Qed.

Lemma stored_amounts_in_cents_witness :
  Forall (fun r =>
            is_cents (beginning_balance r) /\ is_cents (ending_balance r)
            /\ (forall v, daily_interest r = Some v -> is_cents v)
            /\ (forall v, interest r = Some v -> is_cents v)
            /\ (forall v, extra_interest r = Some v -> is_cents v))
         (rows_of (AppParActual.build_schedule sample_loan)).
Proof.
  apply Forall_forall. intros r Hin.
  apply (stored_amounts_in_cents app_par_actual_py sample_loan
           (rows_of (AppParActual.build_schedule sample_loan)) r).
  - vm_compute. reflexivity.
  - exact Hin.
Defined.

(** ** Payment, principal and the balance *)

Lemma gtb_irrefl (a : Decimal) : Dec.gtb a a = false.
Proof. unfold Dec.gtb, Dec.cmp. rewrite Z.compare_refl. reflexivity. Qed.

Lemma settle_payment_capped (t : LoanTerms) (p : Z) (b i pay0 pay1 : Decimal) :
  settle_payment t p b i pay0 = Ok pay1 ->
  exists owed, Dec.add b i = Ok owed /\ Dec.gtb pay1 owed = false.
Proof.
  unfold settle_payment. destruct (p =? periods_months t).
  - intros H. exists pay1. split; [exact H | apply gtb_irrefl].
  - intros H. bind_inv H. exists v. split; [exact E|].
    destruct (Dec.gtb pay0 v) eqn:G.
    + assert (pay1 = v) by congruence. subst. apply gtb_irrefl.
    + injection H as <-. exact G.
Qed.

Lemma period_row_balance (t : LoanTerms) (extra : option Decimal)
    (b : Decimal) (d : date) (p : Z) (r : ScheduleRow) (d' : date) :
  is_cents b ->
  period_row t extra b d p r d' ->
  exists i pay princ owed,
    interest r = Some i /\ payment r = Some pay /\ principal r = Some princ
    /\ Dec.sub pay i = Ok princ
    /\ Dec.add (beginning_balance r) i = Ok owed
    /\ Dec.gtb pay owed = false
    /\ (is_cents pay -> 0 <= Dec.coef pay -> 0 <= Dec.coef i ->
        Dec.ndigits (Dec.coef (beginning_balance r) + Dec.coef i) <= Dec.prec ->
        Dec.coef pay <= Dec.coef (beginning_balance r) + Dec.coef i
        /\ princ = Dec.money (Dec.coef pay - Dec.coef i)
        /\ ending_balance r
           = Dec.money (Dec.coef (beginning_balance r) + Dec.coef i - Dec.coef pay)).
Proof.
  intros Hb H. pose proof (period_row_cents _ _ _ _ _ _ _ H) as (_ & i' & Hi' & Hic).
  destruct H as [pd daily accrued int0 int1 pay0 pay1 princ eb
                   H1 H2 H3 H4 H5 H6 H7 H8 H9].
  cbn in *. injection Hi' as <-.
  destruct (settle_payment_capped _ _ _ _ _ _ H7) as (owed & Ho & Hg).
  exists int1, pay1, princ, owed. repeat (split; [first [reflexivity | assumption]|]).
  intros Hpc Hp0 Hi0 Hfit.
  destruct (is_cents_money _ Hb) as [Eb Hbd].
  destruct (is_cents_money _ Hic) as [Ei Hid].
  destruct (is_cents_money _ Hpc) as [Ep Hpd].
  set (cb := Dec.coef b) in *. set (ci := Dec.coef int1) in *.
  set (cp := Dec.coef pay1) in *.
  rewrite Eb, Ei in Ho. rewrite DecFacts.add_money in Ho by exact Hfit.
  injection Ho as <-. rewrite Ep in Hg. rewrite DecBounds.gtb_money in Hg.
  bool_to_Z.
  pose proof (DecBounds.ndigits_lt_pow _ _ Hid) as Bi.
  pose proof (DecBounds.ndigits_lt_pow _ _ Hpd) as Bp.
  pose proof (DecBounds.ndigits_lt_pow _ _ Hfit) as Bo.
  unfold Dec.prec in Bi, Bp, Bo.
  split; [lia|].
  rewrite Ep, Ei in H8. rewrite DecFacts.sub_money in H8 by (apply fits_digits; lia).
  injection H8 as <-. split; [reflexivity|].
  unfold close_balance in H9. rewrite Eb in H9.
  rewrite DecFacts.sub_money in H9 by (apply fits_digits; lia).
  cbn [bind] in H9. unfold quantize_money in H9.
  rewrite DecFacts.quantize_cent_money in H9 by (apply fits_digits; lia).
  cbn [bind] in H9. rewrite DecFacts.ltb_zero in H9. cbn [Dec.money Dec.coef] in H9.
  destruct (cb - (cp - ci) <? 0) eqn:L; bool_to_Z; [lia|].
  injection H9 as <-. f_equal. lia.
Qed.

Lemma chain_In_row (t : LoanTerms) (extra : option Decimal) (ps : list Z) :
  forall b d rs r,
    is_cents b ->
    schedule_chain t extra b d ps rs ->
    In r rs ->
    exists b' d0 d', is_cents b' /\ In (period r) ps
                     /\ period_row t extra b' d0 (period r) r d'.
Proof.
  induction ps as [|p ps IH]; intros b d rs r Hb H Hin; inversion H; subst.
  - destruct Hin.
  - match goal with Hrow : period_row _ _ _ _ _ _ _ |- _ =>
      pose proof (period_row_fields _ _ _ _ _ _ _ Hrow) as (Hp & _);
      pose proof (period_row_cents _ _ _ _ _ _ _ Hrow) as (He & _)
    end.
    destruct Hin as [<-|Hin].
    + exists b, d, d'. rewrite Hp. split; [exact Hb|]. split; [left; reflexivity|].
      assumption.
    + match goal with Hc : schedule_chain _ _ _ _ ps _ |- _ =>
        destruct (IH _ _ _ r He Hc Hin) as (b' & d0 & d1 & ? & ? & ?)
      end.
      exists b', d0, d1. split; [assumption|]. split; [right; assumption | assumption].
Qed.

(** A row of a returned schedule is the period-0 row or a row the loop
    made from a balance in cents. *)
Lemma schedule_row_cases (e : engine) (t : LoanTerms)
    (rows : list ScheduleRow) (r : ScheduleRow) :
  build_schedule_of e t = Ok rows ->
  In r rows ->
  exists b start extra,
    quantize_money (loan_amount t) = Ok b
    /\ interest_start_of e t = Ok start
    /\ proration t start b = Ok extra
    /\ nth_error rows 0 = Some (set_extra_interest (row0 t start b) extra)
    /\ (r = set_extra_interest (row0 t start b) extra
        \/ exists b' d0 d',
             is_cents b' /\ 1 <= period r <= periods_months t
             /\ period_row t extra b' d0 (period r) r d').
Proof.
  intros H Hin. apply build_schedule_of_Ok in H.
  destruct H as (b & start & extra & rs & Hb & Hs & Hx & -> & Hchain).
  exists b, start, extra. repeat (split; [first [reflexivity | assumption]|]).
  destruct Hin as [<-|Hin]; [left; reflexivity | right].
  pose proof (quantize_money_cents _ _ Hb) as Hbc.
  destruct (chain_In_row _ _ _ _ _ _ r Hbc Hchain Hin) as (b' & d0 & d' & H1 & H2 & H3).
  apply range1_In in H2. exists b', d0, d'.
  split; [exact H1|]. split; [lia | exact H3].
Qed.

(** X4.  In every payment row of a returned schedule the principal is
    the payment minus the interest, and the payment is never more than
    the beginning balance plus the interest.  When the payment is an
    amount in cents, neither it nor the interest is negative and the
    balance plus the interest has at most 28 digits, the arithmetic is
    exact: the ending balance is beginning balance plus interest minus
    payment. *)
Theorem payment_splits_into_interest_and_principal (e : engine) (t : LoanTerms)
    (rows : list ScheduleRow) (r : ScheduleRow) :
  build_schedule_of e t = Ok rows ->
  In r rows ->
  1 <= period r ->
  exists i pay princ owed,
    interest r = Some i /\ payment r = Some pay /\ principal r = Some princ
    /\ Dec.sub pay i = Ok princ
    /\ Dec.add (beginning_balance r) i = Ok owed
    /\ Dec.gtb pay owed = false
    /\ (is_cents pay -> 0 <= Dec.coef pay -> 0 <= Dec.coef i ->
        Dec.ndigits (Dec.coef (beginning_balance r) + Dec.coef i) <= Dec.prec ->
        Dec.coef pay <= Dec.coef (beginning_balance r) + Dec.coef i
        /\ princ = Dec.money (Dec.coef pay - Dec.coef i)
        /\ ending_balance r
           = Dec.money (Dec.coef (beginning_balance r) + Dec.coef i - Dec.coef pay)).
Proof.
  intros H Hin Hp.
  destruct (schedule_row_cases e t rows r H Hin)
    as (b & start & extra & _ & _ & _ & _ & [->|(b' & d0 & d' & Hb' & _ & Hrow)]).
  - destruct extra; cbn in Hp; lia.
  - eapply period_row_balance; eassumption.
Qed.

Lemma payment_splits_into_interest_and_principal_witness :
  exists r i pay princ owed,
    nth_error (rows_of (App.build_schedule sample_loan)) 2 = Some r
    /\ interest r = Some i /\ payment r = Some pay /\ principal r = Some princ
    /\ Dec.sub pay i = Ok princ
    /\ Dec.add (beginning_balance r) i = Ok owed
    /\ Dec.gtb pay owed = false
    /\ Dec.coef pay <= Dec.coef (beginning_balance r) + Dec.coef i
    /\ princ = Dec.money (Dec.coef pay - Dec.coef i)
    /\ ending_balance r
       = Dec.money (Dec.coef (beginning_balance r) + Dec.coef i - Dec.coef pay).
Proof.
  destruct (nth_error (rows_of (App.build_schedule sample_loan)) 2) as [r|] eqn:E;
    [|vm_compute in E; discriminate].
  pose proof (nth_error_In _ _ E) as Hin.
  pose proof E as E'. vm_compute in E'. injection E' as <-.
  destruct (payment_splits_into_interest_and_principal app_py sample_loan
              (rows_of (App.build_schedule sample_loan)) _
              ltac:(vm_compute; reflexivity) Hin ltac:(vm_compute; discriminate))
    as (i & pay & princ & owed & Hi & Hp & Hpr & Hsub & Hadd & Hg & Hex).
  pose proof Hi as Hi'. pose proof Hp as Hp'.
  vm_compute in Hi'. injection Hi' as <-. vm_compute in Hp'. injection Hp' as <-.
  destruct Hex as (H1 & H2 & H3);
    [split; [reflexivity | vm_compute; discriminate] | vm_compute; discriminate
     | vm_compute; discriminate | vm_compute; discriminate |].
  eexists _, _, _, princ, owed.
  split; [exact E|]. split; [exact Hi|]. split; [exact Hp|].
  split; [exact Hpr|]. split; [exact Hsub|]. split; [exact Hadd|].
  split; [exact Hg|]. split; [exact H1|]. split; [exact H2 | exact H3].
Defined.

(** ** Interest *)

Lemma period_row_interest (t : LoanTerms) (extra : option Decimal)
    (b : Decimal) (d : date) (p : Z) (r : ScheduleRow) (d' : date) :
  period_row t extra b d p r d' ->
  p <> 1 ->
  exists daily n i,
    daily_interest r = Some daily /\ days r = Some n /\ interest r = Some i
    /\ daily_rate_amount (annual_rate_percent t) (beginning_balance r) = Ok daily
    /\ (Dec.ndigits (Dec.coef daily * n) <= Dec.prec ->
        i = Dec.money (Dec.coef daily * n)).
Proof.
  intros H Hp.
  destruct H as [pd daily accrued int0 int1 pay0 pay1 princ eb
                   H1 H2 H3 H4 H5 H6 H7 H8 H9].
  cbn. exists daily, (Cal.days_between pd d), int1.
  repeat (split; [first [reflexivity | assumption]|]).
  intros Hfit.
  destruct (is_cents_money _ (daily_rate_amount_cents _ _ _ H2)) as [Ed _].
  rewrite Ed in H3. rewrite DecBounds.mul_money_int in H3 by exact Hfit.
  injection H3 as <-. unfold quantize_money in H4.
  rewrite DecFacts.quantize_cent_money in H4 by exact Hfit. injection H4 as <-.
  unfold fold_interest in H5.
  replace (p =? 1) with false in H5 by (symmetry; apply Z.eqb_neq; exact Hp).
  destruct extra; injection H5 as <-; reflexivity.
Qed.

(** X5.  From the second payment on, a row's daily interest is the
    daily amount of its own beginning balance, and its interest is that
    daily amount times its days, exactly, whenever the product has at
    most 28 digits. *)
Theorem interest_is_daily_amount_times_days (e : engine) (t : LoanTerms)
    (rows : list ScheduleRow) (r : ScheduleRow) :
  build_schedule_of e t = Ok rows ->
  In r rows ->
  2 <= period r ->
  exists daily n i,
    daily_interest r = Some daily /\ days r = Some n /\ interest r = Some i
    /\ daily_rate_amount (annual_rate_percent t) (beginning_balance r) = Ok daily
    /\ (Dec.ndigits (Dec.coef daily * n) <= Dec.prec ->
        i = Dec.money (Dec.coef daily * n)).
Proof.
  intros H Hin Hp.
  destruct (schedule_row_cases e t rows r H Hin)
    as (b & start & extra & _ & _ & _ & _ & [->|(b' & d0 & d' & _ & _ & Hrow)]).
  - destruct extra; cbn in Hp; lia.
  - eapply period_row_interest; [exact Hrow | lia].
Qed.

Lemma interest_is_daily_amount_times_days_witness :
  exists r daily n i,
    nth_error (rows_of (App.build_schedule sample_loan)) 2 = Some r
    /\ daily_interest r = Some daily /\ days r = Some n /\ interest r = Some i
    /\ daily_rate_amount (annual_rate_percent sample_loan) (beginning_balance r)
       = Ok daily
    /\ i = Dec.money (Dec.coef daily * n).
Proof.
  destruct (nth_error (rows_of (App.build_schedule sample_loan)) 2) as [r|] eqn:E;
    [|vm_compute in E; discriminate].
  pose proof (nth_error_In _ _ E) as Hin.
  pose proof E as E'. vm_compute in E'. injection E' as <-.
  destruct (interest_is_daily_amount_times_days app_py sample_loan
              (rows_of (App.build_schedule sample_loan)) _
              ltac:(vm_compute; reflexivity) Hin ltac:(vm_compute; discriminate))
    as (daily & n & i & Hd & Hn & Hi & Hrate & Hex).
  pose proof Hd as Hd'. pose proof Hn as Hn'.
  vm_compute in Hd'. injection Hd' as <-. vm_compute in Hn'. injection Hn' as <-.
  eexists _, _, _, i.
  split; [exact E|]. split; [exact Hd|]. split; [exact Hn|]. split; [exact Hi|].
  split; [exact Hrate|]. apply Hex. vm_compute. discriminate.
Defined.

(** ** What each row carries *)

(** X6.  Every row of a returned schedule carries the loan number of
    the input and a period between 0 and the term, and only the first row
    has period 0; a payment row has no projected close date and no extra
    interest, and has its payment date, days, daily interest, interest,
    payment and principal set. *)
Theorem payment_rows_carry (e : engine) (t : LoanTerms)
    (rows : list ScheduleRow) (r : ScheduleRow) :
  build_schedule_of e t = Ok rows ->
  In r rows ->
  loan_number r = t_loan_number t
  /\ 0 <= period r <= Z.max 0 (periods_months t)
  /\ (period r = 0 -> nth_error rows 0 = Some r)
  /\ (1 <= period r ->
      projected_close_date r = None /\ extra_interest r = None
      /\ payment_date r <> None /\ days r <> None /\ daily_interest r <> None
      /\ interest r <> None /\ payment r <> None /\ principal r <> None).
Proof.
  intros H Hin.
  destruct (schedule_row_cases e t rows r H Hin)
    as (b & start & extra & _ & _ & _ & H0 & [->|(b' & d0 & d' & _ & Hp & Hrow)]).
  - destruct extra; cbn; (split; [reflexivity|]); (split; [lia|]);
      (split; [intros _; exact H0 | lia]).
  - destruct Hrow. cbn in *. split; [reflexivity|]. split; [lia|].
    split; [lia|]. intros _. repeat split; discriminate.
Qed.

Lemma payment_rows_carry_witness :
  Forall (fun r =>
            loan_number r = t_loan_number sample_loan
            /\ 0 <= period r <= Z.max 0 (periods_months sample_loan)
            /\ (period r = 0 ->
                nth_error (rows_of (AppParActual.build_schedule sample_loan)) 0
                = Some r)
            /\ (1 <= period r ->
                projected_close_date r = None /\ extra_interest r = None
                /\ payment_date r <> None /\ days r <> None
                /\ daily_interest r <> None /\ interest r <> None
                /\ payment r <> None /\ principal r <> None))
         (rows_of (AppParActual.build_schedule sample_loan)).
Proof.
  apply Forall_forall. intros r Hin.
  apply (payment_rows_carry app_par_actual_py sample_loan
           (rows_of (AppParActual.build_schedule sample_loan)) r).
  - vm_compute. reflexivity.
  - exact Hin.
Defined.

(** ** The resolver, composed *)

Lemma target_compose (b d1 : date) (m1 m2 : Z) :
  Cal.year d1 = target_year b m1 -> Cal.month d1 = target_month b m1 ->
  target_year d1 m2 = target_year b (m1 + m2)
  /\ target_month d1 m2 = target_month b (m1 + m2).
Proof.
  intros Hy Hm. unfold target_year, target_month in *. rewrite Hy, Hm.
  split; Z.to_euclidean_division_equations; lia.
Qed.

Lemma add_months_self (b : date) :
  Cal.valid_date b = true -> add_months b 0 (Cal.day b) = Ok b.
Proof.
  intros Hv. rewrite add_months_unfold.
  pose proof Hv as Hv'. apply CalFacts.valid_date_iff in Hv'.
  destruct Hv' as (_ & Hm & Hd).
  destruct (CalSteps.target_zero b Hm) as [-> ->].
  rewrite Z.min_l by lia.
  destruct b as [y m d]. cbn [Cal.year Cal.month Cal.day] in *.
  apply CalFacts.date_new_returns. exact Hv.
Qed.

(** X7.  The resolver composes: resolving [m2] months from a date it
    returned for [m1] months is resolving [m1 + m2] months from the base
    date, whatever cycle day the first step used; and a date it returned
    is what it returns for zero months on that date's own day. *)
Theorem add_months_composes (base_date d1 : date) (m1 m2 cd1 cd : Z) :
  add_months base_date m1 cd1 = Ok d1 ->
  add_months d1 m2 cd = add_months base_date (m1 + m2) cd
  /\ add_months d1 0 (Cal.day d1) = Ok d1.
Proof.
  intros H. apply add_months_Ok in H. destruct H as [Hd Hv].
  split; [|apply add_months_self; exact Hv].
  rewrite !add_months_unfold.
  destruct (target_compose base_date d1 m1 m2) as [-> ->];
    [rewrite Hd; reflexivity | rewrite Hd; reflexivity | reflexivity].
Qed.

Lemma add_months_composes_witness :
  add_months (Cal.mk_date 2024 2 29) 11 31
  = add_months (Cal.mk_date 2024 1 31) (1 + 11) 31
  /\ add_months (Cal.mk_date 2024 2 29) 0 (Cal.day (Cal.mk_date 2024 2 29))
     = Ok (Cal.mk_date 2024 2 29).
Proof.
  apply (add_months_composes (Cal.mk_date 2024 1 31) (Cal.mk_date 2024 2 29) 1 11 31 31).
  reflexivity.
Defined.

(** ** The order of dates *)

Module CalOrder.
Import Cal.

Lemma days_before_year_mono (y y' : Z) :
  y <= y' -> days_before_year y <= days_before_year y'.
Proof.
  intros H. unfold days_before_year. Z.to_euclidean_division_equations. lia.
Qed.

Lemma day_of_year_bound (y m d : Z) :
  1 <= m <= 12 -> 1 <= d <= days_in_month y m ->
  1 <= days_before_month y m + d <= 365 + (if isleap y then 1 else 0).
Proof.
  intros Hm.
  destruct (CalFacts.month_cases m Hm) as [H|[H|[H|[H|[H|[H|[H|[H|[H|[H|[H|H]]]]]]]]]]];
    subst m; unfold days_before_month, days_in_month; cbn -[Z.add];
    destruct (isleap y); lia.
Qed.

Lemma days_before_month_step (y m m' : Z) :
  1 <= m -> m < m' -> m' <= 12 ->
  days_before_month y m + days_in_month y m <= days_before_month y m'.
Proof.
  intros H1 H2 H3.
  destruct (CalFacts.month_cases m ltac:(lia)) as [H|[H|[H|[H|[H|[H|[H|[H|[H|[H|[H|H]]]]]]]]]]];
    subst m;
    destruct (CalFacts.month_cases m' ltac:(lia)) as [H|[H|[H|[H|[H|[H|[H|[H|[H|[H|[H|H]]]]]]]]]]];
    subst m'; try lia;
    unfold days_before_month, days_in_month; cbn -[Z.add]; destruct (isleap y); lia.
Qed.

(** [a > b] on dates of the calendar is [a.toordinal() > b.toordinal()]. *)
Lemma date_gtb_toordinal (a b : date) :
  valid_date a = true -> valid_date b = true ->
  date_gtb a b = (toordinal a >? toordinal b).
Proof.
  intros Ha Hb. apply CalFacts.valid_date_iff in Ha, Hb.
  destruct Ha as (_ & Hma & Hda). destruct Hb as (_ & Hmb & Hdb).
  pose proof (day_of_year_bound _ _ _ Hma Hda) as Ba.
  pose proof (day_of_year_bound _ _ _ Hmb Hdb) as Bb.
  unfold date_gtb, toordinal.
  destruct (Z.lt_trichotomy (year a) (year b)) as [Hy|[Hy|Hy]].
  - pose proof (days_before_year_mono (year a + 1) (year b) ltac:(lia)) as M.
    rewrite CalSteps.isleap_spec in M.
    replace (year a >? year b) with false by (symmetry; rewrite Z.gtb_ltb; apply Z.ltb_ge; lia).
    replace (year a =? year b) with false by (symmetry; apply Z.eqb_neq; lia).
    cbn [orb andb]. symmetry. rewrite Z.gtb_ltb. apply Z.ltb_ge. lia.
  - rewrite Hy in *. rewrite Z.eqb_refl.
    replace (year b >? year b) with false by (symmetry; rewrite Z.gtb_ltb; apply Z.ltb_ge; lia).
    cbn [orb andb].
    destruct (Z.lt_trichotomy (month a) (month b)) as [Hm|[Hm|Hm]].
    + pose proof (days_before_month_step (year b) (month a) (month b)
                    ltac:(lia) Hm ltac:(lia)).
      replace (month a >? month b) with false by (symmetry; rewrite Z.gtb_ltb; apply Z.ltb_ge; lia).
      replace (month a =? month b) with false by (symmetry; apply Z.eqb_neq; lia).
      cbn [orb andb]. symmetry. rewrite Z.gtb_ltb. apply Z.ltb_ge. lia.
    + rewrite Hm in *. rewrite Z.eqb_refl.
      replace (month b >? month b) with false by (symmetry; rewrite Z.gtb_ltb; apply Z.ltb_ge; lia).
      cbn [orb andb]. rewrite !Z.gtb_ltb.
      destruct (day b <? day a) eqn:E; symmetry; bool_to_Z;
        [apply Z.ltb_lt | apply Z.ltb_ge]; lia.
    + pose proof (days_before_month_step (year b) (month b) (month a)
                    ltac:(lia) Hm ltac:(lia)).
      replace (month a >? month b) with true by (symmetry; rewrite Z.gtb_ltb; apply Z.ltb_lt; lia).
      cbn [orb]. symmetry. rewrite Z.gtb_ltb. apply Z.ltb_lt. lia.
  - pose proof (days_before_year_mono (year b + 1) (year a) ltac:(lia)) as M.
    rewrite CalSteps.isleap_spec in M.
    replace (year a >? year b) with true by (symmetry; rewrite Z.gtb_ltb; apply Z.ltb_lt; lia).
    cbn [orb]. symmetry. rewrite Z.gtb_ltb. apply Z.ltb_lt. lia.
Qed.

End CalOrder.

(** ** The start of interest in [app_par_actual.py] *)

Lemma month_before_first_payment (fp calc : date) :
  Cal.valid_date fp = true ->
  add_months fp (-1) (Cal.day fp) = Ok calc ->
  28 <= Cal.days_between fp calc <= 31.
Proof.
  intros Hv H. apply add_months_Ok in H. destruct H as [-> _].
  apply CalFacts.valid_date_iff in Hv. destruct Hv as (_ & Hm & Hd).
  pose proof (cycle_day_step fp (-1) (Cal.day fp) ltac:(lia)) as Hb.
  cbv zeta in Hb. replace (-1 + 1) with 0 in Hb by lia.
  destruct (CalSteps.target_zero fp Hm) as [Ey Em].
  rewrite Ey, Em in Hb. rewrite (Z.min_l (Cal.day fp)) in Hb by lia.
  destruct fp as [y m d]. exact Hb.
Qed.

(** X8.  In a schedule [app_par_actual.py] returns, the date of the
    period-0 row is the later of the projected close date and the date
    one month before the first payment (on the first payment's day, or
    the last day of that month): it is never before a projected close
    date of the calendar, so the extra days are never negative; one month
    before a first payment date of the calendar is 28 to 31 days before
    it; and period 1 counts its days from that start. *)
Theorem derived_start_of_interest (t : LoanTerms) (rows : list ScheduleRow) :
  AppParActual.build_schedule t = Ok rows ->
  exists calc start,
    add_months (first_payment_date t) (-1) (Cal.day (first_payment_date t)) = Ok calc
    /\ option_map payment_date (nth_error rows 0) = Some (Some start)
    /\ (t_projected_close_date t = None -> start = calc)
    /\ (forall c, t_projected_close_date t = Some c ->
          (start = c \/ start = calc)
          /\ (Cal.valid_date c = true ->
              Cal.toordinal start = Z.max (Cal.toordinal c) (Cal.toordinal calc)
              /\ 0 <= Cal.days_between start c))
    /\ (Cal.valid_date (first_payment_date t) = true ->
        28 <= Cal.days_between (first_payment_date t) calc <= 31)
    /\ (forall r1, nth_error rows 1 = Some r1 ->
          days r1 = Some (Cal.days_between (first_payment_date t) start)).
Proof.
  intros H.
  pose proof (period0_payment_date app_par_actual_py t rows H) as H0.
  assert (H1 : forall r1, nth_error rows 1 = Some r1 ->
            exists start, interest_start_of app_par_actual_py t = Ok start
              /\ days r1 = Some (Cal.days_between (first_payment_date t) start)).
  { intros r1 Hr1.
    destruct (first_period_row app_par_actual_py t rows r1 H Hr1)
      as (b & start & extra & d & _ & Hs & _ & Hrow).
    exists start. split; [exact Hs|]. destruct Hrow. cbn.
    match goal with Hp : payment_date_of _ 1 = Ok _ |- _ =>
      unfold payment_date_of in Hp; cbn in Hp; injection Hp as <- end.
    reflexivity. }
  cbn [interest_start_of] in H0, H1.
  unfold AppParActual.build_schedule in H. bind_inv H. bind_inv H.
  rename v0 into start. pose proof E0 as Hstart. rewrite E0 in H0.
  destruct H0 as (s0 & Hs0 & H0). injection Hs0 as <-.
  unfold AppParActual.actual_interest_start_date in E0. bind_inv E0.
  rename v0 into calc. exists calc, start.
  split; [exact E1|]. split; [exact H0|].
  split; [intros Hn; rewrite Hn in E0; congruence|].
  split.
  - intros c Hc. rewrite Hc in E0.
    pose proof (add_months_Ok _ _ _ _ E1) as [_ Hvc].
    destruct (Cal.date_gtb c calc) eqn:G; injection E0 as <-.
    + split; [left; reflexivity|]. intros Hv.
      rewrite (CalOrder.date_gtb_toordinal _ _ Hv Hvc) in G. bool_to_Z.
      unfold Cal.days_between. lia.
    + split; [right; reflexivity|]. intros Hv.
      rewrite (CalOrder.date_gtb_toordinal _ _ Hv Hvc) in G. bool_to_Z.
      unfold Cal.days_between. lia.
  - split.
    + intros Hv. eapply month_before_first_payment; eassumption.
    + intros r1 Hr1. destruct (H1 r1 Hr1) as (s & Hs & Hd).
      assert (s = start) by congruence.
      subst s. exact Hd.
Qed.

Lemma derived_start_of_interest_witness :
  exists calc start,
    add_months (first_payment_date sample_loan) (-1)
               (Cal.day (first_payment_date sample_loan)) = Ok calc
    /\ option_map payment_date
         (nth_error (rows_of (AppParActual.build_schedule sample_loan)) 0)
       = Some (Some start)
    /\ (t_projected_close_date sample_loan = None -> start = calc)
    /\ (forall c, t_projected_close_date sample_loan = Some c ->
          (start = c \/ start = calc)
          /\ (Cal.valid_date c = true ->
              Cal.toordinal start = Z.max (Cal.toordinal c) (Cal.toordinal calc)
              /\ 0 <= Cal.days_between start c))
    /\ (Cal.valid_date (first_payment_date sample_loan) = true ->
        28 <= Cal.days_between (first_payment_date sample_loan) calc <= 31)
    /\ (forall r1,
          nth_error (rows_of (AppParActual.build_schedule sample_loan)) 1 = Some r1 ->
          days r1 = Some (Cal.days_between (first_payment_date sample_loan) start)).
Proof.
  apply (derived_start_of_interest sample_loan). vm_compute. reflexivity.
Defined.

(** ** Rounding to cents *)

Lemma round_half_up_nearest (m k : Z) :
  0 <= m -> 0 < k ->
  - 10 ^ k <= 2 * (m - Dec.round_half_up m k * 10 ^ k) < 10 ^ k.
Proof.
  intros Hm Hk. pose proof (DecBounds.pow10_pos k ltac:(lia)) as Hp.
  pose proof (Z.div_mod m (10 ^ k) ltac:(lia)) as Hdm.
  pose proof (Z.mod_pos_bound m (10 ^ k) Hp) as Hr.
  unfold Dec.round_half_up.
  destruct (2 * (m mod 10 ^ k) >=? 10 ^ k) eqn:E; bool_to_Z; nia.
Qed.

Lemma rescale_cents (a : Decimal) :
  (-2 <= Dec.exp a ->
   Dec.coef (Dec.rescale a (-2)) = Dec.coef a * 10 ^ (Dec.exp a + 2))
  /\ (Dec.exp a < -2 ->
      Dec.coef (Dec.rescale a (-2))
      = Z.sgn (Dec.coef a) * Dec.round_half_up (Z.abs (Dec.coef a)) (-2 - Dec.exp a)).
Proof.
  unfold Dec.rescale. destruct (Dec.coef a =? 0) eqn:E0; bool_to_Z.
  - rewrite E0. cbn [Dec.coef]. split; intros; lia.
  - destruct (Dec.exp a >=? -2) eqn:E1; bool_to_Z; cbn [Dec.coef];
      split; intros; try lia.
    replace (Dec.exp a - -2) with (Dec.exp a + 2) by lia. reflexivity.
Qed.

(** X9.  What [quantize_money] returns is an amount in cents of at
    most 28 digits with the sign of its argument; an argument with two
    decimals or fewer keeps its value, and one with more is rounded to
    the nearest cent, a tie going away from zero. *)
Theorem quantize_money_rounds_half_up (value q : Decimal) :
  quantize_money value = Ok q ->
  is_cents q
  /\ 0 <= Dec.coef q * Dec.coef value
  /\ (-2 <= Dec.exp value ->
      Dec.coef q = Dec.coef value * 10 ^ (Dec.exp value + 2))
  /\ (Dec.exp value < -2 ->
      - 10 ^ (-2 - Dec.exp value)
      <= 2 * (Z.abs (Dec.coef value)
              - Z.abs (Dec.coef q) * 10 ^ (-2 - Dec.exp value))
      < 10 ^ (-2 - Dec.exp value)).
Proof.
  intros H. pose proof (quantize_money_cents _ _ H) as Hc.
  pose proof (DecFacts.quantize_cent_sign _ _ H) as (_ & Hpos & Hneg).
  apply DecFacts.quantize_cent_Ok in H. destruct H as [Hq _].
  destruct (rescale_cents value) as [Hhi Hlo].
  split; [exact Hc|]. split; [nia|].
  rewrite Hq. cbn [Dec.money Dec.coef]. split; [exact Hhi|].
  intros He. rewrite (Hlo He).
  pose proof (DecFacts.round_half_up_nonneg (Z.abs (Dec.coef value))
                (-2 - Dec.exp value) (Z.abs_nonneg _)) as Hr.
  pose proof (round_half_up_nearest (Z.abs (Dec.coef value)) (-2 - Dec.exp value)
                (Z.abs_nonneg _) ltac:(lia)) as Hn.
  destruct (Z.eq_dec (Dec.coef value) 0) as [E0|E0].
  - rewrite E0 in *. cbn [Z.sgn Z.abs] in *. rewrite Z.mul_0_l. cbn [Z.abs].
    assert (Dec.round_half_up 0 (-2 - Dec.exp value) = 0).
    { unfold Dec.round_half_up. rewrite Z.div_0_l, Z.mod_0_l
        by (pose proof (DecBounds.pow10_pos (-2 - Dec.exp value) ltac:(lia)); lia).
      pose proof (DecBounds.pow10_pos (-2 - Dec.exp value) ltac:(lia)).
      destruct (2 * 0 >=? 10 ^ (-2 - Dec.exp value)) eqn:E; bool_to_Z; lia. }
    lia.
  - set (r := Dec.round_half_up (Z.abs (Dec.coef value)) (-2 - Dec.exp value)) in *.
    destruct (Z.sgn_spec (Dec.coef value)) as [[? ->]|[[? ->]|[? ->]]]; lia.
Qed.

Lemma quantize_money_rounds_half_up_witness :
  is_cents (Dec.money 1235)
  /\ 0 <= Dec.coef (Dec.money 1235) * Dec.coef (Dec.mk 12345 (-3))
  /\ (-2 <= Dec.exp (Dec.mk 12345 (-3)) ->
      Dec.coef (Dec.money 1235)
      = Dec.coef (Dec.mk 12345 (-3)) * 10 ^ (Dec.exp (Dec.mk 12345 (-3)) + 2))
  /\ (Dec.exp (Dec.mk 12345 (-3)) < -2 ->
      - 10 ^ (-2 - Dec.exp (Dec.mk 12345 (-3)))
      <= 2 * (Z.abs (Dec.coef (Dec.mk 12345 (-3)))
              - Z.abs (Dec.coef (Dec.money 1235))
                * 10 ^ (-2 - Dec.exp (Dec.mk 12345 (-3))))
      < 10 ^ (-2 - Dec.exp (Dec.mk 12345 (-3)))).
Proof.
  apply (quantize_money_rounds_half_up (Dec.mk 12345 (-3)) (Dec.money 1235)).
  vm_compute. reflexivity.
Defined.

Lemma many_digits_beyond (value : Decimal) :
  Dec.coef value <> 0 ->
  27 <= Dec.ndigits (Dec.coef value) + Dec.exp value ->
  beyond_cents_precision value.
Proof.
  intros H0 Hn. split; [exact H0|].
  destruct (DecBounds.ndigits_bounds _ H0) as (H1 & Hlo & _).
  set (n := Dec.ndigits (Dec.coef value)) in *.
  destruct (Z_le_dec (-2) (Dec.exp value)) as [He|He]; [left | right]; (split; [lia|]).
  - assert (Hp : 10 ^ 28 <= 10 ^ (n - 1 + (Dec.exp value + 2)))
      by (apply Z.pow_le_mono_r; lia).
    rewrite Z.pow_add_r in Hp by lia.
    pose proof (DecBounds.pow10_pos (Dec.exp value + 2) ltac:(lia)). nia.
  - assert (Hp : 10 ^ (28 + (-2 - Dec.exp value)) <= 10 ^ (n - 1))
      by (apply Z.pow_le_mono_r; lia).
    rewrite Z.pow_add_r in Hp by lia.
    pose proof (DecBounds.pow10_pos (-2 - Dec.exp value) ltac:(lia)). nia.
Qed.

Lemma rounded_beyond (value : Decimal) :
  Dec.coef value <> 0 ->
  10 ^ 28 <= Z.abs (Dec.coef (Dec.rescale value (-2))) ->
  beyond_cents_precision value.
Proof.
  intros H0 Hb. split; [exact H0|].
  destruct (rescale_cents value) as [Hhi Hlo].
  destruct (Z_le_dec (-2) (Dec.exp value)) as [He|He]; [left | right]; (split; [lia|]).
  - rewrite (Hhi He) in Hb. rewrite Z.abs_mul in Hb.
    pose proof (DecBounds.pow10_pos (Dec.exp value + 2) ltac:(lia)).
    rewrite (Z.abs_eq (10 ^ _)) in Hb by lia. exact Hb.
  - rewrite (Hlo ltac:(lia)) in Hb.
    pose proof (DecFacts.round_half_up_nonneg (Z.abs (Dec.coef value))
                  (-2 - Dec.exp value) (Z.abs_nonneg _)) as Hr.
    pose proof (round_half_up_nearest (Z.abs (Dec.coef value)) (-2 - Dec.exp value)
                  (Z.abs_nonneg _) ltac:(lia)) as Hn.
    pose proof (DecBounds.pow10_pos (-2 - Dec.exp value) ltac:(lia)).
    set (r := Dec.round_half_up (Z.abs (Dec.coef value)) (-2 - Dec.exp value)) in *.
    assert (10 ^ 28 <= r)
      by (destruct (Z.sgn_spec (Dec.coef value)) as [[? E]|[[? E]|[? E]]];
          rewrite E in Hb; lia).
    nia.
Qed.

Lemma within_cents_precision (value q : Decimal) :
  quantize_money value = Ok q -> ~ beyond_cents_precision value.
Proof.
  intros H (H0 & Hb).
  pose proof (quantize_money_cents _ _ H) as [_ Hd].
  apply DecBounds.ndigits_lt_pow in Hd. unfold Dec.prec in Hd.
  apply DecFacts.quantize_cent_Ok in H. destruct H as [Hq _].
  rewrite Hq in Hd. cbn [Dec.money Dec.coef] in Hd.
  destruct (rescale_cents value) as [Hhi Hlo].
  destruct Hb as [[He Hb]|[He Hb]].
  - rewrite (Hhi He), Z.abs_mul in Hd.
    pose proof (DecBounds.pow10_pos (Dec.exp value + 2) ltac:(lia)).
    rewrite (Z.abs_eq (10 ^ _)) in Hd by lia. lia.
  - rewrite (Hlo He) in Hd.
    pose proof (DecFacts.round_half_up_nonneg (Z.abs (Dec.coef value))
                  (-2 - Dec.exp value) (Z.abs_nonneg _)) as Hr.
    pose proof (round_half_up_nearest (Z.abs (Dec.coef value)) (-2 - Dec.exp value)
                  (Z.abs_nonneg _) ltac:(lia)) as Hn.
    pose proof (DecBounds.pow10_pos (-2 - Dec.exp value) ltac:(lia)).
    set (r := Dec.round_half_up (Z.abs (Dec.coef value)) (-2 - Dec.exp value)) in *.
    assert (r < 10 ^ 28)
      by (destruct (Z.sgn_spec (Dec.coef value)) as [[? E]|[[? E]|[? E]]];
          rewrite E in Hd; lia).
    nia.
Qed.

Lemma quantize_money_raises_beyond (value : Decimal) (e : exn) :
  quantize_money value = Raise e ->
  e = InvalidOperation /\ beyond_cents_precision value.
Proof.
  unfold quantize_money, Dec.quantize. change (Dec.exp Dec.cent) with (-2).
  change (negb ((Dec.Etiny <=? -2) && (-2 <=? Dec.Emax))) with false. cbv iota.
  destruct (Dec.coef value =? 0) eqn:E0; [vm_compute; discriminate|].
  bool_to_Z. unfold Dec.adjusted at 1 2.
  destruct (Dec.exp value + Dec.ndigits (Dec.coef value) - 1 >? Dec.Emax) eqn:E1;
    bool_to_Z.
  { intros H. injection H as <-. split; [reflexivity|].
    apply many_digits_beyond; [exact E0 | unfold Dec.Emax in E1; lia]. }
  destruct (Dec.exp value + Dec.ndigits (Dec.coef value) - 1 - -2 + 1 >? Dec.prec) eqn:E2;
    bool_to_Z.
  { intros H. injection H as <-. split; [reflexivity|].
    apply many_digits_beyond; [exact E0 | unfold Dec.prec in E2; lia]. }
  assert (Hbig : Dec.prec < Dec.ndigits (Dec.coef (Dec.rescale value (-2))) ->
                 beyond_cents_precision value).
  { intros Hn. apply rounded_beyond; [exact E0|].
    assert (Hc : Dec.coef (Dec.rescale value (-2)) <> 0)
      by (intros Hz; rewrite Hz in Hn; vm_compute in Hn; discriminate).
    destruct (DecBounds.ndigits_bounds _ Hc) as (_ & Hlo & _).
    assert (10 ^ 28 <= 10 ^ (Dec.ndigits (Dec.coef (Dec.rescale value (-2))) - 1))
      by (apply Z.pow_le_mono_r; unfold Dec.prec in Hn; lia).
    lia. }
  unfold Dec.adjusted. rewrite DecFacts.rescale_exp.
  destruct (-2 + Dec.ndigits (Dec.coef (Dec.rescale value (-2))) - 1 >? Dec.Emax) eqn:E3;
    bool_to_Z.
  { intros H. injection H as <-. split; [reflexivity|].
    apply Hbig. unfold Dec.Emax, Dec.prec in *. lia. }
  destruct (Dec.ndigits (Dec.coef (Dec.rescale value (-2))) >? Dec.prec) eqn:E4;
    bool_to_Z.
  { intros H. injection H as <-. split; [reflexivity|]. apply Hbig. lia. }
  assert (Hr : Dec.rescale value (-2) = Dec.money (Dec.coef (Dec.rescale value (-2)))).
  { pose proof (DecFacts.rescale_exp value (-2)).
    destruct (Dec.rescale value (-2)) as [c x]. cbn in *. subst x. reflexivity. }
  rewrite Hr. rewrite DecFacts.fix_context_money by lia. discriminate.
Qed.

(** X10.  [quantize_money] raises nothing but InvalidOperation, and it
    raises exactly when the amount in cents, rounded half-up, would have
    more than 28 digits. *)
Theorem quantize_money_raises (value : Decimal) :
  (forall e, quantize_money value = Raise e -> e = InvalidOperation)
  /\ (quantize_money value = Raise InvalidOperation <-> beyond_cents_precision value).
Proof.
  split; [intros e H; apply (quantize_money_raises_beyond value e H)|].
  split.
  - intros H. apply (quantize_money_raises_beyond value _ H).
  - intros Hb. destruct (quantize_money value) as [q|e] eqn:E.
    + exfalso. exact (within_cents_precision value q E Hb).
    + f_equal. apply (quantize_money_raises_beyond value e E).
Qed.

(** ** Text *)

Module TextFacts.
Import Text.

Lemma append_assoc (a b c : string) : ((a ++ b) ++ c = a ++ (b ++ c))%string.
Proof. induction a as [|x a IH]; cbn; [reflexivity | rewrite IH; reflexivity]. Qed.

Lemma append_empty (a : string) : (a ++ "" = a)%string.
Proof. induction a as [|x a IH]; cbn; [reflexivity | rewrite IH; reflexivity]. Qed.

Lemma length_append (a b : string) :
  String.length (a ++ b) = (String.length a + String.length b)%nat.
Proof. induction a as [|x a IH]; cbn; [reflexivity | rewrite IH; reflexivity]. Qed.

Lemma substring_prefix (p rest : string) :
  substring 0 (String.length p) (p ++ rest) = p.
Proof.
  induction p as [|x p IH]; cbn.
  - destruct rest; reflexivity.
  - rewrite IH. reflexivity.
Qed.

Lemma consumed_append (p rest : string) : Re.consumed (p ++ rest) rest = p.
Proof.
  unfold Re.consumed. rewrite length_append.
  replace (String.length p + String.length rest - String.length rest)%nat
    with (String.length p) by lia.
  apply substring_prefix.
Qed.

(** [lstrip] and [rstrip] *)
Lemma lstrip_keep (c : ascii) (s : string) :
  isspace c = false -> lstrip (String c s) = String c s.
Proof. intros H. cbn. rewrite H. reflexivity. Qed.

Lemma rstrip_snoc (s : string) (c : ascii) :
  isspace c = false -> rstrip (s ++ String c "") = (s ++ String c "")%string.
Proof.
  intros H. induction s as [|x s IH]; cbn.
  - rewrite H. reflexivity.
  - cbn in IH. rewrite IH. destruct (s ++ String c "")%string eqn:E; [|reflexivity].
    destruct s; discriminate.
Qed.

Lemma lstrip_spaces (w s : string) :
  Text.all_space w = true -> lstrip (w ++ s) = lstrip s.
Proof.
  induction w as [|c w IH]; cbn; [reflexivity|].
  intros H. apply andb_true_iff in H. destruct H as [Hc Hw].
  rewrite Hc. apply IH. exact Hw.
Qed.

Lemma rstrip_all_space (w : string) : Text.all_space w = true -> rstrip w = EmptyString.
Proof.
  induction w as [|c w IH]; cbn; [reflexivity|].
  intros H. apply andb_true_iff in H. destruct H as [Hc Hw].
  rewrite (IH Hw), Hc. reflexivity.
Qed.

Lemma rstrip_spaces (s w : string) :
  Text.all_space w = true -> rstrip (s ++ w) = rstrip s.
Proof.
  intros Hw. induction s as [|c s IH]; cbn.
  - apply rstrip_all_space. exact Hw.
  - rewrite IH. reflexivity.
Qed.

Lemma rstrip_after_spaces (w s : string) :
  Text.all_space w = true ->
  rstrip (w ++ s)
  = match rstrip s with
    | EmptyString => EmptyString
    | kept => (w ++ kept)%string
    end.
Proof.
  intros Hw. induction w as [|c w IH]; cbn.
  - destruct (rstrip s); reflexivity.
  - cbn in Hw. apply andb_true_iff in Hw. destruct Hw as [Hc Hw].
    rewrite (IH Hw). destruct (rstrip s) as [|x kept] eqn:E.
    + rewrite Hc. reflexivity.
    + destruct (w ++ String x kept)%string eqn:E'; [|reflexivity].
      destruct w; discriminate.
Qed.

Lemma strip_spaces (w1 s w2 : string) :
  Text.all_space w1 = true -> Text.all_space w2 = true ->
  strip (w1 ++ s ++ w2) = strip s.
Proof.
  intros H1 H2. unfold strip.
  rewrite <- append_assoc, (rstrip_spaces _ _ H2), (rstrip_after_spaces _ _ H1).
  destruct (rstrip s) as [|x kept]; [reflexivity|].
  apply lstrip_spaces. exact H1.
Qed.

(** Digits *)
Lemma digit_cases (k : Z) :
  0 <= k <= 9 ->
  k = 0 \/ k = 1 \/ k = 2 \/ k = 3 \/ k = 4 \/ k = 5 \/ k = 6 \/ k = 7 \/ k = 8 \/ k = 9.
Proof. lia. Qed.

(** A property checked on every number below [n]. *)
Lemma forallb_below (P : Z -> bool) (n : Z) :
  forallb P (map Z.of_nat (seq 0 (Z.to_nat n))) = true ->
  forall z, 0 <= z < n -> P z = true.
Proof.
  intros H z Hz. rewrite forallb_forall in H. apply H.
  apply in_map_iff. exists (Z.to_nat z). split; [lia|]. apply in_seq. lia.
Qed.

Lemma format_d_4 (y : Z) :
  0 <= y <= 9999 ->
  four_digits (format_d 4 y) = true /\ int_of_group (format_d 4 y) = y.
Proof.
  intros Hy.
  assert (H : (four_digits (format_d 4 y) && (int_of_group (format_d 4 y) =? y)) = true).
  { apply (forallb_below
             (fun y => four_digits (format_d 4 y) && (int_of_group (format_d 4 y) =? y))
             10000); [vm_compute; reflexivity | lia]. }
  apply andb_true_iff in H. destruct H as [H1 H2]. bool_to_Z. auto.
Qed.

Lemma format_d_2 (n : Z) :
  0 <= n <= 99 ->
  two_digits (format_d 2 n) = true /\ int_of_group (format_d 2 n) = n.
Proof.
  intros Hn.
  assert (H : (two_digits (format_d 2 n) && (int_of_group (format_d 2 n) =? n)) = true).
  { apply (forallb_below
             (fun n => two_digits (format_d 2 n) && (int_of_group (format_d 2 n) =? n))
             100); [vm_compute; reflexivity | lia]. }
  apply andb_true_iff in H. destruct H as [H1 H2]. bool_to_Z. auto.
Qed.

End TextFacts.

(** ** Matching the date directives *)

Module ReFacts.
Import Text.

Lemma consumed_1 (a : ascii) (rest : string) :
  Re.consumed (String a rest) rest = String a "".
Proof. apply (TextFacts.consumed_append (String a "") rest). Qed.

Lemma consumed_2 (a b : ascii) (rest : string) :
  Re.consumed (String a (String b rest)) rest = String a (String b "").
Proof. apply (TextFacts.consumed_append (String a (String b "")) rest). Qed.

Lemma consumed_4 (a b c d : ascii) (rest : string) :
  Re.consumed (String a (String b (String c (String d rest)))) rest
  = String a (String b (String c (String d ""))).
Proof.
  apply (TextFacts.consumed_append (String a (String b (String c (String d "")))) rest).
Qed.

Lemma run_year4 {A : Type} (a b c d : ascii) (rest : string) (g : Re.groups)
    (k : string -> Re.groups -> option A) :
  isdigit a = true -> isdigit b = true -> isdigit c = true -> isdigit d = true ->
  Re.run (directive_re dir_Y) (String a (String b (String c (String d rest)))) g k
  = k rest (("Y"%string, String a (String b (String c (String d "")))) :: g).
Proof.
  intros Ha Hb Hc Hd. cbn [directive_re Re.run]. rewrite Ha, Hb, Hc, Hd.
  rewrite consumed_4. reflexivity.
Qed.

Ltac number_cases n lo len :=
  let H := fresh "Hin" in
  assert (H : In n (map Z.of_nat (seq lo len)))
    by (apply in_map_iff; exists (Z.to_nat n); split; [lia | apply in_seq; lia]);
  cbn in H;
  repeat (destruct H as [<-|H]); [.. | destruct H].

Ltac field_forms :=
  match goal with
  | Ht : field_text _ ?text, Hr : after_field ?rest |- _ =>
      destruct Ht as [Ht|Ht]; vm_compute in Ht; subst text;
      destruct Hr as [Hr|[(r & Hr)|(r & Hr)]]; subst rest
  end.

Lemma run_month {A : Type} (m : Z) (text rest : string) (g : Re.groups)
    (k : string -> Re.groups -> option A) (v : A) :
  1 <= m <= 12 -> field_text m text -> after_field rest ->
  k rest (("m"%string, text) :: g) = Some v ->
  Re.run (directive_re dir_m) (text ++ rest) g k = Some v.
Proof.
  intros Hm Ht Hr Hk. number_cases m 1%nat 12%nat; field_forms;
    cbn -[Re.consumed]; rewrite ?consumed_2, ?consumed_1; rewrite Hk; reflexivity.
Qed.

Lemma run_day {A : Type} (d : Z) (text rest : string) (g : Re.groups)
    (k : string -> Re.groups -> option A) (v : A) :
  1 <= d <= 31 -> field_text d text -> after_field rest ->
  k rest (("d"%string, text) :: g) = Some v ->
  Re.run (directive_re dir_d) (text ++ rest) g k = Some v.
Proof.
  intros Hd Ht Hr Hk. number_cases d 1%nat 31%nat; field_forms;
    cbn -[Re.consumed]; rewrite ?consumed_2, ?consumed_1; rewrite Hk; reflexivity.
Qed.

Lemma field_value (n : Z) (text : string) :
  0 <= n <= 99 -> field_text n text -> int_of_group text = n.
Proof.
  intros Hn Ht.
  assert (H : (int_of_group (format_d 2 n) =? n) && (int_of_group (format_d 1 n) =? n)
              = true).
  { apply (TextFacts.forallb_below
             (fun n => (int_of_group (format_d 2 n) =? n)
                       && (int_of_group (format_d 1 n) =? n)) 100);
      [vm_compute; reflexivity | lia]. }
  apply andb_true_iff in H. destruct H as [H1 H2]. bool_to_Z.
  destruct Ht as [->| ->]; assumption.
Qed.

Lemma field_ends (n : Z) (text : string) :
  0 <= n <= 99 -> field_text n text ->
  exists s z, text = (s ++ String z "")%string /\ isspace z = false.
Proof.
  intros Hn Ht.
  number_cases n 0%nat 100%nat; destruct Ht as [Ht|Ht]; vm_compute in Ht; subst text;
    first [ eexists (String _ ""), _; split; [reflexivity | reflexivity]
          | eexists EmptyString, _; split; [reflexivity | reflexivity] ].
Qed.

End ReFacts.

Module ReFails.
Import Text ReFacts.

Lemma digit_not_separator (c : ascii) :
  isdigit c = true -> Ascii.eqb c "/" = false /\ Ascii.eqb c "-" = false.
Proof.
  intros H. split.
  - destruct (Ascii.eqb_spec c "/") as [->|]; [vm_compute in H; discriminate | reflexivity].
  - destruct (Ascii.eqb_spec c "-") as [->|]; [vm_compute in H; discriminate | reflexivity].
Qed.

(** When what follows a field fails after the whole field and after any
    digit, the field fails. *)
Lemma run_month_none {A : Type} (m : Z) (text r : string) (g : Re.groups)
    (k : string -> Re.groups -> option A) :
  1 <= m <= 12 -> field_text m text ->
  (forall g', k (String "/" r) g' = None) ->
  (forall c s g', isdigit c = true -> k (String c s) g' = None) ->
  Re.run (directive_re dir_m) (text ++ String "/" r) g k = None.
Proof.
  intros Hm Ht Hk Hd.
  number_cases m 1%nat 12%nat; destruct Ht as [Ht|Ht]; vm_compute in Ht; subst text;
    cbn -[Re.consumed]; rewrite ?Hk; rewrite ?Hd by reflexivity; reflexivity.
Qed.

Lemma run_day_none {A : Type} (d : Z) (text r : string) (g : Re.groups)
    (k : string -> Re.groups -> option A) :
  1 <= d <= 31 -> field_text d text ->
  (forall g', k (String "/" r) g' = None) ->
  (forall c s g', isdigit c = true -> k (String c s) g' = None) ->
  Re.run (directive_re dir_d) (text ++ String "/" r) g k = None.
Proof.
  intros Hm Ht Hk Hd.
  number_cases d 1%nat 31%nat; destruct Ht as [Ht|Ht]; vm_compute in Ht; subst text;
    cbn -[Re.consumed]; rewrite ?Hk; rewrite ?Hd by reflexivity; reflexivity.
Qed.

End ReFails.

(** ** [parse_date] *)

Lemma field_starts (n : Z) (text : string) :
  0 <= n <= 99 -> field_text n text ->
  exists a s, text = String a s /\ Text.isspace a = false.
Proof.
  intros Hn Ht.
  ReFacts.number_cases n 0%nat 100%nat; destruct Ht as [Ht|Ht];
    vm_compute in Ht; subst text; eexists _, _; split; reflexivity.
Qed.

Lemma strip_keep (t p s : string) (a z : ascii) :
  t = String a s -> t = (p ++ String z "")%string ->
  Text.isspace a = false -> Text.isspace z = false ->
  Text.strip t = t.
Proof.
  intros H1 H2 Ha Hz. unfold Text.strip.
  assert (Hr : Text.rstrip t = t) by (rewrite H2; apply TextFacts.rstrip_snoc; exact Hz).
  rewrite Hr, H1. apply TextFacts.lstrip_keep. exact Ha.
Qed.

Lemma valid_date_fields (y m d : Z) :
  Cal.valid_date (Cal.mk_date y m d) = true ->
  1 <= y <= 9999 /\ 1 <= m <= 12 /\ 1 <= d <= 31.
Proof.
  intros H. apply CalFacts.valid_date_iff in H. cbn in H.
  destruct H as (Hy & Hm & Hd).
  pose proof (CalFacts.days_in_month_range y m Hm).
  unfold Cal.MINYEAR, Cal.MAXYEAR in Hy. lia.
Qed.

Lemma date_new_valid (y m d : Z) :
  Cal.valid_date (Cal.mk_date y m d) = true ->
  Cal.date_new y m d = Ok (Cal.mk_date y m d).
Proof. apply CalFacts.date_new_returns. Qed.

Section DateTexts.

Variables (y m d : Z) (tm td : string).
Hypothesis Hvalid : Cal.valid_date (Cal.mk_date y m d) = true.
Hypothesis Hm : field_text m tm.
Hypothesis Hd : field_text d td.

Lemma strptime_iso :
  strptime_date (Text.format_d 4 y ++ "-" ++ tm ++ "-" ++ td) format_iso
  = Ok (Cal.mk_date y m d).
Proof.
  destruct (valid_date_fields _ _ _ Hvalid) as (Hy & Hmr & Hdr).
  destruct (TextFacts.format_d_4 y ltac:(lia)) as [Hshape Hval].
  destruct (Text.format_d 4 y) as [|a [|b [|c [|e [|]]]]]; try discriminate Hshape.
  cbn [Text.four_digits] in Hshape.
  do 5 (apply andb_true_iff in Hshape; destruct Hshape as [Hshape ?]).
  unfold strptime_date, Re.match_.
  assert (Hrun : Re.run (pattern format_iso)
                   (String a (String b (String c (String e "")))
                    ++ "-" ++ tm ++ "-" ++ td) []
                   (fun rest g => Some (rest, g))
                 = Some (EmptyString,
                         [("d"%string, td); ("m"%string, tm);
                          ("Y"%string, String a (String b (String c (String e ""))))])).
  { cbn [format_iso pattern Re.run append].
    rewrite ReFacts.run_year4 by assumption.
    cbn [Re.run]. rewrite Ascii.eqb_refl.
    apply ReFacts.run_month with (m := m);
      [lia | exact Hm | right; left; eexists; reflexivity |].
    cbn [Re.run]. rewrite Ascii.eqb_refl.
    rewrite <- (TextFacts.append_empty td) at 1.
    apply ReFacts.run_day with (d := d); [lia | exact Hd | left; reflexivity |].
    reflexivity. }
  rewrite Hrun. cbn -[Text.int_of_group Cal.date_new].
  rewrite Hval, (ReFacts.field_value m tm), (ReFacts.field_value d td)
    by (assumption || lia).
  apply date_new_valid. exact Hvalid.
Qed.

Lemma strip_iso :
  Text.strip (Text.format_d 4 y ++ "-" ++ tm ++ "-" ++ td)
  = (Text.format_d 4 y ++ "-" ++ tm ++ "-" ++ td)%string.
Proof.
  destruct (valid_date_fields _ _ _ Hvalid) as (Hy & Hmr & Hdr).
  destruct (TextFacts.format_d_4 y ltac:(lia)) as [Hshape _].
  destruct (ReFacts.field_ends d td ltac:(lia) Hd) as (s & z & -> & Hz).
  destruct (Text.format_d 4 y) as [|a [|b [|c [|e [|]]]]] eqn:EY; try discriminate Hshape.
  cbn [Text.four_digits] in Hshape.
  do 5 (apply andb_true_iff in Hshape; destruct Hshape as [Hshape ?]).
  eapply strip_keep with (a := a) (z := z)
    (p := (String a (String b (String c (String e ""))) ++ "-" ++ tm ++ "-" ++ s)%string).
  - cbn [append]. reflexivity.
  - rewrite !TextFacts.append_assoc. reflexivity.
  - destruct (Text.isspace a); [discriminate | reflexivity].
  - exact Hz.
Qed.

Lemma strptime_iso_rejects_slash (rest : string) :
  strptime_date (tm ++ "/" ++ rest) format_iso = Raise ValueError.
Proof.
  destruct (valid_date_fields _ _ _ Hvalid) as (Hy & Hmr & Hdr).
  ReFacts.number_cases m 1%nat 12%nat; destruct Hm as [Ht|Ht];
    vm_compute in Ht; subst tm; reflexivity.
Qed.

Lemma strptime_us :
  strptime_date (tm ++ "/" ++ td ++ "/" ++ Text.format_d 4 y) format_us
  = Ok (Cal.mk_date y m d).
Proof.
  destruct (valid_date_fields _ _ _ Hvalid) as (Hy & Hmr & Hdr).
  destruct (TextFacts.format_d_4 y ltac:(lia)) as [Hshape Hval].
  destruct (Text.format_d 4 y) as [|a [|b [|c [|e [|]]]]]; try discriminate Hshape.
  cbn [Text.four_digits] in Hshape.
  do 5 (apply andb_true_iff in Hshape; destruct Hshape as [Hshape ?]).
  unfold strptime_date, Re.match_.
  assert (Hrun : Re.run (pattern format_us)
                   (tm ++ "/" ++ td ++ "/"
                    ++ String a (String b (String c (String e "")))) []
                   (fun rest g => Some (rest, g))
                 = Some (EmptyString,
                         [("Y"%string, String a (String b (String c (String e ""))));
                          ("d"%string, td); ("m"%string, tm)])).
  { cbn [format_us pattern Re.run append].
    apply ReFacts.run_month with (m := m);
      [lia | exact Hm | right; right; eexists; reflexivity |].
    cbn [Re.run]. rewrite Ascii.eqb_refl.
    apply ReFacts.run_day with (d := d);
      [lia | exact Hd | right; right; eexists; reflexivity |].
    cbn [Re.run]. rewrite Ascii.eqb_refl.
    rewrite ReFacts.run_year4 by assumption. reflexivity. }
  rewrite Hrun. cbn -[Text.int_of_group Cal.date_new].
  rewrite Hval, (ReFacts.field_value m tm), (ReFacts.field_value d td)
    by (assumption || lia).
  apply date_new_valid. exact Hvalid.
Qed.

Lemma strip_us (ty : string) (z : ascii) (p : string) :
  ty = (p ++ String z "")%string -> Text.isspace z = false ->
  Text.strip (tm ++ "/" ++ td ++ "/" ++ ty)
  = (tm ++ "/" ++ td ++ "/" ++ ty)%string.
Proof.
  intros -> Hz.
  destruct (valid_date_fields _ _ _ Hvalid) as (Hy & Hmr & Hdr).
  destruct (field_starts m tm ltac:(lia) Hm) as (a & s & -> & Ha).
  eapply strip_keep with (a := a) (z := z)
    (p := (String a s ++ "/" ++ td ++ "/" ++ p)%string).
  - cbn [append]. reflexivity.
  - rewrite !TextFacts.append_assoc. reflexivity.
  - exact Ha.
  - exact Hz.
Qed.

End DateTexts.

Lemma run_year2 {A : Type} (a b : ascii) (rest : string) (g : Re.groups)
    (k : string -> Re.groups -> option A) :
  Text.isdigit a = true -> Text.isdigit b = true ->
  Re.run (directive_re dir_y) (String a (String b rest)) g k
  = k rest (("y"%string, String a (String b "")) :: g).
Proof.
  intros Ha Hb. cbn [directive_re Re.run]. rewrite Ha, Hb.
  rewrite ReFacts.consumed_2. reflexivity.
Qed.

Section ShortYear.

Variables (yy m d : Z) (tm td : string).
Hypothesis Hyy : 0 <= yy <= 99.
Hypothesis Hvalid :
  Cal.valid_date (Cal.mk_date (if yy <=? 68 then yy + 2000 else yy + 1900) m d) = true.
Hypothesis Hm : field_text m tm.
Hypothesis Hd : field_text d td.

Lemma strptime_us_rejects_short :
  strptime_date (tm ++ "/" ++ td ++ "/" ++ Text.format_d 2 yy) format_us
  = Raise ValueError.
Proof.
  destruct (valid_date_fields _ _ _ Hvalid) as (_ & Hmr & Hdr).
  destruct (TextFacts.format_d_2 yy Hyy) as [Hshape _].
  destruct (Text.format_d 2 yy) as [|a [|b [|]]]; try discriminate Hshape.
  unfold strptime_date, Re.match_.
  assert (Hrun : Re.run (pattern format_us)
                   (tm ++ "/" ++ td ++ "/" ++ String a (String b "")) []
                   (fun rest g => Some (rest, g)) = None).
  { cbn [format_us pattern Re.run append].
    apply ReFails.run_month_none with (m := m); [lia | exact Hm | |].
    - intros g'. cbn [Re.run]. rewrite Ascii.eqb_refl.
      apply ReFails.run_day_none with (d := d); [lia | exact Hd | |].
      + intros g''. cbn [Re.run directive_re]. rewrite Ascii.eqb_refl.
        destruct (Text.isdigit a); [|reflexivity].
        destruct (Text.isdigit b); reflexivity.
      + intros c s g'' Hc. cbn [Re.run].
        destruct (ReFails.digit_not_separator c Hc) as [-> _]. reflexivity.
    - intros c s g' Hc. cbn [Re.run].
      destruct (ReFails.digit_not_separator c Hc) as [-> _]. reflexivity. }
  rewrite Hrun. reflexivity.
Qed.

Lemma strptime_us_short :
  strptime_date (tm ++ "/" ++ td ++ "/" ++ Text.format_d 2 yy) format_us_short
  = Ok (Cal.mk_date (if yy <=? 68 then yy + 2000 else yy + 1900) m d).
Proof.
  destruct (valid_date_fields _ _ _ Hvalid) as (_ & Hmr & Hdr).
  destruct (TextFacts.format_d_2 yy Hyy) as [Hshape Hval].
  destruct (Text.format_d 2 yy) as [|a [|b [|]]]; try discriminate Hshape.
  cbn [Text.two_digits] in Hshape.
  do 3 (apply andb_true_iff in Hshape; destruct Hshape as [Hshape ?]).
  unfold strptime_date, Re.match_.
  assert (Hrun : Re.run (pattern format_us_short)
                   (tm ++ "/" ++ td ++ "/" ++ String a (String b "")) []
                   (fun rest g => Some (rest, g))
                 = Some (EmptyString,
                         [("y"%string, String a (String b ""));
                          ("d"%string, td); ("m"%string, tm)])).
  { cbn [format_us_short pattern Re.run append].
    apply ReFacts.run_month with (m := m);
      [lia | exact Hm | right; right; eexists; reflexivity |].
    cbn [Re.run]. rewrite Ascii.eqb_refl.
    apply ReFacts.run_day with (d := d);
      [lia | exact Hd | right; right; eexists; reflexivity |].
    cbn [Re.run]. rewrite Ascii.eqb_refl.
    rewrite run_year2 by assumption. reflexivity. }
  rewrite Hrun. cbn -[Text.int_of_group Cal.date_new Z.leb Z.add].
  rewrite Hval, (ReFacts.field_value m tm), (ReFacts.field_value d td)
    by (assumption || lia).
  apply date_new_valid. exact Hvalid.
Qed.

End ShortYear.

Lemma strptime_date_Ok (text : string) (fmt : list format_item) (d : date) :
  strptime_date text fmt = Ok d -> Cal.valid_date d = true.
Proof.
  unfold strptime_date. destruct (Re.match_ (pattern fmt) text) as [[rest g]|];
    [|discriminate].
  destruct (negb (rest =? "")%string); [discriminate|].
  intros H. apply CalFacts.date_new_Ok in H. apply H.
Qed.

(** What [date] is given by [_strptime] fits a C int: a group of the
    date patterns has four characters at most. *)
Lemma substring_length_le (s : string) :
  forall n, (String.length (substring 0 n s) <= n)%nat.
Proof.
  induction s as [|c s IH]; intros [|n]; cbn; try lia.
  specialize (IH n). lia.
Qed.

Lemma run_reads {A : Type} (r : Re.re) :
  forall (s : string) (g : Re.groups) (k : string -> Re.groups -> option A) (v : A),
    Re.run r s g k = Some v ->
    exists rest g',
      k rest g' = Some v
      /\ (String.length rest <= String.length s)%nat
      /\ (String.length s <= String.length rest + Re.maxlen r)%nat
      /\ (Re.short_groups r = true -> Re.short_texts g -> Re.short_texts g').
Proof.
  induction r as [|c|lo hi| |a IHa b IHb|a IHa b IHb|name a IHa];
    intros s g k v H; cbn [Re.run Re.maxlen Re.short_groups] in *.
  - exists s, g. repeat split; try lia; auto.
  - destruct s as [|x s']; [discriminate|].
    destruct (Ascii.eqb x c); [|discriminate].
    exists s', g. cbn [String.length]. repeat split; try lia; auto.
  - destruct s as [|x s']; [discriminate|].
    destruct ((Text.code lo <=? Text.code x) && (Text.code x <=? Text.code hi));
      [|discriminate].
    exists s', g. cbn [String.length]. repeat split; try lia; auto.
  - destruct s as [|x s']; [discriminate|].
    destruct (Text.isdigit x); [|discriminate].
    exists s', g. cbn [String.length]. repeat split; try lia; auto.
  - apply IHa in H. destruct H as (r1 & g1 & H & L1 & L2 & S1).
    apply IHb in H. destruct H as (r2 & g2 & H & L3 & L4 & S2).
    exists r2, g2. split; [exact H|]. split; [lia|]. split; [lia|].
    intros Hs Hg. apply andb_true_iff in Hs. destruct Hs as [Hs1 Hs2]. auto.
  - destruct (Re.run a s g k) as [v0|] eqn:E.
    + injection H as ->. apply IHa in E.
      destruct E as (r1 & g1 & H & L1 & L2 & S1).
      exists r1, g1. split; [exact H|]. split; [lia|]. split; [lia|].
      intros Hs Hg. apply andb_true_iff in Hs. destruct Hs as [Hs1 Hs2]. auto.
    + apply IHb in H. destruct H as (r1 & g1 & H & L1 & L2 & S1).
      exists r1, g1. split; [exact H|]. split; [lia|]. split; [lia|].
      intros Hs Hg. apply andb_true_iff in Hs. destruct Hs as [Hs1 Hs2]. auto.
  - apply IHa in H. destruct H as (r1 & g1 & H & L1 & L2 & S1).
    exists r1, ((name, Re.consumed s r1) :: g1).
    split; [exact H|]. split; [lia|]. split; [lia|].
    intros Hs Hg. apply andb_true_iff in Hs. destruct Hs as [Hs1 Hs2].
    apply Nat.leb_le in Hs1.
    constructor; [|exact (S1 Hs2 Hg)]. cbn [snd]. unfold Re.consumed.
    pose proof (substring_length_le s (String.length s - String.length r1)). lia.
Qed.

Lemma pattern_short_groups (fmt : list format_item) :
  Re.short_groups (pattern fmt) = true.
Proof.
  induction fmt as [|[d|c] fmt IH]; cbn [pattern Re.short_groups];
    [reflexivity| |exact IH].
  rewrite IH. destruct d; reflexivity.
Qed.

Lemma match_short_texts (fmt : list format_item) (text rest : string)
    (g : Re.groups) :
  Re.match_ (pattern fmt) text = Some (rest, g) -> Re.short_texts g.
Proof.
  unfold Re.match_. intros H. apply run_reads in H.
  destruct H as (r1 & g1 & H & _ & _ & S1). injection H as _ <-.
  apply S1; [apply pattern_short_groups | constructor].
Qed.

Lemma group_short (g : Re.groups) (name text : string) :
  Re.short_texts g -> Re.group g name = Some text ->
  (String.length text <= 4)%nat.
Proof.
  unfold Re.short_texts. induction 1 as [|[n v] g Hv Hg IH]; cbn [Re.group];
    [discriminate|].
  destruct (String.eqb n name); [|exact IH].
  intros H. injection H as <-. exact Hv.
Qed.

Lemma code_range (c : ascii) : 0 <= Text.code c < 256.
Proof.
  unfold Text.code. pose proof (N_ascii_bounded c). lia.
Qed.

Lemma lstrip_length (s : string) :
  (String.length (Text.lstrip s) <= String.length s)%nat.
Proof.
  induction s as [|c s IH]; cbn [Text.lstrip String.length]; [lia|].
  destruct (Text.isspace c); cbn [String.length]; lia.
Qed.

Lemma int_of_group_short (text : string) :
  (String.length text <= 4)%nat -> -230000 <= Text.int_of_group text <= 230000.
Proof.
  intros H. unfold Text.int_of_group.
  pose proof (lstrip_length text) as L.
  destruct (Text.lstrip text) as [|a [|b [|c [|d [|x t]]]]];
    cbn [String.length Text.digits_value] in *; try lia;
    repeat match goal with
           | |- context [Text.code ?c] =>
               lazymatch goal with
               | _ : 0 <= Text.code c < 256 |- _ => fail
               | _ => pose proof (code_range c)
               end
           end; lia.
Qed.

Lemma fits_c_int_small (n : Z) :
  -300000 <= n <= 300000 -> Cal.fits_c_int n = true.
Proof. intros H. apply CalFacts.fits_c_int_iff. lia. Qed.

Lemma strptime_date_Raise (text : string) (fmt : list format_item) (e : exn) :
  strptime_date text fmt = Raise e -> e = ValueError.
Proof.
  unfold strptime_date.
  destruct (Re.match_ (pattern fmt) text) as [[rest g]|] eqn:M;
    [|intros H; injection H as <-; reflexivity].
  destruct (negb (rest =? "")%string); [intros H; injection H as <-; reflexivity|].
  apply match_short_texts in M.
  intros H. apply CalFacts.date_new_Raise in H. destruct H as [_ ->].
  assert (G : forall name t, Re.group g name = Some t ->
                             -230000 <= Text.int_of_group t <= 230000).
  { intros name t Ht. apply int_of_group_short. eapply group_short; eassumption. }
  rewrite !fits_c_int_small; [reflexivity| | |].
  - destruct (Re.group g "d") as [t|] eqn:E; [|lia].
    pose proof (G _ _ E). lia.
  - destruct (Re.group g "m") as [t|] eqn:E; [|lia].
    pose proof (G _ _ E). lia.
  - destruct (Re.group g "Y") as [t|] eqn:E; [pose proof (G _ _ E); lia|].
    destruct (Re.group g "y") as [t|] eqn:E'; [|lia].
    pose proof (G _ _ E').
    destruct (Text.int_of_group t <=? 68); lia.
Qed.

Lemma try_formats_Ok (text : string) (fmts : list (list format_item)) (d : date) :
  try_formats text fmts = Ok d -> Cal.valid_date d = true.
Proof.
  induction fmts as [|fmt fmts IH]; cbn [try_formats]; [discriminate|].
  destruct (strptime_date text fmt) as [x|e] eqn:E.
  - intros H. injection H as <-. eapply strptime_date_Ok; exact E.
  - apply strptime_date_Raise in E. subst e. exact IH.
Qed.

Lemma try_formats_Raise (text : string) (fmts : list (list format_item)) (e : exn) :
  try_formats text fmts = Raise e -> e = ValueError.
Proof.
  induction fmts as [|fmt fmts IH]; cbn [try_formats].
  - intros H. injection H as <-. reflexivity.
  - destruct (strptime_date text fmt) as [x|e'] eqn:E; [discriminate|].
    apply strptime_date_Raise in E. subst e'. exact IH.
Qed.

Lemma rstrip_decompose (s : string) :
  exists w, Text.all_space w = true /\ s = (Text.rstrip s ++ w)%string.
Proof.
  induction s as [|c s (w & Hw & IH)]; cbn.
  - exists EmptyString. split; reflexivity.
  - destruct (Text.rstrip s) as [|x kept] eqn:E.
    + destruct (Text.isspace c) eqn:Hc.
      * exists (String c s). cbn in IH. split; [|reflexivity].
        cbn. rewrite Hc. rewrite IH. exact Hw.
      * exists w. split; [exact Hw|]. cbn in IH |- *. rewrite <- IH. reflexivity.
    + exists w. split; [exact Hw|]. cbn. f_equal. exact IH.
Qed.

Lemma lstrip_decompose (s : string) :
  exists w, Text.all_space w = true /\ s = (w ++ Text.lstrip s)%string.
Proof.
  induction s as [|c s (w & Hw & IH)]; cbn.
  - exists EmptyString. split; reflexivity.
  - destruct (Text.isspace c) eqn:Hc.
    + exists (String c w). split; [cbn; rewrite Hc; exact Hw|]. cbn. f_equal. exact IH.
    + exists EmptyString. split; reflexivity.
Qed.

Lemma strip_idempotent (s : string) : Text.strip (Text.strip s) = Text.strip s.
Proof.
  destruct (rstrip_decompose s) as (w2 & H2 & E2).
  destruct (lstrip_decompose (Text.rstrip s)) as (w1 & H1 & E1).
  fold (Text.strip s) in E1.
  rewrite <- (TextFacts.strip_spaces w1 (Text.strip s) w2 H1 H2).
  rewrite <- TextFacts.append_assoc, <- E1, <- E2. reflexivity.
Qed.

(** X11.  A cell of the sheet that holds a date of the calendar, with or
    without a time of day, is read back as that date: [parse_date] of
    what [as_text] makes of it is the date itself. *)
Theorem date_cells_are_read_back (d : date) :
  Cal.valid_date d = true ->
  parse_date (as_text (cell_date d)) = Ok d
  /\ (forall hour minute second microsecond,
        parse_date (as_text (cell_datetime d hour minute second microsecond)) = Ok d).
Proof.
  intros Hv.
  assert (H : parse_date (isoformat d) = Ok d).
  { destruct d as [y m dd].
    destruct (valid_date_fields _ _ _ Hv) as (Hy & Hm & Hd).
    unfold parse_date, isoformat. cbn [Cal.year Cal.month Cal.day].
    rewrite (strip_iso y m dd _ _ Hv (or_introl eq_refl)).
    cbn [try_formats].
    rewrite (strptime_iso y m dd _ _ Hv (or_introl eq_refl) (or_introl eq_refl)).
    reflexivity. }
  split; [exact H | intros; exact H].
Qed.

Lemma date_cells_are_read_back_witness :
  parse_date (as_text (cell_date (Cal.mk_date 2024 2 29))) = Ok (Cal.mk_date 2024 2 29)
  /\ (forall hour minute second microsecond,
        parse_date (as_text (cell_datetime (Cal.mk_date 2024 2 29)
                                           hour minute second microsecond))
        = Ok (Cal.mk_date 2024 2 29)).
Proof.
  apply (date_cells_are_read_back (Cal.mk_date 2024 2 29)). reflexivity.
Defined.

(** X12.  [parse_date] reads a date of the calendar written as
    year-month-day with [-] and as month/day/year with [/], the year in
    four digits, the month and the day with or without a leading zero. *)
Theorem parse_date_accepts (y m d : Z) (tm td : string) :
  Cal.valid_date (Cal.mk_date y m d) = true ->
  tm = Text.format_d 2 m \/ tm = Text.format_d 1 m ->
  td = Text.format_d 2 d \/ td = Text.format_d 1 d ->
  parse_date (Text.format_d 4 y ++ "-" ++ tm ++ "-" ++ td) = Ok (Cal.mk_date y m d)
  /\ parse_date (tm ++ "/" ++ td ++ "/" ++ Text.format_d 4 y) = Ok (Cal.mk_date y m d).
Proof.
  intros Hv Hm Hd. split.
  - unfold parse_date. rewrite (strip_iso y m d tm td Hv Hd).
    cbn [try_formats]. rewrite (strptime_iso y m d tm td Hv Hm Hd). reflexivity.
  - destruct (valid_date_fields _ _ _ Hv) as (Hy & _ & _).
    destruct (TextFacts.format_d_4 y ltac:(lia)) as [Hshape _].
    unfold parse_date.
    assert (Hs : Text.strip (tm ++ "/" ++ td ++ "/" ++ Text.format_d 4 y)
                 = (tm ++ "/" ++ td ++ "/" ++ Text.format_d 4 y)%string).
    { destruct (Text.format_d 4 y) as [|a [|b [|c [|e [|]]]]]; try discriminate Hshape.
      cbn [Text.four_digits] in Hshape.
      do 5 (apply andb_true_iff in Hshape; destruct Hshape as [Hshape ?]).
      apply (strip_us y m d tm td Hv Hm _ e (String a (String b (String c "")))).
      - reflexivity.
      - destruct (Text.isspace e); [discriminate | reflexivity]. }
    rewrite Hs. cbn [try_formats].
    rewrite (strptime_iso_rejects_slash y m d tm Hv Hm).
    rewrite (strptime_us y m d tm td Hv Hm Hd). reflexivity.
Qed.

Lemma parse_date_accepts_witness :
  parse_date (Text.format_d 4 2024 ++ "-" ++ Text.format_d 1 1 ++ "-" ++ Text.format_d 2 5)
  = Ok (Cal.mk_date 2024 1 5)
  /\ parse_date (Text.format_d 1 1 ++ "/" ++ Text.format_d 2 5 ++ "/" ++ Text.format_d 4 2024)
     = Ok (Cal.mk_date 2024 1 5).
Proof.
  apply (parse_date_accepts 2024 1 5 (Text.format_d 1 1) (Text.format_d 2 5)).
  - reflexivity.
  - right. reflexivity.
  - left. reflexivity.
Defined.

(** X13.  [parse_date] reads month/day/year with a year of two digits
    as a year from 1969 to 2068: up to 68 the year is 2000 and later,
    from 69 it is 1969 and later. *)
Theorem two_digit_year_pivot (yy m d : Z) (tm td : string) :
  0 <= yy <= 99 ->
  Cal.valid_date (Cal.mk_date (if yy <=? 68 then yy + 2000 else yy + 1900) m d) = true ->
  tm = Text.format_d 2 m \/ tm = Text.format_d 1 m ->
  td = Text.format_d 2 d \/ td = Text.format_d 1 d ->
  parse_date (tm ++ "/" ++ td ++ "/" ++ Text.format_d 2 yy)
  = Ok (Cal.mk_date (if yy <=? 68 then yy + 2000 else yy + 1900) m d).
Proof.
  intros Hyy Hv Hm Hd.
  destruct (TextFacts.format_d_2 yy Hyy) as [Hshape _].
  unfold parse_date.
  assert (Hs : Text.strip (tm ++ "/" ++ td ++ "/" ++ Text.format_d 2 yy)
               = (tm ++ "/" ++ td ++ "/" ++ Text.format_d 2 yy)%string).
  { destruct (Text.format_d 2 yy) as [|a [|b [|]]]; try discriminate Hshape.
    cbn [Text.two_digits] in Hshape.
    do 3 (apply andb_true_iff in Hshape; destruct Hshape as [Hshape ?]).
    apply (strip_us _ m d tm td Hv Hm _ b (String a "")).
    - reflexivity.
    - destruct (Text.isspace b); [discriminate | reflexivity]. }
  rewrite Hs. cbn [try_formats].
  rewrite (strptime_iso_rejects_slash _ m d tm Hv Hm).
  rewrite (strptime_us_rejects_short yy m d tm td Hyy Hv Hm Hd).
  rewrite (strptime_us_short yy m d tm td Hyy Hv Hm Hd). reflexivity.
Qed.

Lemma two_digit_year_pivot_witness :
  parse_date (Text.format_d 2 12 ++ "/" ++ Text.format_d 2 31 ++ "/" ++ Text.format_d 2 69)
  = Ok (Cal.mk_date (if 69 <=? 68 then 69 + 2000 else 69 + 1900) 12 31).
Proof.
  apply (two_digit_year_pivot 69 12 31 (Text.format_d 2 12) (Text.format_d 2 31)).
  - lia.
  - reflexivity.
  - left. reflexivity.
  - left. reflexivity.
Defined.

(** X14.  [parse_date] does not see white space around the text, so a
    text cell is read as its text; what it returns is a date of the
    calendar, and it raises nothing but ValueError. *)
Theorem parse_date_strips_and_checks (value w1 w2 : string) :
  Text.all_space w1 = true -> Text.all_space w2 = true ->
  parse_date (w1 ++ value ++ w2) = parse_date value
  /\ parse_date (as_text (cell_str value)) = parse_date value
  /\ (forall d, parse_date value = Ok d -> Cal.valid_date d = true)
  /\ (forall e, parse_date value = Raise e -> e = ValueError).
Proof.
  intros H1 H2. unfold parse_date. cbn [as_text].
  rewrite (TextFacts.strip_spaces w1 value w2 H1 H2), strip_idempotent.
  split; [reflexivity|]. split; [reflexivity|]. split.
  - intros d. apply try_formats_Ok.
  - intros e. apply try_formats_Raise.
Qed.

Lemma parse_date_strips_and_checks_witness :
  parse_date (" " ++ "2024-01-15" ++ String (ascii_of_nat 10) "")
  = parse_date "2024-01-15"
  /\ parse_date (as_text (cell_str "2024-01-15")) = parse_date "2024-01-15"
  /\ (forall d, parse_date "2024-01-15" = Ok d -> Cal.valid_date d = true)
  /\ (forall e, parse_date "2024-01-15" = Raise e -> e = ValueError).
Proof.
  apply (parse_date_strips_and_checks "2024-01-15" " " (String (ascii_of_nat 10) ""));
    reflexivity.
Defined.

(** ** Dictionaries *)

Module PyDictFacts.
Import PyDict.

Lemma get_set {V : Type} (d : dict V) (k k' : string) (v : V) :
  get (set d k v) k' = if String.eqb k k' then Some v else get d k'.
Proof.
  induction d as [|[x w] d IH]; cbn.
  - reflexivity.
  - destruct (String.eqb_spec x k) as [->|Hx]; cbn.
    + destruct (String.eqb k k'); reflexivity.
    + rewrite IH. destruct (String.eqb_spec x k') as [->|Hx'].
      * destruct (String.eqb_spec k k') as [->|]; [congruence | reflexivity].
      * reflexivity.
Qed.

Lemma contains_keys {V : Type} (d : dict V) (k : string) :
  contains d k = true <-> In k (keys d).
Proof.
  unfold contains. induction d as [|[x w] d IH]; cbn.
  - split; [discriminate | tauto].
  - destruct (String.eqb_spec x k) as [->|Hx].
    + split; auto.
    + rewrite IH. split; [auto | intros [H|H]; [congruence | exact H]].
Qed.

Lemma get_keys {V : Type} (d : dict V) (k : string) :
  get d k = None <-> ~ In k (keys d).
Proof.
  rewrite <- contains_keys. unfold contains.
  destruct (get d k); split; intros H; congruence.
Qed.

Lemma keys_set {V : Type} (d : dict V) (k : string) (v : V) :
  keys (set d k v) = if contains d k then keys d else keys d ++ [k].
Proof.
  unfold contains, keys. induction d as [|[x w] d IH]; cbn.
  - reflexivity.
  - destruct (String.eqb_spec x k) as [->|Hx]; cbn.
    + reflexivity.
    + rewrite IH. destruct (get d k); reflexivity.
Qed.

End PyDictFacts.

(** ** The header row *)

Lemma last_occurrence (name : string) (hs : list string) :
  In name hs ->
  exists j, nth_error hs j = Some name
            /\ forall j', (j < j')%nat -> nth_error hs j' <> Some name.
Proof.
  induction hs as [|h hs IH]; [intros []|].
  intros Hin. destruct (in_dec string_dec name hs) as [Hl|Hn].
  - destruct (IH Hl) as (j & Hj & Hlast). exists (S j). split; [exact Hj|].
    intros [|j'] Hlt; [lia|]. cbn. apply Hlast. lia.
  - destruct Hin as [->|Hin]; [|contradiction]. exists 0%nat. split; [reflexivity|].
    intros [|j'] Hlt; [lia|]. cbn. intros H. apply nth_error_In in H. contradiction.
Qed.

Lemma header_index_from (name : string) (hs : list string) :
  forall (start : nat) (acc : PyDict.dict nat) (v : nat),
    PyDict.get (fold_left (fun index '(idx, name) => PyDict.set index name idx)
                          (enumerate_from start hs) acc) name = Some v
    <-> (exists j, v = (start + j)%nat /\ nth_error hs j = Some name
                   /\ forall j', (j < j')%nat -> nth_error hs j' <> Some name)
        \/ (~ In name hs /\ PyDict.get acc name = Some v).
Proof.
  induction hs as [|h hs IH]; intros start acc v; cbn [enumerate_from fold_left].
  - split.
    + intros H. right. split; [intros [] | exact H].
    + intros [(j & _ & Hj & _)|[_ H]]; [destruct j; discriminate | exact H].
  - rewrite IH. rewrite PyDictFacts.get_set. split.
    + intros [(j & -> & Hj & Hlast)|[Hn Hg]].
      * left. exists (S j). split; [lia|]. split; [exact Hj|].
        intros [|j'] Hlt; [lia|]. cbn. apply Hlast. lia.
      * destruct (String.eqb_spec h name) as [->|Hh].
        -- injection Hg as <-. left. exists 0%nat. split; [lia|].
           split; [reflexivity|].
           intros [|j'] Hlt; [lia|]. cbn. intros H. apply nth_error_In in H.
           contradiction.
        -- right. split; [|exact Hg]. intros [H|H]; [congruence | contradiction].
    + intros [(j & -> & Hj & Hlast)|[Hn Hg]].
      * destruct j as [|j].
        -- cbn in Hj. injection Hj as ->. right. split.
           ++ intros Hin. destruct (In_nth_error _ _ Hin) as (i & Hi).
              apply (Hlast (S i)); [lia | exact Hi].
           ++ rewrite String.eqb_refl. f_equal. lia.
        -- left. exists j. split; [lia|]. split; [exact Hj|].
           intros j' Hlt. apply (Hlast (S j')). lia.
      * right. assert (h <> name /\ ~ In name hs) as [Hh Hn'].
        { split; intros H; apply Hn; [left; exact H | right; exact H]. }
        split; [exact Hn'|]. destruct (String.eqb_spec h name); [contradiction | exact Hg].
Qed.

Lemma header_index_Some (hs : list string) (name : string) (i : nat) :
  PyDict.get (header_index hs) name = Some i
  <-> nth_error hs i = Some name
      /\ forall j, (i < j)%nat -> nth_error hs j <> Some name.
Proof.
  unfold header_index. rewrite header_index_from. split.
  - intros [(j & -> & H)|[_ H]]; [exact H | discriminate].
  - intros H. left. exists i. split; [reflexivity | exact H].
Qed.

Lemma header_index_None (hs : list string) (name : string) :
  PyDict.get (header_index hs) name = None <-> ~ In name hs.
Proof.
  split.
  - intros H Hin. destruct (last_occurrence name hs Hin) as (j & Hj).
    apply header_index_Some in Hj. congruence.
  - intros Hn. destruct (PyDict.get (header_index hs) name) as [i|] eqn:E; [|reflexivity].
    apply header_index_Some in E. destruct E as [E _]. apply nth_error_In in E.
    contradiction.
Qed.

Lemma column_name_map_get (key : string) :
  In key (PyDict.keys COLUMN_NAME_MAP) ->
  PyDict.get COLUMN_NAME_MAP key = Some key.
Proof.
  cbn. intros H. repeat (destruct H as [<-|H]; [reflexivity|]). destruct H.
Qed.

(** X15.  For a key of the column map, [cell_value] returns the cell
    under the rightmost header whose text, stripped, is the column name;
    it fails with KeyError exactly when no header has that name, and with
    IndexError when the row is shorter than that column. *)
Theorem cell_value_reads_rightmost_header {C : Type}
    (header_row : list (option string)) (row_values : list C) (key : string) :
  In key (PyDict.keys COLUMN_NAME_MAP) ->
  match cell_value COLUMN_NAME_MAP (header_index (headers_of header_row))
                   row_values key with
  | inr value =>
      exists i, nth_error (headers_of header_row) i = Some key
                /\ (forall j, (i < j)%nat -> nth_error (headers_of header_row) j <> Some key)
                /\ nth_error row_values i = Some value
  | inl (KeyError k) => k = key /\ ~ In key (headers_of header_row)
  | inl IndexError =>
      exists i, nth_error (headers_of header_row) i = Some key
                /\ (forall j, (i < j)%nat -> nth_error (headers_of header_row) j <> Some key)
                /\ (length row_values <= i)%nat
  end.
Proof.
  intros Hkey. unfold cell_value. rewrite (column_name_map_get key Hkey).
  destruct (PyDict.get (header_index (headers_of header_row)) key) as [i|] eqn:E.
  - apply header_index_Some in E. destruct E as [Hi Hlast].
    destruct (nth_error row_values i) as [v|] eqn:Ev.
    + exists i. repeat split; assumption.
    + exists i. split; [exact Hi|]. split; [exact Hlast|].
      apply nth_error_None. exact Ev.
  - apply header_index_None in E. split; [reflexivity | exact E].
Qed.

Lemma cell_value_reads_rightmost_header_witness :
  match cell_value COLUMN_NAME_MAP (header_index (headers_of sample_header_row))
                   sample_row_values "cycle_day" with
  | inr value =>
      exists i, nth_error (headers_of sample_header_row) i = Some "cycle_day"%string
                /\ (forall j, (i < j)%nat ->
                      nth_error (headers_of sample_header_row) j <> Some "cycle_day"%string)
                /\ nth_error sample_row_values i = Some value
  | inl (KeyError k) =>
      k = "cycle_day"%string /\ ~ In "cycle_day"%string (headers_of sample_header_row)
  | inl IndexError =>
      exists i, nth_error (headers_of sample_header_row) i = Some "cycle_day"%string
                /\ (forall j, (i < j)%nat ->
                      nth_error (headers_of sample_header_row) j <> Some "cycle_day"%string)
                /\ (length sample_row_values <= i)%nat
  end.
Proof.
  apply (cell_value_reads_rightmost_header sample_header_row sample_row_values
           "cycle_day").
  cbn. tauto.
Defined.

(** ** [main] *)

Lemma main_loop_Ok (e : engine) (loans : list LoanTerms) :
  forall acc all_rows,
    main_loop e acc loans = Ok all_rows ->
    exists schedules,
      Forall2 (fun t rows => build_schedule_of e t = Ok rows) loans schedules
      /\ all_rows = acc ++ concat schedules.
Proof.
  induction loans as [|t loans IH]; intros acc all_rows H; cbn [main_loop] in H.
  - injection H as <-. exists []. split; [constructor | cbn; rewrite app_nil_r; reflexivity].
  - bind_inv H. destruct (IH _ _ H) as (ss & HF & ->).
    exists (v :: ss). split; [constructor; assumption|].
    cbn. rewrite app_assoc. reflexivity.
Qed.

Lemma main_loop_Raise (e : engine) (loans : list LoanTerms) :
  forall acc x,
    main_loop e acc loans = Raise x ->
    exists before t after,
      loans = before ++ t :: after
      /\ Forall (fun t' => exists rows, build_schedule_of e t' = Ok rows) before
      /\ build_schedule_of e t = Raise x.
Proof.
  induction loans as [|t loans IH]; intros acc x H; cbn [main_loop] in H.
  - discriminate.
  - apply bind_Raise in H. destruct H as [H|(rows & Hr & H)].
    + exists [], t, loans. split; [reflexivity|]. split; [constructor | exact H].
    + destruct (IH _ _ H) as (before & t' & after & -> & HF & Ht).
      exists (t :: before), t', after. split; [reflexivity|].
      split; [constructor; [exists rows; exact Hr | exact HF] | exact Ht].
Qed.

Lemma schedule_length (e : engine) (t : LoanTerms) (rows : list ScheduleRow) :
  build_schedule_of e t = Ok rows ->
  Z.of_nat (length rows) = Z.max 0 (periods_months t) + 1.
Proof.
  intros H. apply periods_of_rows in H.
  rewrite <- (length_map period), H. cbn [length]. rewrite range1_length. lia.
Qed.

(** X16.  The rows [main] gathers are the schedules of the loans one
    after the other, as many rows as the terms of the loans (a term
    below zero counting as zero) plus one row each; when [main] raises,
    it is what the schedule of the first loan that fails raises. *)
Theorem main_gathers_the_schedules (e : engine) (loans : list LoanTerms) :
  (forall all_rows,
     main_rows e loans = Ok all_rows ->
     exists schedules,
       Forall2 (fun t rows => build_schedule_of e t = Ok rows) loans schedules
       /\ all_rows = concat schedules
       /\ Z.of_nat (length all_rows)
          = fold_right Z.add 0 (map (fun t => Z.max 0 (periods_months t) + 1) loans))
  /\ (forall x,
        main_rows e loans = Raise x ->
        exists before t after,
          loans = before ++ t :: after
          /\ Forall (fun t' => exists rows, build_schedule_of e t' = Ok rows) before
          /\ build_schedule_of e t = Raise x).
Proof.
  split; [|intros x; apply main_loop_Raise].
  intros all_rows H. apply main_loop_Ok in H. destruct H as (ss & HF & ->).
  exists ss. split; [exact HF|]. split; [reflexivity|]. cbn [app].
  clear -HF. induction HF as [|t rows loans ss Ht HF IH]; [reflexivity|].
  cbn [concat map fold_right]. rewrite length_app, Nat2Z.inj_add, IH.
  rewrite (schedule_length e t rows Ht). reflexivity.
Qed.

(** ** The sheet of first and final rows *)

Module SummaryFacts.
Import PyDict.

Lemma find_append {A : Type} (f : A -> bool) (l1 l2 : list A) :
  find f (l1 ++ l2)
  = match find f l1 with
    | Some x => Some x
    | None => find f l2
    end.
Proof.
  induction l1 as [|x l1 IH]; cbn; [reflexivity|]. destruct (f x); [reflexivity | exact IH].
Qed.

Lemma fold_final (n : string) (rows : list ScheduleRow) :
  forall s,
    get (final_by_loan (fold_left summary_step rows s)) n
    = match find (fun r => String.eqb (loan_number r) n) (rev rows) with
      | Some r => Some r
      | None => get (final_by_loan s) n
      end.
Proof.
  induction rows as [|r rows IH]; intros s; cbn [fold_left rev find].
  - reflexivity.
  - rewrite IH. rewrite find_append.
    destruct (find (fun r0 => String.eqb (loan_number r0) n) (rev rows)); [reflexivity|].
    cbn [find summary_step final_by_loan]. rewrite PyDictFacts.get_set.
    destruct (String.eqb (loan_number r) n); reflexivity.
Qed.

Lemma fold_first (n : string) (rows : list ScheduleRow) :
  forall s,
    get (first_payment_by_loan (fold_left summary_step rows s)) n
    = match get (first_payment_by_loan s) n with
      | Some r => Some r
      | None => find (fun r => String.eqb (loan_number r) n && (period r =? 1)) rows
      end.
Proof.
  induction rows as [|r rows IH]; intros s; cbn [fold_left find].
  - destruct (get (first_payment_by_loan s) n); reflexivity.
  - rewrite IH. cbn [summary_step first_payment_by_loan]. unfold contains.
    destruct (String.eqb_spec (loan_number r) n) as [E|E]; cbn [andb].
    + rewrite E. destruct (period r =? 1); cbn [andb].
      * destruct (get (first_payment_by_loan s) n) eqn:G; cbn [negb].
        -- rewrite G. reflexivity.
        -- rewrite PyDictFacts.get_set, String.eqb_refl. reflexivity.
      * destruct (get (first_payment_by_loan s) n); reflexivity.
    + destruct ((period r =? 1)
                && negb match get (first_payment_by_loan s) (loan_number r) with
                        | Some _ => true
                        | None => false
                        end).
      * rewrite PyDictFacts.get_set.
        destruct (String.eqb_spec (loan_number r) n); [contradiction | reflexivity].
      * reflexivity.
Qed.

Lemma name_in_In (ks : list string) (x : string) : name_in ks x = true <-> In x ks.
Proof.
  unfold name_in. rewrite existsb_exists. split.
  - intros (y & Hy & E). apply String.eqb_eq in E. subst. exact Hy.
  - intros H. exists x. split; [exact H | apply String.eqb_refl].
Qed.

Lemma filter_twice {A : Type} (f g : A -> bool) (l : list A) :
  filter f (filter g l) = filter (fun x => g x && f x) l.
Proof.
  induction l as [|x l IH]; cbn; [reflexivity|].
  destruct (g x); cbn; [destruct (f x); rewrite IH; reflexivity | exact IH].
Qed.

Lemma fold_keys (rows : list ScheduleRow) :
  forall s,
    keys (final_by_loan (fold_left summary_step rows s))
    = keys (final_by_loan s)
      ++ filter (fun x => negb (name_in (keys (final_by_loan s)) x))
                (first_occurrences (map loan_number rows)).
Proof.
  induction rows as [|r rows IH]; intros s; cbn [fold_left map first_occurrences].
  - cbn. rewrite app_nil_r. reflexivity.
  - rewrite IH. cbn [summary_step final_by_loan]. rewrite PyDictFacts.keys_set.
    set (ks := keys (final_by_loan s)). set (n := loan_number r).
    set (Y := first_occurrences (map loan_number rows)).
    cbn [filter]. destruct (contains (final_by_loan s) n) eqn:C.
    + apply PyDictFacts.contains_keys in C. fold ks in C.
      assert (Hm : name_in ks n = true) by (apply name_in_In; exact C).
      rewrite Hm. cbn [negb]. f_equal. rewrite filter_twice.
      apply filter_ext_in. intros x _.
      destruct (String.eqb_spec x n) as [->|]; cbn [negb andb];
        [rewrite Hm; reflexivity | reflexivity].
    + assert (Hm : name_in ks n = false).
      { destruct (name_in ks n) eqn:M; [|reflexivity]. apply name_in_In in M.
        apply PyDictFacts.contains_keys in M. congruence. }
      rewrite Hm. cbn [negb]. rewrite <- app_assoc. cbn [app]. do 2 f_equal.
      rewrite filter_twice. apply filter_ext. intros x.
      unfold name_in. rewrite existsb_app. cbn [existsb]. rewrite orb_false_r.
      rewrite negb_orb. apply andb_comm.
Qed.

Lemma filter_all {A : Type} (l : list A) : filter (fun _ => true) l = l.
Proof. induction l as [|x l IH]; cbn; [reflexivity | rewrite IH; reflexivity]. Qed.

Lemma summarise_keys (rows : list ScheduleRow) :
  keys (final_by_loan (summarise rows)) = first_occurrences (map loan_number rows).
Proof.
  unfold summarise. rewrite fold_keys. cbn. apply filter_all.
Qed.

Lemma first_occurrences_NoDup (names : list string) : NoDup (first_occurrences names).
Proof.
  induction names as [|n names IH]; cbn; constructor.
  - intros H. apply filter_In in H. destruct H as [_ H].
    rewrite String.eqb_refl in H. discriminate.
  - apply NoDup_filter. exact IH.
Qed.

Lemma first_occurrences_In (names : list string) (x : string) :
  In x (first_occurrences names) <-> In x names.
Proof.
  induction names as [|n names IH]; cbn; [tauto|].
  rewrite filter_In, IH. destruct (String.eqb_spec x n) as [->|Hx]; cbn.
  - split; auto.
  - split; [intros [H|[H _]]; auto | intros [H|H]; [congruence | auto]].
Qed.

Lemma nth_get {V : Type} (d : dict V) (k : nat) (n : string) (v : V) :
  NoDup (keys d) -> nth_error d k = Some (n, v) -> get d n = Some v.
Proof.
  revert k. induction d as [|[x w] d IH]; intros k Hnd Hk.
  - destruct k; discriminate.
  - cbn in Hnd. inversion Hnd as [|? ? Hx Hnd']; subst. destruct k as [|k]; cbn in *.
    + injection Hk as -> ->. rewrite String.eqb_refl. reflexivity.
    + destruct (String.eqb_spec x n) as [->|_].
      * exfalso. apply Hx. apply nth_error_In in Hk.
        apply (in_map fst) in Hk. exact Hk.
      * eapply IH; eassumption.
Qed.

End SummaryFacts.

Lemma sheet_first_cells (rows : list ScheduleRow) :
  map (hd xl_none) (final_rows_sheet rows)
  = map xl_text (first_occurrences (map loan_number rows)).
Proof.
  unfold final_rows_sheet. rewrite <- SummaryFacts.summarise_keys.
  unfold PyDict.keys. rewrite !map_map. apply map_ext. intros [n f]. reflexivity.
Qed.

Lemma sheet_line (rows : list ScheduleRow) (k : nat) (line : list xl) :
  nth_error (final_rows_sheet rows) k = Some line ->
  exists n final_row,
    nth_error (first_occurrences (map loan_number rows)) k = Some n
    /\ find (fun r => String.eqb (loan_number r) n) (rev rows) = Some final_row
    /\ line = final_rows_line n
                (find (fun r => String.eqb (loan_number r) n && (period r =? 1)) rows)
                final_row.
Proof.
  unfold final_rows_sheet. rewrite nth_error_map.
  destruct (nth_error (final_by_loan (summarise rows)) k) as [[n f]|] eqn:E;
    [|discriminate].
  cbn [option_map]. intros H. injection H as <-.
  exists n, f.
  assert (Hn : nth_error (first_occurrences (map loan_number rows)) k = Some n).
  { rewrite <- SummaryFacts.summarise_keys. unfold PyDict.keys.
    rewrite nth_error_map, E. reflexivity. }
  split; [exact Hn|].
  assert (Hg : PyDict.get (final_by_loan (summarise rows)) n = Some f).
  { eapply SummaryFacts.nth_get; [|exact E].
    rewrite SummaryFacts.summarise_keys. apply SummaryFacts.first_occurrences_NoDup. }
  unfold summarise in Hg. rewrite SummaryFacts.fold_final in Hg. cbn in Hg.
  destruct (find (fun r => String.eqb (loan_number r) n) (rev rows)) as [r|];
    [|discriminate].
  split; [exact Hg|]. f_equal.
  unfold summarise. rewrite SummaryFacts.fold_first. reflexivity.
Qed.

(** X17.  The sheet of first and final rows has one line for each loan
    number among the rows, in the order in which the numbers first
    appear, and no number twice. *)
Theorem final_rows_one_line_per_loan (rows : list ScheduleRow) :
  map (hd xl_none) (final_rows_sheet rows)
  = map xl_text (first_occurrences (map loan_number rows))
  /\ NoDup (map (hd xl_none) (final_rows_sheet rows))
  /\ (forall n, In (xl_text n) (map (hd xl_none) (final_rows_sheet rows))
                <-> In n (map loan_number rows)).
Proof.
  rewrite sheet_first_cells. split; [reflexivity|]. split.
  - pose proof (SummaryFacts.first_occurrences_NoDup (map loan_number rows)) as Hnd.
    induction Hnd as [|x l Hx Hnd IH]; cbn [map]; constructor; [|exact IH].
    intros H. apply in_map_iff in H. destruct H as (y & E & H). injection E as ->.
    contradiction.
  - intros n. rewrite <- SummaryFacts.first_occurrences_In. split.
    + intros H. apply in_map_iff in H. destruct H as (x & E & H). injection E as ->.
      exact H.
    + apply in_map.
Qed.

(** X18.  The line of a loan number in the sheet of first and final
    rows is made of the last row that has the number and of the first
    row of period 1 that has it, whose cells are empty when there is
    none. *)
Theorem final_rows_line_content (rows : list ScheduleRow) (k : nat) (line : list xl) :
  nth_error (final_rows_sheet rows) k = Some line ->
  exists n final_row,
    nth_error (first_occurrences (map loan_number rows)) k = Some n
    /\ find (fun r => String.eqb (loan_number r) n) (rev rows) = Some final_row
    /\ line = final_rows_line n
                (find (fun r => String.eqb (loan_number r) n && (period r =? 1)) rows)
                final_row.
Proof.
  intros H. apply sheet_line. exact H.
Qed.

Lemma final_rows_line_content_witness :
  exists line n final_row,
    nth_error (final_rows_sheet (rows_of (App.build_schedule sample_loan))) 0 = Some line
    /\ nth_error (first_occurrences
                    (map loan_number (rows_of (App.build_schedule sample_loan)))) 0
       = Some n
    /\ find (fun r => String.eqb (loan_number r) n)
            (rev (rows_of (App.build_schedule sample_loan))) = Some final_row
    /\ line = final_rows_line n
                (find (fun r => String.eqb (loan_number r) n && (period r =? 1))
                      (rows_of (App.build_schedule sample_loan)))
                final_row.
Proof.
  destruct (nth_error (final_rows_sheet (rows_of (App.build_schedule sample_loan))) 0)
    as [line|] eqn:E; [|vm_compute in E; discriminate].
  destruct (final_rows_line_content (rows_of (App.build_schedule sample_loan)) 0 line E)
    as (n & final_row & H1 & H2 & H3).
  exists line, n, final_row. repeat split; assumption.
Defined.

(** ** The sheet of the rows [main] gathers *)

Lemma Forall2_In_right {A B : Type} (R : A -> B -> Prop) (l1 : list A) (l2 : list B)
    (b : B) :
  Forall2 R l1 l2 -> In b l2 -> exists a, In a l1 /\ R a b.
Proof.
  intros H. induction H as [|x y l1 l2 Hxy H IH]; intros Hin; [destruct Hin|].
  destruct Hin as [<-|Hin].
  - exists x. split; [left; reflexivity | exact Hxy].
  - destruct (IH Hin) as (a & Ha & HR). exists a. split; [right; exact Ha | exact HR].
Qed.

Lemma Forall2_nth {A B : Type} (R : A -> B -> Prop) (l1 : list A) (l2 : list B) :
  Forall2 R l1 l2 ->
  forall k a b, nth_error l1 k = Some a -> nth_error l2 k = Some b -> R a b.
Proof.
  intros H. induction H as [|x y l1 l2 Hxy H IH]; intros k a b Ha Hb.
  - destruct k; discriminate.
  - destruct k as [|k]; cbn in Ha, Hb; [congruence | eapply IH; eassumption].
Qed.

Lemma main_rows_In (e : engine) (loans : list LoanTerms)
    (all_rows : list ScheduleRow) (r : ScheduleRow) :
  main_rows e loans = Ok all_rows ->
  In r all_rows ->
  exists t rows, In t loans /\ build_schedule_of e t = Ok rows /\ In r rows.
Proof.
  intros H Hin. apply main_loop_Ok in H. destruct H as (ss & HF & ->).
  cbn [app] in Hin. apply in_concat in Hin. destruct Hin as (rows & Hrows & Hr).
  destruct (Forall2_In_right _ _ _ _ HF Hrows) as (t & Ht & Hb).
  exists t, rows. repeat split; assumption.
Qed.

Lemma payment_row_blank (e : engine) (t : LoanTerms) (rows : list ScheduleRow)
    (r : ScheduleRow) :
  build_schedule_of e t = Ok rows -> In r rows -> 1 <= period r ->
  projected_close_date r = None /\ extra_interest r = None.
Proof.
  intros H Hin Hp.
  destruct (schedule_row_cases e t rows r H Hin)
    as (b & start & extra & _ & _ & _ & _ & [->|(b' & d0 & d' & _ & _ & Hrow)]).
  - destruct extra; cbn in Hp; lia.
  - destruct Hrow. cbn. split; reflexivity.
Qed.

(** X19.  In the sheet made from the rows [main] gathers, the columns
    Projected Close Date and First Extra Interest are empty on every
    line: they are read from the row of period 1, and the engine sets
    both only on the row of period 0. *)
Theorem final_rows_blank_columns (e : engine) (loans : list LoanTerms)
    (all_rows : list ScheduleRow) (line : list xl) :
  main_rows e loans = Ok all_rows ->
  In line (final_rows_sheet all_rows) ->
  column FINAL_ROWS_HEADERS "Projected Close Date" line = Some xl_none
  /\ column FINAL_ROWS_HEADERS "First Extra Interest" line = Some xl_none.
Proof.
  intros H Hin. apply In_nth_error in Hin. destruct Hin as (k & Hk).
  apply sheet_line in Hk. destruct Hk as (n & final_row & _ & _ & ->).
  destruct (find (fun r => String.eqb (loan_number r) n && (period r =? 1)) all_rows)
    as [r|] eqn:F.
  - apply find_some in F. destruct F as [Hr Hp].
    apply andb_true_iff in Hp. destruct Hp as [_ Hp]. bool_to_Z.
    destruct (main_rows_In e loans all_rows r H Hr) as (t & rows & _ & Hb & Hrows).
    destruct (payment_row_blank e t rows r Hb Hrows ltac:(lia)) as [Hc Hx].
    split; cbn; [rewrite Hc | rewrite Hx]; reflexivity.
  - split; reflexivity.
Qed.

Lemma final_rows_blank_columns_witness :
  Forall (fun line =>
            column FINAL_ROWS_HEADERS "Projected Close Date" line = Some xl_none
            /\ column FINAL_ROWS_HEADERS "First Extra Interest" line = Some xl_none)
         (final_rows_sheet (rows_of (main_rows app_py sample_loans))).
Proof.
  apply Forall_forall. intros line Hin.
  apply (final_rows_blank_columns app_py sample_loans
           (rows_of (main_rows app_py sample_loans)) line).
  - vm_compute. reflexivity.
  - exact Hin.
Defined.

(** ** Loans with numbers of their own *)

Module Gathered.

Lemma schedule_numbers (e : engine) (t : LoanTerms) (rows : list ScheduleRow) :
  build_schedule_of e t = Ok rows ->
  Forall (fun r => loan_number r = t_loan_number t) rows.
Proof.
  intros H. apply Forall_forall. intros r Hin.
  destruct (schedule_row_cases e t rows r H Hin)
    as (b & start & extra & _ & _ & _ & _ & [->|(b' & d0 & d' & _ & _ & Hrow)]).
  - destruct extra; reflexivity.
  - destruct Hrow. reflexivity.
Qed.

Lemma schedule_nonempty (e : engine) (t : LoanTerms) (rows : list ScheduleRow) :
  build_schedule_of e t = Ok rows -> rows <> [].
Proof.
  intros H. apply build_schedule_of_Ok in H.
  destruct H as (b & start & extra & rs & _ & _ & _ & -> & _). discriminate.
Qed.

Lemma schedule_last (e : engine) (t : LoanTerms) (rows : list ScheduleRow) :
  build_schedule_of e t = Ok rows ->
  exists init final_row,
    rows = init ++ [final_row]
    /\ nth_error rows (Z.to_nat (periods_months t)) = Some final_row.
Proof.
  intros H. pose proof (schedule_length e t rows H) as Hlen.
  destruct (exists_last (schedule_nonempty e t rows H)) as (init & x & ->).
  exists init, x. split; [reflexivity|].
  rewrite length_app in Hlen. cbn [length] in Hlen.
  rewrite nth_error_app2 by lia.
  replace (Z.to_nat (periods_months t) - length init)%nat with 0%nat by lia.
  reflexivity.
Qed.

Lemma schedule_first_payment (e : engine) (t : LoanTerms) (rows : list ScheduleRow) :
  build_schedule_of e t = Ok rows ->
  find (fun r => period r =? 1) rows = nth_error rows 1.
Proof.
  intros H. pose proof (periods_of_rows e t rows H) as Hp.
  destruct rows as [|r0 rs]; [discriminate|]. cbn [map] in Hp.
  injection Hp as H0 Hrs. cbn [find nth_error]. rewrite H0. cbn.
  destruct rs as [|r1 rs]; [reflexivity|]. cbn [map] in Hrs.
  destruct (Z_le_dec 1 (periods_months t)) as [HN|HN].
  - destruct (range1_head _ HN) as (ps & E). rewrite E in Hrs.
    injection Hrs as H1 _. cbn [find nth_error]. rewrite H1. reflexivity.
  - rewrite range1_nonpos in Hrs by lia. discriminate.
Qed.

Lemma find_none {A : Type} (f : A -> bool) (l : list A) :
  (forall x, In x l -> f x = false) -> find f l = None.
Proof.
  intros H. induction l as [|x l IH]; cbn; [reflexivity|].
  rewrite (H x (or_introl eq_refl)). apply IH. intros y Hy. apply H. right. exact Hy.
Qed.

Lemma find_same {A : Type} (f g : A -> bool) (l : list A) :
  (forall x, In x l -> f x = g x) -> find f l = find g l.
Proof.
  intros H. induction l as [|x l IH]; cbn; [reflexivity|].
  rewrite (H x (or_introl eq_refl)). destruct (g x); [reflexivity|].
  apply IH. intros y Hy. apply H. right. exact Hy.
Qed.

Lemma filter_keeps {A : Type} (f : A -> bool) (l : list A) :
  (forall x, In x l -> f x = true) -> filter f l = l.
Proof.
  intros H. induction l as [|x l IH]; cbn; [reflexivity|].
  rewrite (H x (or_introl eq_refl)). f_equal. apply IH. intros y Hy. apply H. right.
  exact Hy.
Qed.

Lemma first_occurrences_block (n : string) (l1 l2 : list string) :
  l1 <> [] -> Forall (fun x => x = n) l1 -> ~ In n l2 ->
  first_occurrences (l1 ++ l2) = n :: first_occurrences l2.
Proof.
  intros Hne Hall Hn.
  assert (Hkeep : filter (fun x => negb (String.eqb x n)) (first_occurrences l2)
                  = first_occurrences l2).
  { apply filter_keeps. intros x Hx.
    apply (proj1 (SummaryFacts.first_occurrences_In _ _)) in Hx.
    destruct (String.eqb_spec x n) as [E|]; [|reflexivity].
    exfalso. apply Hn. rewrite <- E. exact Hx. }
  induction l1 as [|x l1 IH]; [contradiction|].
  inversion Hall as [|? ? Hx Hall']; subst. cbn [app first_occurrences]. f_equal.
  destruct l1 as [|y l1].
  - cbn [app]. exact Hkeep.
  - rewrite IH by (discriminate || assumption). cbn [filter].
    rewrite String.eqb_refl. cbn [negb]. exact Hkeep.
Qed.

Section Loans.

Variable e : engine.

Lemma later_numbers (loans : list LoanTerms) (ss : list (list ScheduleRow))
    (r : ScheduleRow) :
  Forall2 (fun t rows => build_schedule_of e t = Ok rows) loans ss ->
  In r (concat ss) ->
  In (loan_number r) (map t_loan_number loans).
Proof.
  intros HF Hin. apply in_concat in Hin. destruct Hin as (rows & Hrows & Hr).
  destruct (Forall2_In_right _ _ _ _ HF Hrows) as (t & Ht & Hb).
  pose proof (schedule_numbers e t rows Hb) as Hn. rewrite Forall_forall in Hn.
  rewrite (Hn r Hr). apply in_map. exact Ht.
Qed.

Lemma names_of_schedules (loans : list LoanTerms) (ss : list (list ScheduleRow)) :
  Forall2 (fun t rows => build_schedule_of e t = Ok rows) loans ss ->
  NoDup (map t_loan_number loans) ->
  first_occurrences (map loan_number (concat ss)) = map t_loan_number loans.
Proof.
  intros HF. induction HF as [|t rows loans ss Ht HF IH]; intros Hnd; [reflexivity|].
  cbn [map] in Hnd. inversion Hnd as [|? ? Hx Hnd']; subst.
  cbn [concat map]. rewrite map_app.
  rewrite (first_occurrences_block (t_loan_number t)).
  - rewrite (IH Hnd'). reflexivity.
  - pose proof (schedule_nonempty e t rows Ht). destruct rows; [contradiction | discriminate].
  - apply Forall_forall. intros x Hin. apply in_map_iff in Hin.
    destruct Hin as (r & <- & Hr).
    pose proof (schedule_numbers e t rows Ht) as Hn. rewrite Forall_forall in Hn.
    apply Hn. exact Hr.
  - intros Hin. apply in_map_iff in Hin. destruct Hin as (r & E & Hr).
    apply Hx. rewrite <- E. eapply later_numbers; eassumption.
Qed.

Lemma other_loan_rows (loans : list LoanTerms) (ss : list (list ScheduleRow))
    (n : string) (g : ScheduleRow -> bool) (r : ScheduleRow) :
  Forall2 (fun t rows => build_schedule_of e t = Ok rows) loans ss ->
  ~ In n (map t_loan_number loans) ->
  In r (concat ss) ->
  String.eqb (loan_number r) n && g r = false.
Proof.
  intros HF Hn Hr. destruct (String.eqb_spec (loan_number r) n) as [E|]; [|reflexivity].
  exfalso. apply Hn. rewrite <- E. eapply later_numbers; eassumption.
Qed.

Lemma find_in_schedules (g : ScheduleRow -> bool) (loans : list LoanTerms)
    (ss : list (list ScheduleRow)) :
  Forall2 (fun t rows => build_schedule_of e t = Ok rows) loans ss ->
  NoDup (map t_loan_number loans) ->
  forall k t rows,
    nth_error loans k = Some t -> nth_error ss k = Some rows ->
    find (fun r => String.eqb (loan_number r) (t_loan_number t) && g r) (concat ss)
    = find g rows.
Proof.
  intros HF. induction HF as [|t0 rows0 loans ss Ht0 HF IH]; intros Hnd k t rows Hk Hs.
  - destruct k; discriminate.
  - cbn [map] in Hnd. inversion Hnd as [|? ? Hx Hnd']; subst.
    cbn [concat]. rewrite SummaryFacts.find_append.
    pose proof (schedule_numbers e t0 rows0 Ht0) as Hn0. rewrite Forall_forall in Hn0.
    destruct k as [|k]; cbn [nth_error] in Hk, Hs.
    + injection Hk as <-. injection Hs as <-.
      rewrite (find_same _ g rows0)
        by (intros x Hin; rewrite (Hn0 x Hin), String.eqb_refl; reflexivity).
      destruct (find g rows0); [reflexivity|].
      apply find_none. intros x Hin. eapply other_loan_rows; eassumption.
    + assert (Hne : t_loan_number t0 <> t_loan_number t).
      { intros E. apply Hx. rewrite E. apply in_map. eapply nth_error_In; exact Hk. }
      rewrite (find_none _ rows0).
      * eapply IH; eassumption.
      * intros x Hin. rewrite (Hn0 x Hin).
        destruct (String.eqb_spec (t_loan_number t0) (t_loan_number t));
          [contradiction | reflexivity].
Qed.

Lemma find_last_in_schedules (loans : list LoanTerms) (ss : list (list ScheduleRow)) :
  Forall2 (fun t rows => build_schedule_of e t = Ok rows) loans ss ->
  NoDup (map t_loan_number loans) ->
  forall k t rows,
    nth_error loans k = Some t -> nth_error ss k = Some rows ->
    find (fun r => String.eqb (loan_number r) (t_loan_number t)) (rev (concat ss))
    = nth_error rows (Z.to_nat (periods_months t)).
Proof.
  intros HF. induction HF as [|t0 rows0 loans ss Ht0 HF IH]; intros Hnd k t rows Hk Hs.
  - destruct k; discriminate.
  - cbn [map] in Hnd. inversion Hnd as [|? ? Hx Hnd']; subst.
    cbn [concat]. rewrite rev_app_distr, SummaryFacts.find_append.
    pose proof (schedule_numbers e t0 rows0 Ht0) as Hn0. rewrite Forall_forall in Hn0.
    destruct k as [|k]; cbn [nth_error] in Hk, Hs.
    + injection Hk as <-. injection Hs as <-.
      rewrite find_none.
      * destruct (schedule_last e t0 rows0 Ht0) as (init & x & E & ->).
        rewrite E, rev_app_distr. cbn [rev app find].
        rewrite (Hn0 x) by (rewrite E; apply in_or_app; right; left; reflexivity).
        rewrite String.eqb_refl. reflexivity.
      * intros x Hin. apply in_rev in Hin.
        pose proof (other_loan_rows loans ss (t_loan_number t0) (fun _ => true) x
                      HF Hx Hin) as Ho.
        rewrite andb_true_r in Ho. exact Ho.
    + rewrite (IH Hnd' k t rows Hk Hs).
      destruct (schedule_last e t rows (Forall2_nth _ _ _ HF k t rows Hk Hs))
        as (init & x & _ & ->).
      reflexivity.
Qed.

End Loans.

End Gathered.

Lemma Forall2_by_nth {A B : Type} (R : A -> B -> Prop) (l1 : list A) (l2 : list B) :
  length l1 = length l2 ->
  (forall k a b, nth_error l1 k = Some a -> nth_error l2 k = Some b -> R a b) ->
  Forall2 R l1 l2.
Proof.
  revert l2. induction l1 as [|x l1 IH]; intros [|y l2] Hlen H; try discriminate.
  - constructor.
  - constructor; [apply (H 0%nat); reflexivity|].
    apply IH; [cbn in Hlen; lia|]. intros k a b Ha Hb. apply (H (S k)); assumption.
Qed.

(** X20.  When the loans have numbers of their own, the sheet made from
    the rows [main] gathers has one line for each loan, in the order of
    the loans: the loan's number, its row of period 1 (none for a term
    below one) and the last row of its schedule. *)
Theorem final_rows_of_gathered_loans (e : engine) (loans : list LoanTerms)
    (all_rows : list ScheduleRow) :
  main_rows e loans = Ok all_rows ->
  NoDup (map t_loan_number loans) ->
  Forall2 (fun t line =>
             exists rows final_row,
               build_schedule_of e t = Ok rows
               /\ nth_error rows (Z.to_nat (periods_months t)) = Some final_row
               /\ line = final_rows_line (t_loan_number t) (nth_error rows 1) final_row)
          loans (final_rows_sheet all_rows).
Proof.
  intros H Hnd. apply main_loop_Ok in H. destruct H as (ss & HF & ->). cbn [app].
  pose proof (Gathered.names_of_schedules e loans ss HF Hnd) as Hnames.
  apply Forall2_by_nth.
  - rewrite <- (length_map (hd xl_none)), sheet_first_cells, Hnames, !length_map.
    reflexivity.
  - intros k t line Ht Hline.
    apply sheet_line in Hline. destruct Hline as (n & final_row & Hn & Hfinal & ->).
    rewrite Hnames, nth_error_map, Ht in Hn. injection Hn as <-.
    assert (Hrows : exists rows, nth_error ss k = Some rows).
    { destruct (nth_error ss k) as [rows|] eqn:E; [eauto|].
      apply nth_error_None in E. pose proof (Forall2_length HF).
      assert (nth_error loans k <> None) by congruence.
      apply nth_error_Some in H0. lia. }
    destruct Hrows as (rows & Hrows).
    pose proof (Forall2_nth _ _ _ HF k t rows Ht Hrows) as Hb.
    exists rows, final_row. split; [exact Hb|].
    rewrite (Gathered.find_last_in_schedules e loans ss HF Hnd k t rows Ht Hrows)
      in Hfinal.
    split; [exact Hfinal|]. f_equal.
    rewrite (Gathered.find_in_schedules e (fun r => period r =? 1) loans ss HF Hnd
               k t rows Ht Hrows).
    apply (Gathered.schedule_first_payment e t rows Hb).
Qed.

Lemma final_rows_of_gathered_loans_witness :
  Forall2 (fun t line =>
             exists rows final_row,
               build_schedule_of app_par_actual_py t = Ok rows
               /\ nth_error rows (Z.to_nat (periods_months t)) = Some final_row
               /\ line = final_rows_line (t_loan_number t) (nth_error rows 1) final_row)
          sample_loans
          (final_rows_sheet (rows_of (main_rows app_par_actual_py sample_loans))).
Proof.
  apply (final_rows_of_gathered_loans app_par_actual_py sample_loans).
  - vm_compute. reflexivity.
  - cbn. constructor; [intros [H|[]]; discriminate|].
    constructor; [intros []|]. constructor.
Defined.

(** ** The total of the interest *)

Module Totals.

Lemma total_step_Ok (totals totals' : PyDict.dict Decimal) (row : ScheduleRow) :
  total_step totals row = Ok totals' ->
  forall n,
    add_all (total_interest totals n) (interest_paid n [row])
    = Ok (total_interest totals' n).
Proof.
  unfold total_step, interest_paid, total_interest. cbn [flat_map]. intros H n.
  rewrite app_nil_r.
  destruct (period row >? 0); cbn [andb];
    [|injection H as <-; rewrite andb_false_r; reflexivity].
  rewrite andb_true_r.
  destruct (interest row) as [i|];
    [|injection H as <-; destruct (String.eqb (loan_number row) n); reflexivity].
  unfold PyDict.contains in H.
  destruct (PyDict.get totals (loan_number row)) as [so_far|] eqn:G; cbn [negb] in H.
  - rewrite G in H. bind_inv H. injection H as <-.
    rewrite PyDictFacts.get_set.
    destruct (String.eqb_spec (loan_number row) n) as [<-|Hn].
    + rewrite G. cbn [add_all]. rewrite E. reflexivity.
    + reflexivity.
  - rewrite PyDictFacts.get_set, String.eqb_refl in H. bind_inv H. injection H as <-.
    rewrite !PyDictFacts.get_set.
    destruct (String.eqb_spec (loan_number row) n) as [<-|Hn].
    + rewrite G. cbn [add_all]. rewrite E. reflexivity.
    + reflexivity.
Qed.

Lemma add_all_append (a : Decimal) (l1 l2 : list Decimal) :
  add_all a (l1 ++ l2) = (b <- add_all a l1 ;; add_all b l2).
Proof.
  revert a. induction l1 as [|x l1 IH]; intros a; cbn [app add_all bind]; [reflexivity|].
  destruct (Dec.add a x) as [s|]; cbn [bind]; [apply IH | reflexivity].
Qed.

Lemma summarise_with_totals_Ok (rows : list ScheduleRow) :
  forall s totals s' totals',
    summarise_with_totals s totals rows = Ok (s', totals') ->
    s' = fold_left summary_step rows s
    /\ forall n,
         add_all (total_interest totals n) (interest_paid n rows)
         = Ok (total_interest totals' n).
Proof.
  induction rows as [|row rows IH]; intros s totals s' totals' H;
    cbn [summarise_with_totals] in H.
  - injection H as <- <-. split; reflexivity.
  - bind_inv H. destruct (IH _ _ _ _ H) as [Hs Ht]. split; [exact Hs|].
    intros n. change (row :: rows) with ([row] ++ rows).
    unfold interest_paid. rewrite flat_map_app. fold (interest_paid n [row]).
    fold (interest_paid n rows). rewrite add_all_append.
    rewrite (total_step_Ok _ _ _ E n). cbn [bind]. apply Ht.
Qed.

(** Amounts in cents that are not negative add up exactly while the sum
    has at most 28 digits. *)
Lemma add_all_cents (l : list Decimal) :
  forall c,
    0 <= c ->
    Forall (fun i => is_cents i /\ 0 <= Dec.coef i) l ->
    c + fold_right Z.add 0 (map Dec.coef l) < 10 ^ 28 ->
    add_all (Dec.money c) l = Ok (Dec.money (c + fold_right Z.add 0 (map Dec.coef l))).
Proof.
  induction l as [|i l IH]; intros c Hc Hall Hsum; cbn [add_all map fold_right] in *.
  - rewrite Z.add_0_r. reflexivity.
  - inversion Hall as [|? ? [Hi Hi0] Hall']; subst.
    assert (Hrest : 0 <= fold_right Z.add 0 (map Dec.coef l)).
    { clear -Hall'. induction Hall' as [|x l [_ Hx] _ IH]; cbn; lia. }
    destruct (is_cents_money _ Hi) as [Ei _]. rewrite Ei.
    rewrite DecFacts.add_money by (apply fits_digits; lia).
    cbn [bind Dec.money Dec.coef]. rewrite IH by (assumption || lia).
    f_equal. f_equal. lia.
Qed.

End Totals.

(** X21.  In [app_par_actual.py] a line of the sheet is the line of
    [app.py] with one more cell, the total of the interest of the loan:
    0.00 plus the interest of its rows of period 1 and later, added in
    the order of the rows under the decimal context; when those are
    amounts in cents that are not negative and their sum is below 10^28
    cents, the total is their exact sum. *)
Theorem total_interest_paid_column (rows : list ScheduleRow) (sheet : list (list xl)) :
  final_rows_sheet_with_totals rows = Ok sheet ->
  Forall2 (fun plain line =>
             exists n total,
               hd xl_none plain = xl_text n
               /\ add_all Dec.zero (interest_paid n rows) = Ok total
               /\ line = plain ++ [xl_float total]
               /\ (Forall (fun i => is_cents i /\ 0 <= Dec.coef i) (interest_paid n rows) ->
                   fold_right Z.add 0 (map Dec.coef (interest_paid n rows)) < 10 ^ 28 ->
                   total = Dec.money
                             (fold_right Z.add 0 (map Dec.coef (interest_paid n rows)))))
          (final_rows_sheet rows) sheet.
Proof.
  unfold final_rows_sheet_with_totals. intros H. bind_inv H. destruct v as [s totals].
  injection H as <-.
  apply Totals.summarise_with_totals_Ok in E. destruct E as [-> Ht].
  unfold final_rows_sheet. fold (summarise rows).
  induction (final_by_loan (summarise rows)) as [|[n f] d IH]; cbn [map]; constructor;
    [|exact IH].
  exists n, (total_interest totals n). split; [reflexivity|].
  pose proof (Ht n) as Hn. cbn in Hn. change (Dec.mk 0 (-2)) with Dec.zero in Hn.
  split; [exact Hn|]. split; [reflexivity|].
  intros Hall Hsum.
  pose proof (Totals.add_all_cents _ 0 ltac:(lia) Hall ltac:(lia)) as Hc.
  change (Dec.money 0) with Dec.zero in Hc. rewrite Hn in Hc. injection Hc as ->.
  reflexivity.
Qed.

Lemma total_interest_paid_column_witness :
  Forall2 (fun plain line =>
             exists n total,
               hd xl_none plain = xl_text n
               /\ add_all Dec.zero
                    (interest_paid n (rows_of (AppParActual.build_schedule sample_loan)))
                  = Ok total
               /\ line = plain ++ [xl_float total]
               /\ (Forall (fun i => is_cents i /\ 0 <= Dec.coef i)
                      (interest_paid n (rows_of (AppParActual.build_schedule sample_loan))) ->
                   fold_right Z.add 0
                     (map Dec.coef
                        (interest_paid n
                           (rows_of (AppParActual.build_schedule sample_loan))))
                   < 10 ^ 28 ->
                   total = Dec.money
                             (fold_right Z.add 0
                                (map Dec.coef
                                   (interest_paid n
                                      (rows_of (AppParActual.build_schedule sample_loan)))))))
          (final_rows_sheet (rows_of (AppParActual.build_schedule sample_loan)))
          (sheet_of (final_rows_sheet_with_totals
                       (rows_of (AppParActual.build_schedule sample_loan)))).
Proof.
  apply (total_interest_paid_column
           (rows_of (AppParActual.build_schedule sample_loan))).
  vm_compute. reflexivity.
Defined.
